(** * go-xml-validator: a shallow embedding of the validation pipeline

    The repository has two near-identical entry points (a plain one,
    [main.go], and a coloured one).  Both contain the same five checkers
    ([validateBasicXML], [validateCDATASections],
    [validateControlCharacters], [validateHexColors], [validateSVG]), the
    same position resolver ([findErrorPosition]) and the same orchestration
    ([validateXML]); they differ in what they print.

    The checkers lean on three packages of the Go standard library:
    [unicode/utf8] (the [range] loop over a string and the regexp engine
    both decode UTF-8), [regexp] (pattern parsing and leftmost-first
    matching) and [bufio] (the line scanner).  Those are modelled here as
    far as the program uses them.  [encoding/xml] is kept abstract: the
    sequence of results of [decoder.Token()] is a parameter.

    The entry points themselves ([main], [readFileContent],
    [displayError], [printCorrectionTips]) are modelled from the parsed
    flags on; the file system, HTTP and the colour library are
    parameters. *)

From Stdlib Require Import ZArith Zbitwise List Bool Lia.
From Stdlib Require Import Strings.String Strings.Ascii Strings.Byte.
Import ListNotations.
Local Open Scope Z_scope.

(** ** Go values: bytes, strings, ints *)

(** A Go [string] and a Go [[]byte] are both byte sequences; [string(line)]
    is the identity on the bytes.  Go's [int] is modelled by [Z]: every
    integer the checkers compute is a slice length or an index into a
    slice, plus a small constant. *)
Definition gostring : Type := list byte.

Definition bs (s : string) : gostring := list_byte_of_string s.

Definition byteZ (b : byte) : Z := Z.of_N (Byte.to_N b).

Definition byte_of_Z (z : Z) : byte :=
  match Byte.of_N (Z.to_N (z mod 256)) with
  | Some b => b
  | None => x00
  end.

Definition len {A : Type} (l : list A) : Z := Z.of_nat (List.length l).

Definition byte_eqb (a b : byte) : bool := Byte.eqb a b.

(** The double quote, which the patterns and messages of [validateSVG]
    contain. *)
Definition dquote : gostring := [x22].

Definition newline : byte := x0a.

(** ** unicode/utf8 *)

Module utf8.

Definition RuneError : Z := 0xFFFD.
Definition RuneSelf : Z := 0x80.
Definition MaxRune : Z := 0x10FFFF.

Definition surrogateMin : Z := 0xD800.
Definition surrogateMax : Z := 0xDFFF.

Definition t1 : Z := 0x00.
Definition tx : Z := 0x80.
Definition t2 : Z := 0xC0.
Definition t3 : Z := 0xE0.
Definition t4 : Z := 0xF0.

Definition maskx : Z := 0x3F.
Definition mask2 : Z := 0x1F.
Definition mask3 : Z := 0x0F.
Definition mask4 : Z := 0x07.

Definition rune1Max : Z := 0x7F.
Definition rune2Max : Z := 0x7FF.
Definition rune3Max : Z := 0xFFFF.

Definition locb : Z := 0x80.
Definition hicb : Z := 0xBF.

(** Information about the first byte of an encoding: the low three bits are
    the length, the high four bits index [acceptRanges]. *)
Definition xx : Z := 0xF1.
Definition as_ : Z := 0xF0.
Definition s1 : Z := 0x02.
Definition s2 : Z := 0x13.
Definition s3 : Z := 0x03.
Definition s4 : Z := 0x23.
Definition s5 : Z := 0x34.
Definition s6 : Z := 0x04.
Definition s7 : Z := 0x44.

(** The table [first[256]], written by ranges. *)
Definition first (b : Z) : Z :=
  if b <? 0x80 then as_
  else if b <? 0xC2 then xx
  else if b <? 0xE0 then s1
  else if b =? 0xE0 then s2
  else if b <? 0xED then s3
  else if b =? 0xED then s4
  else if b <? 0xF0 then s3
  else if b =? 0xF0 then s5
  else if b <? 0xF4 then s6
  else if b =? 0xF4 then s7
  else xx.

(** [acceptRanges[i]]: the range of valid second bytes. *)
Definition acceptRanges (i : Z) : Z * Z :=
  if i =? 0 then (locb, hicb)
  else if i =? 1 then (0xA0, hicb)
  else if i =? 2 then (locb, 0x9F)
  else if i =? 3 then (0x90, hicb)
  else if i =? 4 then (locb, 0x8F)
  else (0, 0).

(** [utf8.DecodeRuneInString]: the first rune of [s] and its width in
    bytes; [(RuneError, 0)] on the empty string and [(RuneError, 1)] on an
    invalid encoding. *)
Definition DecodeRune (s : gostring) : Z * Z :=
  match s with
  | [] => (RuneError, 0)
  | b0 :: rest0 =>
    let c0 := byteZ b0 in
    let x := first c0 in
    if x >=? as_ then
      ((if Z.testbit x 0 then RuneError else c0), 1)
    else
      let sz := Z.land x 7 in
      let accept := acceptRanges (Z.shiftr x 4) in
      if len s <? sz then (RuneError, 1)
      else
        match rest0 with
        | [] => (RuneError, 1)
        | b1 :: rest1 =>
          let c1 := byteZ b1 in
          if (c1 <? fst accept) || (snd accept <? c1) then (RuneError, 1)
          else if sz <=? 2 then
            (Z.lor (Z.shiftl (Z.land c0 mask2) 6) (Z.land c1 maskx), 2)
          else
            match rest1 with
            | [] => (RuneError, 1)
            | b2 :: rest2 =>
              let c2 := byteZ b2 in
              if (c2 <? locb) || (hicb <? c2) then (RuneError, 1)
              else if sz <=? 3 then
                (Z.lor (Z.lor (Z.shiftl (Z.land c0 mask3) 12)
                              (Z.shiftl (Z.land c1 maskx) 6))
                       (Z.land c2 maskx), 3)
              else
                match rest2 with
                | [] => (RuneError, 1)
                | b3 :: _ =>
                  let c3 := byteZ b3 in
                  if (c3 <? locb) || (hicb <? c3) then (RuneError, 1)
                  else
                    (Z.lor (Z.lor (Z.lor (Z.shiftl (Z.land c0 mask4) 18)
                                         (Z.shiftl (Z.land c1 maskx) 12))
                                  (Z.shiftl (Z.land c2 maskx) 6))
                           (Z.land c3 maskx), 4)
                end
            end
        end
  end.

(** The three-byte encoding, shared by the [RuneError] fall-through. *)
Definition encode3 (r : Z) : gostring :=
  [ byte_of_Z (Z.lor t3 (Z.shiftr r 12));
    byte_of_Z (Z.lor tx (Z.land (Z.shiftr r 6) maskx));
    byte_of_Z (Z.lor tx (Z.land r maskx)) ].

(** [utf8.AppendRune(nil, r)], which is what [string(r)] and the [%c] verb
    produce.  [uint32(r)] of a negative rune is above [MaxRune]. *)
Definition EncodeRune (r : Z) : gostring :=
  if (0 <=? r) && (r <=? rune1Max) then [byte_of_Z r]
  else if (0 <=? r) && (r <=? rune2Max) then
    [ byte_of_Z (Z.lor t2 (Z.shiftr r 6));
      byte_of_Z (Z.lor tx (Z.land r maskx)) ]
  else if (r <? 0) || (MaxRune <? r)
          || ((surrogateMin <=? r) && (r <=? surrogateMax)) then
    encode3 RuneError
  else if r <=? rune3Max then encode3 r
  else
    [ byte_of_Z (Z.lor t4 (Z.shiftr r 18));
      byte_of_Z (Z.lor tx (Z.land (Z.shiftr r 12) maskx));
      byte_of_Z (Z.lor tx (Z.land (Z.shiftr r 6) maskx));
      byte_of_Z (Z.lor tx (Z.land r maskx)) ].

End utf8.

(** [for j, r := range s]: the byte offset and the rune of every character
    of [s], in order.  [skip] counts the bytes of the current rune that are
    still to be passed over. *)
Fixpoint rangeFrom (s : gostring) (j : Z) (skip : nat) : list (Z * Z) :=
  match s with
  | [] => []
  | _ :: rest =>
    match skip with
    | S k => rangeFrom rest (j + 1) k
    | O =>
      let '(r, size) := utf8.DecodeRune s in
      (j, r) :: rangeFrom rest (j + 1) (Z.to_nat (size - 1))
    end
  end.

Definition rangeString (s : gostring) : list (Z * Z) := rangeFrom s 0 0.

(** ** regexp/syntax: patterns *)

Module syntax.

(** The operators of [regexp/syntax] that the patterns of this program can
    produce.  Concatenation and alternation are binary here; a character
    class keeps its negation flag next to its ranges. *)
Inductive Regexp : Type :=
| OpEmptyMatch
| OpLiteral (r : Z)
| OpCharClass (negated : bool) (ranges : list (Z * Z))
| OpAnyCharNotNL
| OpBeginText
| OpEndText
| OpCapture (cap : nat) (sub : Regexp)
| OpStar (sub : Regexp)
| OpPlus (sub : Regexp)
| OpQuest (sub : Regexp)
| OpRepeat (min : nat) (max : option nat) (sub : Regexp)
| OpConcat (a b : Regexp)
| OpAlternate (a b : Regexp).

(** The error codes of [regexp/syntax], and one more, [ErrNotModelled], for
    syntax that Go accepts and this model does not cover (flags, named
    groups, non-greedy operators, Perl and POSIX classes, numeric escapes).
    None of the patterns of the program runs into it. *)
Inductive ErrorCode : Type :=
| ErrInvalidCharRange
| ErrInvalidEscape
| ErrInvalidPerlOp
| ErrInvalidRepeatOp
| ErrInvalidRepeatSize
| ErrInvalidUTF8
| ErrMissingBracket
| ErrMissingParen
| ErrMissingRepeatArgument
| ErrTrailingBackslash
| ErrUnexpectedParen
| ErrNotModelled.

(** [syntax.Error]: the code and the offending fragment of the pattern.  The
    fragment is the one Go reports for [ErrInvalidPerlOp]; for the other
    codes it is the pattern or what is left of it. *)
Record Error : Type := mkError { Code : ErrorCode; Expr : gostring }.

(** The parse stack holds expressions and the two pseudo-operators. *)
Inductive item : Type :=
| IRe (re : Regexp)
| ILeftParen (cap : nat)
| IVerticalBar.

Fixpoint mkConcat (l : list Regexp) : Regexp :=
  match l with
  | [] => OpEmptyMatch
  | [r] => r
  | r :: rest => OpConcat r (mkConcat rest)
  end.

Fixpoint mkAlternate (first : Regexp) (others : list Regexp) : Regexp :=
  match others with
  | [] => first
  | r :: rest => OpAlternate first (mkAlternate r rest)
  end.

(** [p.concat()] followed by [p.alternate()]: everything above the nearest
    left parenthesis becomes one expression.  [cur] collects the current
    concatenation and [alts] the alternatives to its right, both already in
    pattern order. *)
Fixpoint collapse (stack : list item) (cur alts : list Regexp)
  : Regexp * list item :=
  match stack with
  | IRe re :: below => collapse below (re :: cur) alts
  | IVerticalBar :: below => collapse below [] (mkConcat cur :: alts)
  | ILeftParen _ :: _ | [] => (mkAlternate (mkConcat cur) alts, stack)
  end.

Definition isalnum (c : Z) : bool :=
  ((0x30 <=? c) && (c <=? 0x39)) || ((0x41 <=? c) && (c <=? 0x5A))
  || ((0x61 <=? c) && (c <=? 0x7A)).

Definition isdigit (b : byte) : bool :=
  (0x30 <=? byteZ b) && (byteZ b <=? 0x39).

(** [nextRune]: the pattern is decoded rune by rune. *)
Definition nextRune (t : gostring) : option (Z * gostring) :=
  let '(c, size) := utf8.DecodeRune t in
  if (c =? utf8.RuneError) && (size =? 1) then None
  else Some (c, skipn (Z.to_nat size) t).

(** [p.parseEscape], entered after the backslash. *)
Definition parseEscape (whole t : gostring) : Error + (Z * gostring) :=
  match t with
  | [] => inl (mkError ErrTrailingBackslash [])
  | _ :: _ =>
    match nextRune t with
    | None => inl (mkError ErrInvalidUTF8 whole)
    | Some (c, t') =>
      if c =? 0x61 then inr (7, t')            (* \a *)
      else if c =? 0x66 then inr (12, t')      (* \f *)
      else if c =? 0x6E then inr (10, t')      (* \n *)
      else if c =? 0x72 then inr (13, t')      (* \r *)
      else if c =? 0x74 then inr (9, t')       (* \t *)
      else if c =? 0x76 then inr (11, t')      (* \v *)
      else if ((0x30 <=? c) && (c <=? 0x37)) || (c =? 0x78)
      then inl (mkError ErrNotModelled whole)  (* octal, hex *)
      else if (c <? utf8.RuneSelf) && negb (isalnum c) then inr (c, t')
      else inl (mkError ErrInvalidEscape whole)
    end
  end.

(** [p.parseClassChar]. *)
Definition parseClassChar (whole t : gostring) : Error + (Z * gostring) :=
  match t with
  | [] => inl (mkError ErrMissingBracket whole)
  | x5c :: t' =>
    match t' with
    | b :: _ =>
      (* \d, \s, \w, \p and their negations inside a class *)
      if existsb (byte_eqb b) (bs "dDsSwWpP")
      then inl (mkError ErrNotModelled whole)
      else parseEscape whole t'
    | [] => parseEscape whole t'
    end
  | _ =>
    match nextRune t with
    | Some p => inr p
    | None => inl (mkError ErrInvalidUTF8 whole)
    end
  end.

(** The body of [p.parseClass] after the optional [^]: ranges up to the
    closing bracket.  A [']'] in first position is a literal.  Each round
    consumes at least one byte, which [fuel] bounds. *)
Fixpoint parseClassBody (fuel : nat) (whole t : gostring) (first : bool)
    (acc : list (Z * Z)) : Error + (list (Z * Z) * gostring) :=
  match fuel with
  | O => inl (mkError ErrMissingBracket whole)
  | S fuel' =>
    match t with
    | x5d :: t' =>
      if first then
        parseClassRange fuel' whole t acc
      else inr (rev acc, t')
    | x5b :: x3a :: _ => inl (mkError ErrNotModelled whole)  (* [:alpha:] *)
    | _ => parseClassRange fuel' whole t acc
    end
  end
with parseClassRange (fuel : nat) (whole t : gostring)
    (acc : list (Z * Z)) : Error + (list (Z * Z) * gostring) :=
  match fuel with
  | O => inl (mkError ErrMissingBracket whole)
  | S fuel' =>
    match parseClassChar whole t with
    | inl e => inl e
    | inr (lo, t1) =>
      match t1 with
      | x2d :: b :: _ =>
        if byte_eqb b x5d then parseClassBody fuel' whole t1 false ((lo, lo) :: acc)
        else
          match parseClassChar whole (tl t1) with
          | inl e => inl e
          | inr (hi, t2) =>
            if hi <? lo then inl (mkError ErrInvalidCharRange whole)
            else parseClassBody fuel' whole t2 false ((lo, hi) :: acc)
          end
      | _ => parseClassBody fuel' whole t1 false ((lo, lo) :: acc)
      end
    end
  end.

(** [p.parseClass], entered at the opening bracket. *)
Definition parseClass (t : gostring) : Error + (Regexp * gostring) :=
  match t with
  | x5b :: x5e :: t' =>
    match parseClassBody (2 * List.length t + 2) t t' true [] with
    | inl e => inl e
    | inr (ranges, rest) => inr (OpCharClass true ranges, rest)
    end
  | x5b :: t' =>
    match parseClassBody (2 * List.length t + 2) t t' true [] with
    | inl e => inl e
    | inr (ranges, rest) => inr (OpCharClass false ranges, rest)
    end
  | _ => inl (mkError ErrMissingBracket t)
  end.

(** [p.parseInt]: a decimal number without a superfluous leading zero. *)
Fixpoint digitsValue (t : gostring) (acc : nat) : nat * gostring :=
  match t with
  | b :: t' =>
    if isdigit b
    then digitsValue t' (10 * acc + Z.to_nat (byteZ b - 0x30))
    else (acc, t)
  | [] => (acc, t)
  end.

Definition parseInt (t : gostring) : option (nat * gostring) :=
  match t with
  | [] => None
  | b :: t' =>
    if negb (isdigit b) then None
    else
      match t with
      | x30 :: b2 :: _ =>
        if isdigit b2 then None else Some (digitsValue t 0)
      | _ => Some (digitsValue t 0)
      end
  end.

(** [p.parseRepeat], entered at the opening brace: [{n}], [{n,}] or
    [{n,m}].  [None] means that the brace is a literal. *)
Definition parseRepeat (t : gostring)
  : option (nat * option nat * gostring) :=
  match t with
  | [] => None
  | b0 :: t1 =>
    if negb (byte_eqb b0 x7b) then None
    else
      match parseInt t1 with
      | None => None
      | Some (min, t2) =>
        match t2 with
        | [] => None
        | c :: t3 =>
          if byte_eqb c x7d then Some (min, Some min, t3)
          else if byte_eqb c x2c then
            match t3 with
            | [] => None
            | d :: t4 =>
              if byte_eqb d x7d then Some (min, None, t4)
              else
                match parseInt t3 with
                | Some (max, e :: rest) =>
                  if byte_eqb e x7d then Some (min, Some max, rest) else None
                | _ => None
                end
            end
          else None
        end
      end
  end.

Fixpoint hasRepeat (re : Regexp) : bool :=
  match re with
  | OpRepeat _ _ _ => true
  | OpCapture _ sub | OpStar sub | OpPlus sub | OpQuest sub => hasRepeat sub
  | OpConcat a b | OpAlternate a b => hasRepeat a || hasRepeat b
  | _ => false
  end.

(** [p.repeat]: the operator applies to the expression on top of the stack.
    Stacked operators ([a**]) are an error in Perl mode; a following [?]
    would make the operator non-greedy. *)
Definition repeat (mk : Regexp -> Regexp) (stack : list item)
    (lastRepeat : bool) (before after : gostring)
  : Error + list item :=
  if lastRepeat then inl (mkError ErrInvalidRepeatOp before)
  else
    match after with
    | x3f :: _ => inl (mkError ErrNotModelled before)
    | _ =>
      match stack with
      | IRe sub :: below => inr (IRe (mk sub) :: below)
      | _ => inl (mkError ErrMissingRepeatArgument before)
      end
    end.

(** The main loop of [syntax.Parse] under the [Perl] flags ([OneLine], so
    [^] and [$] are the text anchors; no [DotNL], so [.] excludes the
    newline).  [whole] is the pattern, [t] what is left of it.  Every round
    consumes at least one byte. *)
Fixpoint parseLoop (fuel : nat) (whole t : gostring) (stack : list item)
    (numCap : nat) (lastRepeat : bool) : Error + Regexp :=
  match fuel with
  | O => inl (mkError ErrNotModelled whole)
  | S fuel' =>
    match t with
    | [] =>
      match collapse stack [] [] with
      | (re, []) => inr re
      | _ => inl (mkError ErrMissingParen whole)
      end
    | x28 :: x3f :: t2 =>                                   (* (? *)
      match t2 with
      | x3a :: t3 => parseLoop fuel' whole t3 (ILeftParen 0 :: stack) numCap false
      | c :: _ =>
        if existsb (byte_eqb c) (bs "imsU-)P<")
        then inl (mkError ErrNotModelled whole)
        else inl (mkError ErrInvalidPerlOp [x28; x3f; c])
      | [] => inl (mkError ErrNotModelled whole)
      end
    | x28 :: t1 =>                                          (* ( *)
      parseLoop fuel' whole t1 (ILeftParen (S numCap) :: stack) (S numCap) false
    | x7c :: t1 =>                                          (* | *)
      parseLoop fuel' whole t1 (IVerticalBar :: stack) numCap false
    | x29 :: t1 =>                                          (* ) *)
      match collapse stack [] [] with
      | (re, ILeftParen cap :: below) =>
        let re' := match cap with O => re | S _ => OpCapture cap re end in
        parseLoop fuel' whole t1 (IRe re' :: below) numCap false
      | _ => inl (mkError ErrUnexpectedParen whole)
      end
    | x5e :: t1 =>                                          (* ^ *)
      parseLoop fuel' whole t1 (IRe OpBeginText :: stack) numCap false
    | x24 :: t1 =>                                          (* $ *)
      parseLoop fuel' whole t1 (IRe OpEndText :: stack) numCap false
    | x2e :: t1 =>                                          (* . *)
      parseLoop fuel' whole t1 (IRe OpAnyCharNotNL :: stack) numCap false
    | x5b :: _ =>                                           (* [ *)
      match parseClass t with
      | inl e => inl e
      | inr (re, t1) => parseLoop fuel' whole t1 (IRe re :: stack) numCap false
      end
    | x2a :: t1 =>                                          (* * *)
      match repeat OpStar stack lastRepeat t t1 with
      | inl e => inl e
      | inr stack' => parseLoop fuel' whole t1 stack' numCap true
      end
    | x2b :: t1 =>                                          (* + *)
      match repeat OpPlus stack lastRepeat t t1 with
      | inl e => inl e
      | inr stack' => parseLoop fuel' whole t1 stack' numCap true
      end
    | x3f :: t1 =>                                          (* ? *)
      match repeat OpQuest stack lastRepeat t t1 with
      | inl e => inl e
      | inr stack' => parseLoop fuel' whole t1 stack' numCap true
      end
    | x7b :: t1 =>                                          (* { *)
      match parseRepeat t with
      | None => parseLoop fuel' whole t1 (IRe (OpLiteral 0x7B) :: stack) numCap false
      | Some (min, max, after) =>
        if (1000 <? min)%nat
           || match max with
              | Some m => (1000 <? m)%nat || (m <? min)%nat
              | None => false
              end
        then inl (mkError ErrInvalidRepeatSize t)
        else
          match stack with
          | IRe sub :: _ =>
            if hasRepeat sub then inl (mkError ErrNotModelled whole)
            else
              match repeat (OpRepeat min max) stack lastRepeat t after with
              | inl e => inl e
              | inr stack' => parseLoop fuel' whole after stack' numCap true
              end
          | _ =>
            match repeat (OpRepeat min max) stack lastRepeat t after with
            | inl e => inl e
            | inr stack' => parseLoop fuel' whole after stack' numCap true
            end
          end
      end
    | x5c :: t1 =>                                          (* \ *)
      match t1 with
      | c :: _ =>
        if existsb (byte_eqb c) (bs "AbBCQzpPdDsSwW")
        then inl (mkError ErrNotModelled whole)
        else
          match parseEscape whole t1 with
          | inl e => inl e
          | inr (r, t2) => parseLoop fuel' whole t2 (IRe (OpLiteral r) :: stack) numCap false
          end
      | [] => inl (mkError ErrTrailingBackslash [])
      end
    | _ =>
      match nextRune t with
      | None => inl (mkError ErrInvalidUTF8 whole)
      | Some (c, t1) => parseLoop fuel' whole t1 (IRe (OpLiteral c) :: stack) numCap false
      end
    end
  end.

(** [syntax.Parse(s, syntax.Perl)]. *)
Definition Parse (s : gostring) : Error + Regexp :=
  parseLoop (S (List.length s)) s s [] O false.

(** [re.MaxCap()]: the largest capture index. *)
Fixpoint MaxCap (re : Regexp) : nat :=
  match re with
  | OpCapture cap sub => Nat.max cap (MaxCap sub)
  | OpStar sub | OpPlus sub | OpQuest sub | OpRepeat _ _ sub => MaxCap sub
  | OpConcat a b | OpAlternate a b => Nat.max (MaxCap a) (MaxCap b)
  | _ => O
  end.

End syntax.

(** ** regexp: leftmost-first matching *)

(** Go's [regexp] returns, among the matches that start leftmost, the one a
    backtracking search would find first.  The matcher below is that
    backtracking search, in continuation-passing style.  A position is a
    byte offset into the text; the engine consumes the text rune by rune,
    as decoded by [utf8.DecodeRune] (an invalid byte is the rune
    [RuneError] of width one). *)

Module regexp.

Import syntax.

(** Capture registers: the most recent binding of an index comes first. *)
Definition caps : Type := list (nat * (Z * Z)).

Fixpoint getCap (i : nat) (c : caps) : option (Z * Z) :=
  match c with
  | [] => None
  | (j, v) :: rest => if Nat.eqb i j then Some v else getCap i rest
  end.

(** [i.step(pos)]: the rune at the head of the remaining text, its width
    and the text after it; [None] at the end of the text. *)
Definition step (s : gostring) : option (Z * Z * gostring) :=
  match s with
  | [] => None
  | _ :: _ =>
    let '(r, size) := utf8.DecodeRune s in
    Some (r, size, skipn (Z.to_nat size) s)
  end.

Definition inRanges (r : Z) (ranges : list (Z * Z)) : bool :=
  existsb (fun '(lo, hi) => (lo <=? r) && (r <=? hi)) ranges.

(** Whether a one-rune operator accepts the rune [r]. *)
Definition matchRune (re : Regexp) (r : Z) : bool :=
  match re with
  | OpLiteral c => r =? c
  | OpCharClass negated ranges => xorb negated (inRanges r ranges)
  | OpAnyCharNotNL => negb (r =? 10)
  | _ => false
  end.

Section Backtrack.

Variable X : Type.

(** A continuation receives the remaining text, the position reached and
    the capture registers. *)
Definition cont : Type := gostring -> Z -> caps -> option X.
Definition matcher : Type := gostring -> Z -> caps -> cont -> option X.

(** [x*], greedy: another round of [x] is preferred to leaving the loop,
    and a round that consumes nothing is not taken again.  [fuel] is the
    number of bytes left plus one. *)
Fixpoint starLoop (f : matcher) (fuel : nat) (s : gostring) (pos : Z)
    (c : caps) (k : cont) : option X :=
  match fuel with
  | O => k s pos c
  | S fuel' =>
    match f s pos c (fun s' pos' c' =>
                       if pos' =? pos then None
                       else starLoop f fuel' s' pos' c' k) with
    | Some x => Some x
    | None => k s pos c
    end
  end.

(** [n] mandatory rounds. *)
Fixpoint repN (f : matcher) (n : nat) (s : gostring) (pos : Z)
    (c : caps) (k : cont) : option X :=
  match n with
  | O => k s pos c
  | S n' => f s pos c (fun s' pos' c' => repN f n' s' pos' c' k)
  end.

(** Up to [m] optional rounds, greedy: [(x(x(x)?)?)?]. *)
Fixpoint repOpt (f : matcher) (m : nat) (s : gostring) (pos : Z)
    (c : caps) (k : cont) : option X :=
  match m with
  | O => k s pos c
  | S m' =>
    match f s pos c (fun s' pos' c' => repOpt f m' s' pos' c' k) with
    | Some x => Some x
    | None => k s pos c
    end
  end.

Fixpoint bt (re : Regexp) (s : gostring) (pos : Z) (c : caps) (k : cont)
  : option X :=
  match re with
  | OpEmptyMatch => k s pos c
  | OpLiteral _ | OpCharClass _ _ | OpAnyCharNotNL =>
    match step s with
    | Some (r, size, rest) =>
      if matchRune re r then k rest (pos + size) c else None
    | None => None
    end
  | OpBeginText => if pos =? 0 then k s pos c else None
  | OpEndText => match s with [] => k s pos c | _ :: _ => None end
  | OpCapture i sub =>
    bt sub s pos c (fun s' pos' c' => k s' pos' ((i, (pos, pos')) :: c'))
  | OpStar sub => starLoop (bt sub) (S (List.length s)) s pos c k
  | OpPlus sub =>
    bt sub s pos c
       (fun s' pos' c' => starLoop (bt sub) (S (List.length s')) s' pos' c' k)
  | OpQuest sub => repOpt (bt sub) 1 s pos c k
  | OpRepeat min max sub =>
    repN (bt sub) min s pos c
         (fun s' pos' c' =>
            match max with
            | None => starLoop (bt sub) (S (List.length s')) s' pos' c' k
            | Some m => repOpt (bt sub) (m - min) s' pos' c' k
            end)
  | OpConcat a b => bt a s pos c (fun s' pos' c' => bt b s' pos' c' k)
  | OpAlternate a b =>
    match bt a s pos c k with
    | Some x => Some x
    | None => bt b s pos c k
    end
  end.

End Backtrack.

Arguments starLoop {X}.
Arguments repN {X}.
Arguments repOpt {X}.
Arguments bt {X}.

(** A compiled expression. *)
Record Regexp : Type := mkRegexp { expr : syntax.Regexp; numSubexp : nat }.

(** [regexp.Compile]. *)
Definition Compile (pattern : gostring) : syntax.Error + Regexp :=
  match Parse pattern with
  | inl e => inl e
  | inr re => inr (mkRegexp re (MaxCap re))
  end.

(** A match anchored at [pos]: its end and its captures. *)
Definition matchAt (re : Regexp) (s : gostring) (pos : Z)
  : option (Z * caps) :=
  bt (expr re) s pos [] (fun _ e c => Some (e, c)).

(** The unanchored search: [s] is the text from [pos] on; start positions
    are tried from left to right, one per rune. *)
Fixpoint search (re : Regexp) (s : gostring) (pos : Z) (skip : nat)
  : option (Z * Z * caps) :=
  match skip with
  | S k =>
    match s with
    | [] => None
    | _ :: rest => search re rest (pos + 1) k
    end
  | O =>
    match matchAt re s pos with
    | Some (e, c) => Some (pos, e, c)
    | None =>
      match s with
      | [] => None
      | _ :: rest =>
        search re rest (pos + 1) (Z.to_nat (snd (utf8.DecodeRune s) - 1))
      end
    end
  end.

(** The [[]int] of a match: the bounds of the whole match, then those of
    each subexpression, [-1] where it did not take part. *)
Definition indices (re : Regexp) (m : Z * Z * caps) : list Z :=
  let '(b, e, c) := m in
  b :: e :: flat_map (fun i => match getCap i c with
                               | Some (lo, hi) => [lo; hi]
                               | None => [-1; -1]
                               end) (seq 1 (numSubexp re)).

(** [re.doExecute] from [pos] on the text [s]. *)
Definition doExecute (re : Regexp) (s : gostring) (pos : Z)
  : option (list Z) :=
  option_map (indices re) (search re (skipn (Z.to_nat pos) s) pos 0).

(** [re.FindStringIndex(s)]: the bounds of the leftmost match, [None] for
    [nil]. *)
Definition FindStringIndex (re : Regexp) (s : gostring) : option (list Z) :=
  option_map (firstn 2) (doExecute re s 0).

(** [re.MatchString(s)]. *)
Definition MatchString (re : Regexp) (s : gostring) : bool :=
  match doExecute re s 0 with Some _ => true | None => false end.

(** The loop of [re.allMatches]: successive non-overlapping matches.  An
    empty match right after the previous match is dropped, and the search
    moves on by one rune after an empty match. *)
Fixpoint allMatches (re : Regexp) (s : gostring) (fuel : nat)
    (pos prevMatchEnd : Z) : list (list Z) :=
  match fuel with
  | O => []
  | S fuel' =>
    if len s <? pos then []
    else
      match doExecute re s pos with
      | None => []
      | Some m =>
        let m0 := nth 0 m 0 in
        let m1 := nth 1 m 0 in
        if m1 =? pos then
          let width := snd (utf8.DecodeRune (skipn (Z.to_nat pos) s)) in
          let pos' := if 0 <? width then pos + width else len s + 1 in
          if m0 =? prevMatchEnd
          then allMatches re s fuel' pos' m1
          else m :: allMatches re s fuel' pos' m1
        else m :: allMatches re s fuel' m1 m1
      end
  end.

(** [re.FindAllStringSubmatchIndex(s, -1)]. *)
Definition FindAllStringSubmatchIndex (re : Regexp) (s : gostring)
  : list (list Z) :=
  allMatches re s (List.length s + 2) 0 (-1).

End regexp.

(** ** Run-time panics *)

(** What the program can panic with: [regexp.MustCompile] on a pattern that
    does not parse, an index out of range, slice bounds out of range. *)
Inductive panic : Type :=
| PanicRegexpCompile (pattern : gostring) (err : syntax.Error)
| PanicIndexOutOfRange (index length : Z)
| PanicSliceBounds (lo hi length : Z).

Inductive result (A : Type) : Type :=
| Ok (a : A)
| Panic (p : panic).

Arguments Ok {A} a.
Arguments Panic {A} p.

Definition bind {A B : Type} (c : result A) (k : A -> result B) : result B :=
  match c with
  | Ok a => k a
  | Panic p => Panic p
  end.

Notation "x <- c ;; k" := (bind c (fun x => k))
  (at level 61, c at next level, right associativity).

(** [regexp.MustCompile]. *)
Definition MustCompile (pattern : gostring) : result regexp.Regexp :=
  match regexp.Compile pattern with
  | inr re => Ok re
  | inl e => Panic (PanicRegexpCompile pattern e)
  end.

(** [l[i]]. *)
Definition index {A : Type} (l : list A) (i : Z) : result A :=
  if i <? 0 then Panic (PanicIndexOutOfRange i (len l))
  else
    match nth_error l (Z.to_nat i) with
    | Some a => Ok a
    | None => Panic (PanicIndexOutOfRange i (len l))
    end.

(** [l[lo:hi]]. *)
Definition slice {A : Type} (l : list A) (lo hi : Z) : result (list A) :=
  if (lo <? 0) || (hi <? lo) || (len l <? hi)
  then Panic (PanicSliceBounds lo hi (len l))
  else Ok (firstn (Z.to_nat (hi - lo)) (skipn (Z.to_nat lo) l)).

(** [l[lo:]]. *)
Definition sliceFrom {A : Type} (l : list A) (lo : Z) : result (list A) :=
  slice l lo (len l).

(** [l[:hi]]. *)
Definition sliceTo {A : Type} (l : list A) (hi : Z) : result (list A) :=
  slice l 0 hi.

(** ** bytes, fmt, strconv, bufio *)

(** [bytes.Split(content, []byte{sep})]: the pieces between the separators,
    one more than there are separators. *)
Fixpoint splitAcc (sep : byte) (s : gostring) (cur : gostring)
  : list gostring :=
  match s with
  | [] => [rev cur]
  | b :: rest =>
    if byte_eqb b sep then rev cur :: splitAcc sep rest []
    else splitAcc sep rest (b :: cur)
  end.

Definition Split (s : gostring) (sep : byte) : list gostring :=
  splitAcc sep s [].

(** The digits of a non-negative number in a base up to sixteen, upper
    case, most significant first. *)
Definition digit (d : Z) : byte :=
  nth (Z.to_nat d) (bs "0123456789ABCDEF") x30.

Fixpoint digits (fuel : nat) (base n : Z) (acc : gostring) : gostring :=
  match fuel with
  | O => acc
  | S fuel' =>
    let acc' := digit (n mod base) :: acc in
    if n / base =? 0 then acc' else digits fuel' base (n / base) acc'
  end.

Definition formatInt (base n : Z) : gostring :=
  if n <? 0 then x2d :: digits 64 base (- n) [] else digits 64 base n [].

(** [strconv.Itoa]. *)
Definition Itoa (n : Z) : gostring := formatInt 10 n.

(** The verb [%02X]: upper-case hexadecimal, padded with zeros to two
    characters. *)
Definition fmt02X (n : Z) : gostring :=
  let d := formatInt 16 n in
  if len d <? 2 then x30 :: d else d.

(** [bufio.MaxScanTokenSize]: a line that does not fit into the scanner's
    buffer ends the scan. *)
Definition MaxScanTokenSize : Z := 64 * 1024.

(** [dropCR] of [bufio.ScanLines]. *)
Definition dropCR (data : gostring) : gostring :=
  match rev data with
  | x0d :: before => rev before
  | _ => data
  end.

Fixpoint scanPieces (pieces : list gostring) : list gostring :=
  match pieces with
  | [] => []
  | [last] =>
    (* what follows the last newline is a line only if it is not empty *)
    match last with
    | [] => []
    | _ :: _ => if len last <? MaxScanTokenSize then [dropCR last] else []
    end
  | piece :: rest =>
    if len piece <? MaxScanTokenSize then dropCR piece :: scanPieces rest
    else []
  end.

(** The texts that successive calls of [scanner.Scan()] yield on a
    [bufio.Scanner] over [content] with the default split function
    [ScanLines]. *)
Definition scanLines (content : gostring) : list gostring :=
  scanPieces (Split content newline).

(** ** The program's data *)

(** [ValidationError]: a single XML validation issue. *)
Record ValidationError : Type := mkValidationError {
  LineNumber : Z;
  Column : Z;
  Line : gostring;
  ErrorType : gostring;
  Message : gostring;
  Content : gostring   (* for highlighting purposes *)
}.

(** ** encoding/xml, as far as [validateBasicXML] looks at it *)

(** The error of a call of [decoder.Token()]: [io.EOF], an
    [*xml.SyntaxError], or some other error. *)
Inductive xmlError : Type :=
| EOF
| SyntaxError (Msg : gostring) (Line : Z)
| OtherError (msg : gostring).

(** [err.Error()]. *)
Definition Error_ (e : xmlError) : gostring :=
  match e with
  | EOF => bs "EOF"
  | SyntaxError Msg Line =>
    bs "XML syntax error on line " ++ Itoa Line ++ bs ": " ++ Msg
  | OtherError msg => msg
  end.

(** The tokens themselves are not inspected; only whether one is [nil]. *)
Inductive Token : Type :=
| StartElement (name : gostring)
| EndElement (name : gostring)
| CharData (data : gostring)
| Comment (data : gostring)
| ProcInst (target : gostring)
| Directive (data : gostring).

Definition tokenResult : Type := (option Token * option xmlError)%type.

(** ** findErrorPosition *)

(** The first loop of [findErrorPosition]: lines and columns up to the
    offset.  The guard before it makes [content[i]] an index in range. *)
Fixpoint countPosition (prefix : gostring) (line col : Z) : Z * Z :=
  match prefix with
  | [] => (line, col)
  | b :: rest =>
    if byte_eqb b newline then countPosition rest (line + 1) 1
    else countPosition rest line (col + 1)
  end.

(** The second loop: the text of line [line] according to the scanner. *)
Fixpoint scanToLine (tokens : list gostring) (currentLine line : Z)
  : gostring :=
  match tokens with
  | [] => []
  | text :: rest =>
    if currentLine =? line then text
    else scanToLine rest (currentLine + 1) line
  end.

(** [findErrorPosition] converts a byte offset to line/column. *)
Definition findErrorPosition (content : gostring) (offset : Z)
  : Z * Z * gostring :=
  let line := 1 in
  let col := 1 in
  if (offset <? 0) || (offset >=? len content) then (line, col, [])
  else
    let '(line, col) :=
      countPosition (firstn (Z.to_nat offset) content) line col in
    let lineContent := scanToLine (scanLines content) 1 line in
    (line, col, lineContent).

(** ** The checkers *)

(** The five checkers read the same in both entry points.  They look at
    nothing of the options but [opts.MaxErrors], so they are written once,
    over any options type with that field.  [xmlTokens content] stands for
    [encoding/xml]: the results of the successive calls of
    [decoder.Token()] on a decoder over [content]. *)

Section Checkers.

Variable xmlTokens : gostring -> list tokenResult.
Variable ValidationOptions : Type.
Variable MaxErrors : ValidationOptions -> Z.

(** The loop of [validateBasicXML] over the results of [decoder.Token()]. *)
Fixpoint basicLoop (content : gostring) (results : list tokenResult)
    (errors : list ValidationError) : list ValidationError :=
  match results with
  | [] => errors
  | (token, err) :: rest =>
    match err with
    | Some EOF => errors
    | Some (SyntaxError _ syntaxErrLine as e) =>
      (* try to extract error location *)
      let '(line, col, lineContent) :=
        findErrorPosition content syntaxErrLine in
      errors ++ [ {| LineNumber := line;
                     Column := col;
                     Line := lineContent;
                     ErrorType := bs "Basic XML Syntax Error";
                     Message := Error_ e;
                     Content := [] |} ]    (* stop at first error *)
    | Some e =>
      (* generic error without position info *)
      errors ++ [ {| LineNumber := 0;
                     Column := 0;
                     Line := [];
                     ErrorType := bs "XML Error";
                     Message := Error_ e;
                     Content := [] |} ]
    | None =>
      match token with
      | None => errors
      | Some _ => basicLoop content rest errors
      end
    end
  end.

(** [validateBasicXML] uses Go's XML parser to check well-formedness. *)
Definition validateBasicXML (content : gostring) : list ValidationError :=
  basicLoop content (xmlTokens content) [].

(** The loop that the four line-oriented checkers share:
    [for i, line := range lines { body; if opts.MaxErrors > 0 &&
    len(errors) >= opts.MaxErrors { break } }]. *)
Fixpoint forLines
    (body : Z -> gostring -> list ValidationError
            -> result (list ValidationError))
    (opts : ValidationOptions) (lines : list gostring) (i : Z)
    (errors : list ValidationError) : result (list ValidationError) :=
  match lines with
  | [] => Ok errors
  | line :: rest =>
    errors' <- body i line errors ;;
    if (MaxErrors opts >? 0) && (len errors' >=? MaxErrors opts)
    then Ok errors'
    else forLines body opts rest (i + 1) errors'
  end.

(** [for _, match := range matches { body }]. *)
Fixpoint forMatches
    (body : list Z -> list ValidationError -> result (list ValidationError))
    (matches : list (list Z)) (errors : list ValidationError)
  : result (list ValidationError) :=
  match matches with
  | [] => Ok errors
  | m :: rest =>
    errors' <- body m errors ;;
    forMatches body rest errors'
  end.

(** *** validateCDATASections *)

Definition patCDATAWithSpecialChar : gostring := bs "<!\[CDATA\[[^a-zA-Z0-9 ]".
Definition patCDATAWithExclamation : gostring := bs "<!\[CDATA\[!".
Definition patUnclosedCDATA : gostring := bs "<!\[CDATA\[(?:(?!\]\]>).)*$".
Definition patNestedCDATA : gostring := bs "<!\[CDATA\[.*<!\[CDATA\[".
Definition patMultiClosingCDATA : gostring := bs "<!\[CDATA\[.*\]\]>.*\]\]>".
Definition patEmptyCDATA : gostring := bs "<!\[CDATA\[\]\]>".

(** 1. Check for special characters after CDATA opening. *)
Definition cdataSpecialChar (re : regexp.Regexp) (i : Z) (lineStr : gostring)
    (errors : list ValidationError) : result (list ValidationError) :=
  match regexp.FindStringIndex re lineStr with
  | Some matches =>
    m0 <- index matches 0 ;;
    badChar <- index lineStr (m0 + 9) ;;   (* character after <![CDATA[ *)
    Ok (errors ++
        [ {| LineNumber := i + 1;
             Column := m0 + 9;
             Line := lineStr;
             ErrorType := bs "Special character after CDATA opening";
             Message := bs "Special character '"
                        ++ utf8.EncodeRune (byteZ badChar)
                        ++ bs "' found immediately after CDATA opening";
             Content := bs "<![CDATA[" ++ utf8.EncodeRune (byteZ badChar) |} ])
  | None => Ok errors
  end.

(** 2. Check specifically for exclamation marks (common in WP exports). *)
Definition cdataExclamation (re : regexp.Regexp) (i : Z) (lineStr : gostring)
    (errors : list ValidationError) : result (list ValidationError) :=
  match regexp.FindStringIndex re lineStr with
  | Some matches =>
    m0 <- index matches 0 ;;
    Ok (errors ++
        [ {| LineNumber := i + 1;
             Column := m0 + 9;
             Line := lineStr;
             ErrorType := bs "Exclamation mark after CDATA opening";
             Message := bs "Exclamation mark found immediately after CDATA opening";
             Content := bs "<![CDATA[!" |} ])
  | None => Ok errors
  end.

(** 3. Check for unclosed CDATA sections. *)
Definition cdataUnclosed (re : regexp.Regexp) (i : Z) (lineStr : gostring)
    (errors : list ValidationError) : result (list ValidationError) :=
  match regexp.FindStringIndex re lineStr with
  | Some matches =>
    m0 <- index matches 0 ;;
    content <- sliceFrom lineStr m0 ;;
    Ok (errors ++
        [ {| LineNumber := i + 1;
             Column := m0;
             Line := lineStr;
             ErrorType := bs "Unclosed CDATA section";
             Message := bs "CDATA section is not properly closed with ]]>";
             Content := content |} ])
  | None => Ok errors
  end.

(** 4. and 5. Nested CDATA sections and multiple closing sequences: the
    two rules differ in their pattern and their texts only. *)
Definition cdataSpan (re : regexp.Regexp) (errorType message : gostring)
    (i : Z) (lineStr : gostring)
    (errors : list ValidationError) : result (list ValidationError) :=
  match regexp.FindStringIndex re lineStr with
  | Some matches =>
    m0 <- index matches 0 ;;
    m1 <- index matches 1 ;;
    content <- slice lineStr m0 m1 ;;
    Ok (errors ++
        [ {| LineNumber := i + 1;
             Column := m0;
             Line := lineStr;
             ErrorType := errorType;
             Message := message;
             Content := content |} ])
  | None => Ok errors
  end.

(** 6. Check for empty CDATA sections. *)
Definition cdataEmpty (re : regexp.Regexp) (i : Z) (lineStr : gostring)
    (errors : list ValidationError) : result (list ValidationError) :=
  match regexp.FindStringIndex re lineStr with
  | Some matches =>
    m0 <- index matches 0 ;;
    Ok (errors ++
        [ {| LineNumber := i + 1;
             Column := m0;
             Line := lineStr;
             ErrorType := bs "Empty CDATA section";
             Message := bs "CDATA section is empty";
             Content := bs "<![CDATA[]]>" |} ])
  | None => Ok errors
  end.

(** The body of the loop of [validateCDATASections], given the six
    compiled patterns. *)
Definition cdataLine
    (reCDATAWithSpecialChar reCDATAWithExclamation reUnclosedCDATA
     reNestedCDATA reMultiClosingCDATA reEmptyCDATA : regexp.Regexp)
    (i : Z) (lineStr : gostring) (errors : list ValidationError)
  : result (list ValidationError) :=
  errors <- cdataSpecialChar reCDATAWithSpecialChar i lineStr errors ;;
  errors <- cdataExclamation reCDATAWithExclamation i lineStr errors ;;
  errors <- cdataUnclosed reUnclosedCDATA i lineStr errors ;;
  errors <- cdataSpan reNestedCDATA (bs "Nested CDATA sections")
              (bs "CDATA sections cannot be nested") i lineStr errors ;;
  errors <- cdataSpan reMultiClosingCDATA
              (bs "Multiple CDATA closing sequences")
              (bs "Found multiple ']]>' sequences in a single CDATA block")
              i lineStr errors ;;
  cdataEmpty reEmptyCDATA i lineStr errors.

(** [validateCDATASections] checks for various CDATA section issues.  The
    six patterns are compiled, in this order, before the first line is
    looked at. *)
Definition validateCDATASections (content : gostring)
    (opts : ValidationOptions) : result (list ValidationError) :=
  let lines := Split content newline in
  reCDATAWithSpecialChar <- MustCompile patCDATAWithSpecialChar ;;
  reCDATAWithExclamation <- MustCompile patCDATAWithExclamation ;;
  reUnclosedCDATA <- MustCompile patUnclosedCDATA ;;
  reNestedCDATA <- MustCompile patNestedCDATA ;;
  reMultiClosingCDATA <- MustCompile patMultiClosingCDATA ;;
  reEmptyCDATA <- MustCompile patEmptyCDATA ;;
  forLines (cdataLine reCDATAWithSpecialChar reCDATAWithExclamation
                      reUnclosedCDATA reNestedCDATA reMultiClosingCDATA
                      reEmptyCDATA)
           opts lines 0 [].

(** *** validateControlCharacters *)

(** [r < 32 && r != '\t' && r != '\r' && r != '\n'] *)
Definition isControl (r : Z) : bool :=
  (r <? 32) && negb (r =? 9) && negb (r =? 13) && negb (r =? 10).

(** The inner loop over the runes of a line: the first control character
    is reported and ends the loop. *)
Fixpoint controlScan (runes : list (Z * Z)) (i : Z) (lineStr : gostring)
    (errors : list ValidationError) : list ValidationError :=
  match runes with
  | [] => errors
  | (j, r) :: rest =>
    if isControl r then
      errors ++
      [ {| LineNumber := i + 1;
           Column := j + 1;
           Line := lineStr;
           ErrorType := bs "Control character";
           Message := bs "Control character (hex 0x" ++ fmt02X r
                      ++ bs ") found";
           Content := utf8.EncodeRune r |} ]
    else controlScan rest i lineStr errors
  end.

Definition controlLine (i : Z) (lineStr : gostring)
    (errors : list ValidationError) : result (list ValidationError) :=
  Ok (controlScan (rangeString lineStr) i lineStr errors).

(** [validateControlCharacters] checks for control characters in XML. *)
Definition validateControlCharacters (content : gostring)
    (opts : ValidationOptions) : result (list ValidationError) :=
  let lines := Split content newline in
  forLines controlLine opts lines 0 [].

(** *** validateHexColors *)

(** Valid hex colors: #RGB, #RRGGBB, #RRGGBBAA.
    Invalid: #R, #RG, #RGBG, #RRGGB, anything with more than 8 chars. *)
Definition patInvalidHex : gostring :=
  bs "#[0-9a-fA-F]{1,2}([^0-9a-fA-F]|$)|#[0-9a-fA-F]{4,5}([^0-9a-fA-F]|$)|#[0-9a-fA-F]{7,}".

Definition hexMatch (i : Z) (lineStr : gostring) (m : list Z)
    (errors : list ValidationError) : result (list ValidationError) :=
  (* extract the hex code - careful to get just the hex part *)
  hexStart <- index m 0 ;;
  hexEnd <- index m 1 ;;
  m2 <- index m 2 ;;
  (* if there is a character after the hex, do not include it *)
  let hexEnd := if negb (m2 =? -1) then m2 else hexEnd in
  hexCode <- slice lineStr hexStart hexEnd ;;
  Ok (errors ++
      [ {| LineNumber := i + 1;
           Column := hexStart + 1;
           Line := lineStr;
           ErrorType := bs "Invalid hex color";
           Message := bs "Invalid hex color code: " ++ hexCode
                      ++ bs " (should be #RGB, #RRGGBB, or #RRGGBBAA)";
           Content := hexCode |} ]).

Definition hexLine (reInvalidHex : regexp.Regexp) (i : Z)
    (lineStr : gostring) (errors : list ValidationError)
  : result (list ValidationError) :=
  (* find all invalid hex colors on this line *)
  let matches := regexp.FindAllStringSubmatchIndex reInvalidHex lineStr in
  forMatches (hexMatch i lineStr) matches errors.

(** [validateHexColors] checks for malformed hex color codes. *)
Definition validateHexColors (content : gostring)
    (opts : ValidationOptions) : result (list ValidationError) :=
  let lines := Split content newline in
  reInvalidHex <- MustCompile patInvalidHex ;;
  forLines (hexLine reInvalidHex) opts lines 0 [].

(** *** validateSVG *)

(** Pattern for SVG elements that should be self-closing. *)
Definition patSVGSelfClosing : gostring :=
  bs "<(path|rect|circle|ellipse|line|polyline|polygon|image|use)[^>]*[^/]>".

Definition patSVGUnquotedAttr : gostring :=
  bs "<svg[^>]*(width|height|viewBox)=([^" ++ dquote ++ bs "'][^ >]*)".

Definition svgSelfClosingMatch (i : Z) (lineStr : gostring) (m : list Z)
    (errors : list ValidationError) : result (list ValidationError) :=
  (* make sure this is not followed by a closing tag on the same line *)
  m2 <- index m 2 ;;
  m3 <- index m 3 ;;
  tagName <- slice lineStr m2 m3 ;;
  reClose <- MustCompile (bs "</" ++ tagName ++ bs ">") ;;
  m1 <- index m 1 ;;
  after <- sliceFrom lineStr m1 ;;
  if negb (regexp.MatchString reClose after) then
    m0 <- index m 0 ;;
    content <- slice lineStr m0 m1 ;;
    Ok (errors ++
        [ {| LineNumber := i + 1;
             Column := m0 + 1;
             Line := lineStr;
             ErrorType := bs "SVG self-closing tag issue";
             Message := bs "SVG <" ++ tagName
                        ++ bs "> tag should be self-closing with />";
             Content := content |} ])
  else Ok errors.

Definition svgUnquotedAttrMatch (i : Z) (lineStr : gostring) (m : list Z)
    (errors : list ValidationError) : result (list ValidationError) :=
  m2 <- index m 2 ;;
  m3 <- index m 3 ;;
  attrName <- slice lineStr m2 m3 ;;
  m4 <- index m 4 ;;
  m5 <- index m 5 ;;
  attrValue <- slice lineStr m4 m5 ;;
  Ok (errors ++
      [ {| LineNumber := i + 1;
           Column := m2 + 1;
           Line := lineStr;
           ErrorType := bs "SVG unquoted attribute";
           Message := bs "SVG attribute " ++ attrName ++ bs "=" ++ attrValue
                      ++ bs " should use quotes: " ++ attrName ++ bs "="
                      ++ dquote ++ attrValue ++ dquote;
           Content := attrName ++ bs "=" ++ attrValue |} ]).

Definition svgLine (reSVGSelfClosing reSVGUnquotedAttr : regexp.Regexp)
    (i : Z) (lineStr : gostring) (errors : list ValidationError)
  : result (list ValidationError) :=
  (* check for SVG elements that should be self-closing *)
  let matches := regexp.FindAllStringSubmatchIndex reSVGSelfClosing lineStr in
  errors <- forMatches (svgSelfClosingMatch i lineStr) matches errors ;;
  (* check for unquoted SVG attributes *)
  let matches := regexp.FindAllStringSubmatchIndex reSVGUnquotedAttr lineStr in
  forMatches (svgUnquotedAttrMatch i lineStr) matches errors.

(** [validateSVG] checks for SVG syntax issues in XML. *)
Definition validateSVG (content : gostring)
    (opts : ValidationOptions) : result (list ValidationError) :=
  let lines := Split content newline in
  reSVGSelfClosing <- MustCompile patSVGSelfClosing ;;
  reSVGUnquotedAttr <- MustCompile patSVGUnquotedAttr ;;
  forLines (svgLine reSVGSelfClosing reSVGUnquotedAttr) opts lines 0 [].

End Checkers.

Arguments validateCDATASections {ValidationOptions} MaxErrors content opts.
Arguments validateControlCharacters {ValidationOptions} MaxErrors content opts.
Arguments validateHexColors {ValidationOptions} MaxErrors content opts.
Arguments validateSVG {ValidationOptions} MaxErrors content opts.
Arguments forLines {ValidationOptions} MaxErrors body opts lines i errors.

(** ** Standard output *)

(** [validateXML] prints its progress.  A computation yields the lines it has printed and either a value or a
    panic; what was printed before a panic stays printed. *)
Definition IO (A : Type) : Type := (list gostring * result A)%type.

Definition ret {A : Type} (a : A) : IO A := ([], Ok a).

Definition bindIO {A B : Type} (c : IO A) (k : A -> IO B) : IO B :=
  match c with
  | (out, Ok a) => let '(out', r) := k a in (out ++ out', r)
  | (out, Panic p) => (out, Panic p)
  end.

Notation "x <~ c ;; k" := (bindIO c (fun x => k))
  (at level 61, c at next level, right associativity).

(** [fmt.Println(s)]. *)
Definition Println (s : gostring) : IO unit := ([s ++ [newline]], Ok tt).

(** A computation that prints nothing. *)
Definition run {A : Type} (r : result A) : IO A := ([], r).

Definition outcome {A : Type} (c : IO A) : result A := snd c.

(** ** The plain entry point (main.go) *)

Module Plain.

(** Global validation options. *)
Record ValidationOptions : Type := mkOptions {
  MaxErrors : Z;
  Debug : bool
}.

Section Pipeline.

Variable xmlTokens : gostring -> list tokenResult.

(** The body of [validateXML] with the four secondary checkers as
    arguments, so that a spy can stand for each of them. *)
Section With.

Variables checkCDATASections checkControlCharacters checkHexColors checkSVG
  : gostring -> ValidationOptions -> IO (list ValidationError).

(** [// Limit errors if needed] *)
Definition limit (opts : ValidationOptions)
    (allErrors : list ValidationError) : IO (list ValidationError) :=
  if (MaxErrors opts >? 0) && (len allErrors >? MaxErrors opts)
  then run (sliceTo allErrors (MaxErrors opts))
  else ret allErrors.

Definition validateXMLWith (content : gostring) (opts : ValidationOptions)
  : IO (list ValidationError) :=
  let allErrors := [] in
  (* 1. first use Go's XML parser for basic well-formedness *)
  let basicErrors := validateBasicXML xmlTokens content in
  let allErrors := allErrors ++ basicErrors in
  if (len allErrors >=? MaxErrors opts) && (MaxErrors opts >? 0)
  then run (sliceTo allErrors (MaxErrors opts))
  else
    (* if there are no basic XML errors, run additional checks *)
    if len basicErrors =? 0 then
      _ <~ Println (bs "Basic XML validation passed. Performing additional checks...") ;;
      (* 2. check CDATA sections *)
      _ <~ Println (bs "Checking CDATA sections...") ;;
      cdataErrors <~ checkCDATASections content opts ;;
      let allErrors := allErrors ++ cdataErrors in
      if (len allErrors >=? MaxErrors opts) && (MaxErrors opts >? 0)
      then run (sliceTo allErrors (MaxErrors opts))
      else
        (* 3. check for control characters *)
        _ <~ Println (bs "Checking for control characters...") ;;
        controlErrors <~ checkControlCharacters content opts ;;
        let allErrors := allErrors ++ controlErrors in
        if (len allErrors >=? MaxErrors opts) && (MaxErrors opts >? 0)
        then run (sliceTo allErrors (MaxErrors opts))
        else
          (* 4. check hex color codes *)
          _ <~ Println (bs "Checking hex color codes...") ;;
          hexErrors <~ checkHexColors content opts ;;
          let allErrors := allErrors ++ hexErrors in
          if (len allErrors >=? MaxErrors opts) && (MaxErrors opts >? 0)
          then run (sliceTo allErrors (MaxErrors opts))
          else
            (* 5. check SVG syntax *)
            _ <~ Println (bs "Checking SVG syntax...") ;;
            svgErrors <~ checkSVG content opts ;;
            let allErrors := allErrors ++ svgErrors in
            limit opts allErrors
    else limit opts allErrors.

End With.

(** [validateXML] performs all validation checks on the XML content. *)
Definition validateXML (content : gostring) (opts : ValidationOptions)
  : IO (list ValidationError) :=
  validateXMLWith
    (fun content opts => run (validateCDATASections MaxErrors content opts))
    (fun content opts => run (validateControlCharacters MaxErrors content opts))
    (fun content opts => run (validateHexColors MaxErrors content opts))
    (fun content opts => run (validateSVG MaxErrors content opts))
    content opts.

End Pipeline.

End Plain.

(** ** The coloured entry point *)

Module Colored.

(** Global validation options. *)
Record ValidationOptions : Type := mkOptions {
  MaxErrors : Z;
  Debug : bool;
  Color : bool   (* whether to use colored output *)
}.

Section Pipeline.

Variable xmlTokens : gostring -> list tokenResult.

(** The colour functions, [color.New(...).SprintFunc()] of the package
    [github.com/fatih/color]. *)
Variables successColor infoColor : gostring -> gostring.

Section With.

Variables checkCDATASections checkControlCharacters checkHexColors checkSVG
  : gostring -> ValidationOptions -> IO (list ValidationError).

(** [// Limit errors if needed] *)
Definition limit (opts : ValidationOptions)
    (allErrors : list ValidationError) : IO (list ValidationError) :=
  if (MaxErrors opts >? 0) && (len allErrors >? MaxErrors opts)
  then run (sliceTo allErrors (MaxErrors opts))
  else ret allErrors.

Definition validateXMLWith (content : gostring) (opts : ValidationOptions)
  : IO (list ValidationError) :=
  let allErrors := [] in
  (* 1. first use Go's XML parser for basic well-formedness *)
  let basicErrors := validateBasicXML xmlTokens content in
  let allErrors := allErrors ++ basicErrors in
  if (len allErrors >=? MaxErrors opts) && (MaxErrors opts >? 0)
  then run (sliceTo allErrors (MaxErrors opts))
  else
    (* if there are no basic XML errors, run additional checks *)
    if len basicErrors =? 0 then
      _ <~ Println (successColor (bs "Basic XML validation passed. Performing additional checks...")) ;;
      (* 2. check CDATA sections *)
      _ <~ Println (infoColor (bs "Checking CDATA sections...")) ;;
      cdataErrors <~ checkCDATASections content opts ;;
      let allErrors := allErrors ++ cdataErrors in
      if (len allErrors >=? MaxErrors opts) && (MaxErrors opts >? 0)
      then run (sliceTo allErrors (MaxErrors opts))
      else
        (* 3. check for control characters *)
        _ <~ Println (infoColor (bs "Checking for control characters...")) ;;
        controlErrors <~ checkControlCharacters content opts ;;
        let allErrors := allErrors ++ controlErrors in
        if (len allErrors >=? MaxErrors opts) && (MaxErrors opts >? 0)
        then run (sliceTo allErrors (MaxErrors opts))
        else
          (* 4. check hex color codes *)
          _ <~ Println (infoColor (bs "Checking hex color codes...")) ;;
          hexErrors <~ checkHexColors content opts ;;
          let allErrors := allErrors ++ hexErrors in
          if (len allErrors >=? MaxErrors opts) && (MaxErrors opts >? 0)
          then run (sliceTo allErrors (MaxErrors opts))
          else
            (* 5. check SVG syntax *)
            _ <~ Println (infoColor (bs "Checking SVG syntax...")) ;;
            svgErrors <~ checkSVG content opts ;;
            let allErrors := allErrors ++ svgErrors in
            limit opts allErrors
    else limit opts allErrors.

End With.

(** [validateXML] performs all validation checks on the XML content. *)
Definition validateXML (content : gostring) (opts : ValidationOptions)
  : IO (list ValidationError) :=
  validateXMLWith
    (fun content opts => run (validateCDATASections MaxErrors content opts))
    (fun content opts => run (validateControlCharacters MaxErrors content opts))
    (fun content opts => run (validateHexColors MaxErrors content opts))
    (fun content opts => run (validateSVG MaxErrors content opts))
    content opts.

End Pipeline.

End Colored.

(** ** Definitions used by the statements *)

(** The options of the plain entry point that a coloured run corresponds
    to: the same budget and debug flag, no colour flag. *)
Definition toPlain (o : Colored.ValidationOptions) : Plain.ValidationOptions :=
  Plain.mkOptions (Colored.MaxErrors o) (Colored.Debug o).

(** A decoder that reports a syntax error on line 1 at its first call, and
    one that reaches the end of the input after one element; they stand for
    [encoding/xml] where a statement is tried on a concrete input. *)
Definition tokensSyntaxError (_ : gostring) : list tokenResult :=
  [(None, Some (SyntaxError (bs "unexpected EOF") 1))].

Definition tokensWellFormed (_ : gostring) : list tokenResult :=
  [(Some (StartElement (bs "a")), None);
   (Some (CharData (bs "#12 #1")), None);
   (Some (EndElement (bs "a")), None);
   (None, Some EOF)].

(** The first byte of [s] that is a control character, with its offset
    counted from [j]. *)
Fixpoint firstControlByte (s : gostring) (j : Z) : option (Z * byte) :=
  match s with
  | [] => None
  | b :: rest =>
    if isControl (byteZ b) then Some (j, b)
    else firstControlByte rest (j + 1)
  end.

(** [e] is the issue for the first control character of [line]: the byte
    [b] at offset [idx] is a control character, no byte before it is one,
    the character that [range] decodes at that offset is [b] itself, and
    the issue carries the 1-based column of [b], highlights it and names
    its code in hexadecimal. *)
Definition controlIssueOn (line : gostring) (e : ValidationError) : Prop :=
  exists (idx : nat) (b : byte),
    nth_error line idx = Some b
    /\ isControl (byteZ b) = true
    /\ (forall idx' b', (idx' < idx)%nat -> nth_error line idx' = Some b' ->
                        isControl (byteZ b') = false)
    /\ utf8.DecodeRune (skipn idx line) = (byteZ b, 1)
    /\ Column e = Z.of_nat idx + 1
    /\ Content e = [b]
    /\ Line e = line
    /\ ErrorType e = bs "Control character"
    /\ Message e = bs "Control character (hex 0x" ++ fmt02X (byteZ b)
                   ++ bs ") found".

Import syntax regexp.

(** *** What a match is

    [Iter R n]: [n] consecutive pieces of the text, each related by [R],
    the captures threaded from one piece to the next. *)
Inductive Iter (R : Z -> caps -> gostring -> gostring -> caps -> Prop)
  : nat -> Z -> caps -> gostring -> gostring -> caps -> Prop :=
| Iter0 pos c rest : Iter R 0 pos c [] rest c
| IterS n pos c w1 w2 rest c1 c2 :
    R pos c w1 (w2 ++ rest) c1 ->
    Iter R n (pos + len w1) c1 w2 rest c2 ->
    Iter R (S n) pos c (w1 ++ w2) rest c2.

(** [Mt re pos c w rest c']: the expression [re] matches the bytes [w]
    that start at offset [pos] and are followed by [rest]; the capture
    registers go from [c] to [c'].  This is the meaning of an expression,
    with no search order in it. *)
Fixpoint Mt (re : syntax.Regexp) (pos : Z) (c : caps) (w rest : gostring)
    (c' : caps) : Prop :=
  match re with
  | OpEmptyMatch => w = [] /\ c' = c
  | OpLiteral _ | OpCharClass _ _ | OpAnyCharNotNL =>
    exists r, w <> [] /\ utf8.DecodeRune (w ++ rest) = (r, len w)
              /\ matchRune re r = true /\ c' = c
  | OpBeginText => w = [] /\ pos = 0 /\ c' = c
  | OpEndText => w = [] /\ rest = [] /\ c' = c
  | OpCapture i sub =>
    exists c1, Mt sub pos c w rest c1 /\ c' = (i, (pos, pos + len w)) :: c1
  | OpStar sub => exists n, Iter (Mt sub) n pos c w rest c'
  | OpPlus sub => exists n, Iter (Mt sub) (S n) pos c w rest c'
  | OpQuest sub => exists n, (n <= 1)%nat /\ Iter (Mt sub) n pos c w rest c'
  | OpRepeat min max sub =>
    exists n, (min <= n)%nat
              /\ match max with
                 | Some m => (n <= min + (m - min))%nat
                 | None => True
                 end
              /\ Iter (Mt sub) n pos c w rest c'
  | OpConcat a b =>
    exists w1 w2 c1, w = w1 ++ w2 /\ Mt a pos c w1 (w2 ++ rest) c1
                     /\ Mt b (pos + len w1) c1 w2 rest c'
  | OpAlternate a b => Mt a pos c w rest c' \/ Mt b pos c w rest c'
  end.

(** A matcher [f] is sound for a relation [R]. *)
Definition soundFor {X : Type} (f : matcher X)
    (R : Z -> caps -> gostring -> gostring -> caps -> Prop) : Prop :=
  forall s pos c k x,
    f s pos c k = Some x ->
    exists w rest c', s = w ++ rest /\ R pos c w rest c'
                      /\ k rest (pos + len w) c' = Some x.

(** [m] is the index list of a match of [re] somewhere in [text]. *)
Definition MatchOf (re : regexp.Regexp) (text : gostring) (m : list Z) : Prop :=
  exists pre w rest c,
    text = pre ++ w ++ rest
    /\ Mt (expr re) (len pre) [] w rest c
    /\ m = indices re (len pre, len pre + len w, c).

(** The bytes [w] that the rune [r] was decoded from: one byte below
    [0x80] that is the rune, or bytes that are all at least [0x80]. *)
Definition runeBytes (r : Z) (w : gostring) : Prop :=
  (exists b, w = [b] /\ byteZ b = r /\ r < 0x80)
  \/ (0x80 <= r /\ w <> [] /\ Forall (fun b => 0x80 <= byteZ b) w).

(** The text of an expression made of ASCII literals only. *)
Fixpoint literalText (re : syntax.Regexp) : option gostring :=
  match re with
  | OpLiteral r =>
    if (0 <=? r) && (r <? 0x80) then Some [byte_of_Z r] else None
  | OpConcat a b =>
    match literalText a, literalText b with
    | Some x, Some y => Some (x ++ y)
    | _, _ => None
    end
  | _ => None
  end.

(** The branches of an alternation. *)
Fixpoint alternatives (re : syntax.Regexp) : list syntax.Regexp :=
  match re with
  | OpAlternate a b => alternatives a ++ alternatives b
  | _ => [re]
  end.

(** The element names of the self-closing pattern. *)
Definition voidTags : list gostring :=
  map bs ["path"; "rect"; "circle"; "ellipse"; "line"; "polyline"; "polygon";
          "image"; "use"]%string.

(** What a match of the self-closing pattern looks like. *)
Definition selfClosingMatch (text : gostring) (m : list Z) : Prop :=
  exists pre tag mid last rest r,
    text = pre ++ (bs "<" ++ tag ++ mid ++ last ++ bs ">") ++ rest
    /\ In tag voidTags
    /\ Forall (fun b => b <> x3e) mid
    /\ runeBytes r last /\ r <> 0x2F
    /\ m = [len pre; len pre + len (bs "<" ++ tag ++ mid ++ last ++ bs ">");
            len pre + 1; len pre + 1 + len tag].

(** The tags of the two kinds of issue of [validateSVG]. *)
Definition selfClosingType : gostring := bs "SVG self-closing tag issue".
Definition unquotedAttrType : gostring := bs "SVG unquoted attribute".

(** What a self-closing issue of a line says. *)
Definition selfClosingIssue (i : Z) (text : gostring) (e : ValidationError) : Prop :=
  exists pre tag mid last rest r,
    text = pre ++ (bs "<" ++ tag ++ mid ++ last ++ bs ">") ++ rest
    /\ In tag voidTags
    /\ Forall (fun b => b <> x3e) mid
    /\ runeBytes r last /\ r <> 0x2F
    /\ LineNumber e = i + 1
    /\ Column e = len pre + 1
    /\ Content e = bs "<" ++ tag ++ mid ++ last ++ bs ">".

(** An expression without a capturing group. *)
Fixpoint captureFree (re : syntax.Regexp) : bool :=
  match re with
  | OpCapture _ _ => false
  | OpStar sub | OpPlus sub | OpQuest sub | OpRepeat _ _ sub => captureFree sub
  | OpConcat a b | OpAlternate a b => captureFree a && captureFree b
  | _ => true
  end.

(** What a match of the hex pattern looks like: the bounds of the match,
    then the start of group 1, which is [-1] or lies inside the match. *)
Definition invalidHexMatch (text : gostring) (m : list Z) : Prop :=
  exists pre w rest g1 others,
    text = pre ++ w ++ rest
    /\ m = len pre :: (len pre + len w) :: g1 :: others
    /\ (g1 = -1 \/ len pre <= g1 <= len pre + len w).

(** What a match of the unquoted-attribute pattern looks like: both groups
    took part, and each delimits a piece of the text. *)
Definition unquotedAttrMatch (text : gostring) (m : list Z) : Prop :=
  exists a name post1 b value post2 m0 m1,
    text = a ++ name ++ post1
    /\ text = b ++ value ++ post2
    /\ m = [m0; m1; len a; len a + len name; len b; len b + len value].

(** What [svgLine] adds for a line. *)
Definition svgIssue (i : Z) (text : gostring) (e : ValidationError) : Prop :=
  (ErrorType e = selfClosingType /\ selfClosingIssue i text e)
  \/ ErrorType e = unquotedAttrType.

(** *** The budget

    How a list returned under a budget relates to the list returned
    without one. *)

(** [l] is what a checker returns under the budget [N] when it would
    return [l0] without one: a prefix of [l0], cut only once it has [N]
    issues. *)
Definition cutAt (N : Z) (l l0 : list ValidationError) : Prop :=
  exists more, l0 = l ++ more /\ (more = [] \/ N <= len l).

(** The checker [c] cuts its list at the budget of [opts]: what it
    returns there is what it returns without a budget, under [opts0], cut
    as [cutAt] says. *)
Definition cuts
    (c : gostring -> Plain.ValidationOptions -> IO (list ValidationError))
    (content : gostring) (opts opts0 : Plain.ValidationOptions) : Prop :=
  forall l0, outcome (c content opts0) = Ok l0 ->
    exists l, outcome (c content opts) = Ok l
              /\ cutAt (Plain.MaxErrors opts) l l0.

(** ** The process: os.Exit, strings, fmt.Printf *)

(** How a run of [main] ends before its last statement: [os.Exit(code)], a
    panic of the validation, or the panic of [strings.Repeat] on a
    negative count. *)
Inductive stop : Type :=
| Exit (code : Z)
| Crashed (p : panic)
| NegativeRepeatCount (count : Z).

(** A statement of [main] or of a function it calls: what it has written
    to standard output, one element per call of [fmt.Println] or
    [fmt.Printf], and either its value or the way the run stopped in it. *)
Definition Proc (A : Type) : Type := (list gostring * (A + stop))%type.

Definition retP {A : Type} (a : A) : Proc A := ([], inl a).

Definition bindP {A B : Type} (c : Proc A) (k : A -> Proc B) : Proc B :=
  match c with
  | (out, inl a) => let '(out', r) := k a in (out ++ out', r)
  | (out, inr s) => (out, inr s)
  end.

Notation "x <-- c ;; k" := (bindP c (fun x => k))
  (at level 61, c at next level, right associativity).

(** [os.Exit(code)]. *)
Definition osExit {A : Type} (code : Z) : Proc A := ([], inr (Exit code)).

(** A computation of the validation inside the process: its output is
    kept, its panic stops the run. *)
Definition io {A : Type} (c : IO A) : Proc A :=
  match c with
  | (out, Ok a) => (out, inl a)
  | (out, Panic p) => (out, inr (Crashed p))
  end.

(** [fmt.Printf(format, args...)], given the text that the format makes of
    its arguments. *)
Definition Printf (text : gostring) : Proc unit := ([text], inl tt).

(** What the run has written, as one stream of bytes, and how it ended. *)
Definition stdout {A : Type} (c : Proc A) : gostring := List.concat (fst c).
Definition ending {A : Type} (c : Proc A) : A + stop := snd c.

(** [strings.Repeat(s, count)]: it panics on a negative count. *)
Definition Repeat (s : gostring) (count : Z) : Proc gostring :=
  if count <? 0 then ([], inr (NegativeRepeatCount count))
  else retP (List.concat (List.repeat s (Z.to_nat count))).

(** [strings.HasPrefix(s, prefix)]. *)
Fixpoint HasPrefix (s prefix : gostring) : bool :=
  match prefix, s with
  | [], _ => true
  | _ :: _, [] => false
  | p :: prefix', b :: s' => byte_eqb b p && HasPrefix s' prefix'
  end.

(** The verb [%4d]: decimal, padded with spaces on the left to four
    characters. *)
Definition fmt4d (n : Z) : gostring :=
  let d := Itoa n in
  List.repeat x20 (4 - List.length d) ++ d.

(** The marks of the messages, in UTF-8: U+274C and U+2705. *)
Definition crossMark : gostring := [xe2; x9d; x8c].
Definition checkMark : gostring := [xe2; x9c; x85].

Definition dashes : gostring := bs "----------------------------------------".

(** ** The world outside: files and HTTP *)

(** An [error] value, as the text of its [Error()]. *)
Definition error : Type := gostring.

(** What [readFileContent] looks at in an [*http.Response]: the status
    code, the status text, and what [ReadAll] gives for the body. *)
Record Response : Type := mkResponse {
  StatusCode : Z;
  Status : gostring;
  Body : gostring * option error
}.

(** [http.Get] and [ReadFile], as the run finds them. *)
Record World : Type := mkWorld {
  httpGet : gostring -> Response + error;
  ReadFile : gostring -> gostring * option error
}.

(** ** The plain entry point: main, readFileContent, displayError *)

Module PlainMain.

Import Plain.

Section Program.

Variable xmlTokens : gostring -> list tokenResult.
Variable world : World.

(** [readFileContent] reads content from a local file or remote URL. *)
Definition readFileContent (filepath : gostring)
  : Proc (gostring * option error) :=
  if HasPrefix filepath (bs "http://") || HasPrefix filepath (bs "https://")
  then
    _ <-- io (Println (bs "Downloading from URL...")) ;;
    match httpGet world filepath with
    | inr err => retP ([], Some (bs "failed to download file: " ++ err))
    | inl resp =>
      if negb (StatusCode resp =? 200)
      then retP ([], Some (bs "HTTP error: " ++ Status resp))
      else retP (Body resp)
    end
  else
    _ <-- io (Println (bs "Reading local file...")) ;;
    retP (ReadFile world filepath).

(** The pointer under the error line. *)
Definition pointerLine (err : ValidationError) : Proc unit :=
  spaces <-- Repeat (bs " ") (Column err + 5) ;;
  let pointer := spaces ++ bs "^" in
  pointer <--
    (if len (Content err) >? 1 then
       (* for multi-character errors, extend the pointer *)
       tildes <-- Repeat (bs "~") (len (Content err) - 1) ;;
       retP (pointer ++ tildes)
     else retP pointer) ;;
  io (Println pointer).

(** The loop of [displayError] over the lines that the scanner yields. *)
Fixpoint contextLoop (err : ValidationError) (contextStart contextEnd : Z)
    (tokens : list gostring) (lineNum : Z) : Proc unit :=
  match tokens with
  | [] => retP tt
  | line :: rest =>
    _ <-- (if (lineNum >=? contextStart) && (lineNum <=? contextEnd) then
             _ <-- Printf (fmt4d lineNum ++ bs ": " ++ line ++ [newline]) ;;
             (* if this is the error line, add a pointer *)
             if (lineNum =? LineNumber err) && (Column err >? 0)
             then pointerLine err
             else retP tt
           else retP tt) ;;
    let lineNum := lineNum + 1 in
    if lineNum >? contextEnd then retP tt
    else contextLoop err contextStart contextEnd rest lineNum
  end.

(** [displayError] formats and prints a single validation error. *)
Definition displayError (content : gostring) (err : ValidationError)
    (index : Z) : Proc unit :=
  _ <-- Printf ([newline] ++ bs "Issue #" ++ Itoa index ++ bs ":"
                ++ [newline]) ;;
  _ <-- Printf (bs "Line " ++ Itoa (LineNumber err) ++ bs ", Column "
                ++ Itoa (Column err) ++ bs ": " ++ ErrorType err
                ++ [newline]) ;;
  _ <-- Printf (bs "Message: " ++ Message err ++ [newline]) ;;
  (* show context (lines before and after the error) *)
  _ <-- io (Println ([newline] ++ bs "Context:")) ;;
  _ <-- io (Println dashes) ;;
  let lineNum := 1 in
  let contextStart := LineNumber err - 2 in
  let contextStart := if contextStart <? 1 then 1 else contextStart in
  let contextEnd := LineNumber err + 2 in
  _ <-- contextLoop err contextStart contextEnd (scanLines content) lineNum ;;
  io (Println dashes).

(** [printCorrectionTips] prints common correction suggestions. *)
Definition printCorrectionTips : Proc unit :=
  _ <-- io (Println ([newline] ++ bs "Common XML issues detected by this validator:")) ;;
  _ <-- io (Println (bs "  - Special characters immediately after <![CDATA[ marker")) ;;
  _ <-- io (Println (bs "  - Unescaped ']]>' sequences within CDATA content")) ;;
  _ <-- io (Println (bs "  - Unclosed CDATA sections (missing ]]>)")) ;;
  _ <-- io (Println (bs "  - Nested CDATA sections (not allowed in XML)")) ;;
  _ <-- io (Println (bs "  - Control characters (non-printable ASCII 0-31) in CDATA sections")) ;;
  _ <-- io (Println (bs "  - Malformed hex color codes (should be #RGB, #RRGGBB, or #RRGGBBAA)")) ;;
  _ <-- io (Println (bs "  - Improperly closed SVG elements")) ;;
  _ <-- io (Println (bs "  - SVG attributes without proper quoting")) ;;
  _ <-- io (Println []) ;;
  _ <-- io (Println (bs "Correction tips:")) ;;
  _ <-- io (Println (bs "  - CDATA sections: <![CDATA[content]]> with no special characters after opening marker")) ;;
  _ <-- io (Println (bs "  - Hex colors: Use standard formats like #RGB, #RRGGBB, #RRGGBBAA")) ;;
  _ <-- io (Println (bs "  - SVG elements: Self-closing tags must end with />")) ;;
  _ <-- io (Println (bs "  - SVG attributes: Always use quotes for attribute values: width="
                     ++ dquote ++ bs "100" ++ dquote)) ;;
  _ <-- io (Println (bs "  - Control characters: Remove them with:" ++ [newline]
                     ++ bs "    go run xml_fixer.go yourfile.xml")) ;;
  _ <-- io (Println []) ;;
  io (Println (bs "For WordPress import files, CDATA errors are particularly important to fix.")).

(** [for i := 0; i < maxToShow; i++ { displayError(content, allErrors[i],
    i+1) }], with [todo] the number of rounds left. *)
Fixpoint displayLoop (content : gostring) (allErrors : list ValidationError)
    (todo : nat) (i : Z) : Proc unit :=
  match todo with
  | O => retP tt
  | S todo' =>
    e <-- io (run (index allErrors i)) ;;
    _ <-- displayError content e (i + 1) ;;
    displayLoop content allErrors todo' (i + 1)
  end.

(** What [main] does with the list of [validateXML]: display results,
    report errors, print correction tips. *)
Definition report (content : gostring) (opts : ValidationOptions)
    (allErrors : list ValidationError) : Proc unit :=
  (* display results *)
  _ <-- (if len allErrors =? 0 then
           _ <-- io (Println (checkMark ++ bs " XML is well-formed!")) ;;
           osExit 0
         else retP tt) ;;
  (* report errors *)
  _ <-- Printf (crossMark ++ bs " Found " ++ Itoa (len allErrors)
                ++ bs " XML issues (showing up to " ++ Itoa (MaxErrors opts)
                ++ bs "):" ++ [newline]) ;;
  _ <-- io (Println dashes) ;;
  let maxToShow := MaxErrors opts in
  let maxToShow := if maxToShow >? len allErrors then len allErrors
                   else maxToShow in
  _ <-- displayLoop content allErrors (Z.to_nat maxToShow) 0 ;;
  _ <-- (if len allErrors >? MaxErrors opts then
           Printf ([newline] ++ bs "Note: Found more errors than displayed ("
                   ++ Itoa (len allErrors) ++ bs " total). Run with --max-errors="
                   ++ Itoa (len allErrors) ++ bs " to see all." ++ [newline])
         else retP tt) ;;
  (* print correction tips *)
  _ <-- printCorrectionTips ;;
  osExit 1.

(** [main], from the parsed flags on: [args] is [flag.Args()] and [opts]
    holds the values of the flags. *)
Definition main (args : list gostring) (opts : ValidationOptions)
  : Proc unit :=
  (* check for required file argument *)
  _ <-- (if len args <? 1 then
           _ <-- io (Println (bs "Usage: xml_validator [--max-errors=N] [--debug] <xml-file-or-URL>")) ;;
           osExit 1
         else retP tt) ;;
  filepath <-- io (run (index args 0)) ;;
  _ <-- Printf (bs "Validating XML: " ++ filepath ++ [newline]) ;;
  _ <-- Printf (bs "Will report up to " ++ Itoa (MaxErrors opts)
                ++ bs " errors" ++ [newline]) ;;
  (* read the file content (local or remote) *)
  read <-- readFileContent filepath ;;
  let '(content, err) := read in
  _ <-- match err with
        | Some err =>
          _ <-- Printf (crossMark ++ bs " Error reading file: " ++ err
                        ++ [newline]) ;;
          osExit 1
        | None => retP tt
        end ;;
  (* run the validation *)
  allErrors <-- io (validateXML xmlTokens content opts) ;;
  report content opts allErrors.

End Program.

End PlainMain.

(** ** The coloured entry point: main, readFileContent, displayError *)

(** The attributes of [github.com/fatih/color] that the program uses. *)
Inductive Attribute : Type := FgRed | FgGreen | FgYellow | FgBlue | FgCyan.

Module ColoredMain.

Import Colored.

Section Program.

Variable xmlTokens : gostring -> list tokenResult.
Variable world : World.

(** [color.New(attribute).SprintFunc()] applied to one string, under the
    value that [color.NoColor] has at the call. *)
Variable sprint : bool -> Attribute -> gostring -> gostring.

(** The value of [color.NoColor] when [main] starts. *)
Variable noColorAtStart : bool.

Section Colors.

(** The value of [color.NoColor] once [main] has applied the flag. *)
Variable noColor : bool.

Definition successColor : gostring -> gostring := sprint noColor FgGreen.
Definition errorColor : gostring -> gostring := sprint noColor FgRed.
Definition highlightColor : gostring -> gostring := sprint noColor FgYellow.
Definition headerColor : gostring -> gostring := sprint noColor FgCyan.
Definition infoColor : gostring -> gostring := sprint noColor FgBlue.

(** [readFileContent] reads content from a local file or remote URL. *)
Definition readFileContent (filepath : gostring)
  : Proc (gostring * option error) :=
  if HasPrefix filepath (bs "http://") || HasPrefix filepath (bs "https://")
  then
    _ <-- io (Println (infoColor (bs "Downloading from URL..."))) ;;
    match httpGet world filepath with
    | inr err => retP ([], Some (bs "failed to download file: " ++ err))
    | inl resp =>
      if negb (StatusCode resp =? 200)
      then retP ([], Some (bs "HTTP error: " ++ Status resp))
      else retP (Body resp)
    end
  else
    _ <-- io (Println (infoColor (bs "Reading local file..."))) ;;
    retP (ReadFile world filepath).

(** The pointer under the error line. *)
Definition pointerLine (err : ValidationError) : Proc unit :=
  spaces <-- Repeat (bs " ") (Column err + 5) ;;
  let pointer := spaces ++ errorColor (bs "^") in
  pointer <--
    (if len (Content err) >? 1 then
       (* for multi-character errors, extend the pointer *)
       tildes <-- Repeat (bs "~") (len (Content err) - 1) ;;
       retP (pointer ++ errorColor tildes)
     else retP pointer) ;;
  io (Println pointer).

(** The loop of [displayError] over the lines that the scanner yields. *)
Fixpoint contextLoop (err : ValidationError) (contextStart contextEnd : Z)
    (tokens : list gostring) (lineNum : Z) : Proc unit :=
  match tokens with
  | [] => retP tt
  | line :: rest =>
    _ <-- (if (lineNum >=? contextStart) && (lineNum <=? contextEnd) then
             (* use different color for the line with the error *)
             _ <-- (if lineNum =? LineNumber err
                    then Printf (infoColor (fmt4d lineNum) ++ bs ": "
                                 ++ highlightColor line ++ [newline])
                    else Printf (infoColor (fmt4d lineNum) ++ bs ": "
                                 ++ line ++ [newline])) ;;
             (* if this is the error line, add a pointer *)
             if (lineNum =? LineNumber err) && (Column err >? 0)
             then pointerLine err
             else retP tt
           else retP tt) ;;
    let lineNum := lineNum + 1 in
    if lineNum >? contextEnd then retP tt
    else contextLoop err contextStart contextEnd rest lineNum
  end.

(** [displayError] formats and prints a single validation error. *)
Definition displayError (content : gostring) (err : ValidationError)
    (index : Z) : Proc unit :=
  _ <-- Printf ([newline] ++ headerColor (bs "Issue") ++ bs " #"
                ++ Itoa index ++ bs ":" ++ [newline]) ;;
  _ <-- Printf (infoColor (bs "Line") ++ bs " " ++ Itoa (LineNumber err)
                ++ bs ", " ++ infoColor (bs "Column") ++ bs " "
                ++ Itoa (Column err) ++ bs ": "
                ++ errorColor (ErrorType err) ++ [newline]) ;;
  _ <-- Printf (infoColor (bs "Message:") ++ bs " "
                ++ highlightColor (Message err) ++ [newline]) ;;
  (* show context (lines before and after the error) *)
  _ <-- Printf ([newline] ++ infoColor (bs "Context:") ++ [newline]) ;;
  _ <-- io (Println (headerColor dashes)) ;;
  let lineNum := 1 in
  let contextStart := LineNumber err - 2 in
  let contextStart := if contextStart <? 1 then 1 else contextStart in
  let contextEnd := LineNumber err + 2 in
  _ <-- contextLoop err contextStart contextEnd (scanLines content) lineNum ;;
  io (Println (headerColor dashes)).

(** [fmt.Printf("  - %s\n", highlightColor(text))] *)
Definition issueLine (text : gostring) : Proc unit :=
  Printf (bs "  - " ++ highlightColor text ++ [newline]).

(** [printCorrectionTips] prints common correction suggestions. *)
Definition printCorrectionTips : Proc unit :=
  _ <-- Printf ([newline] ++ headerColor (bs "Common XML issues detected by this validator:") ++ [newline]) ;;
  _ <-- issueLine (bs "Special characters immediately after <![CDATA[ marker") ;;
  _ <-- issueLine (bs "Unescaped ']]>' sequences within CDATA content") ;;
  _ <-- issueLine (bs "Unclosed CDATA sections (missing ]]>)") ;;
  _ <-- issueLine (bs "Nested CDATA sections (not allowed in XML)") ;;
  _ <-- issueLine (bs "Control characters (non-printable ASCII 0-31) in CDATA sections") ;;
  _ <-- issueLine (bs "Malformed hex color codes (should be #RGB, #RRGGBB, or #RRGGBBAA)") ;;
  _ <-- issueLine (bs "Improperly closed SVG elements") ;;
  _ <-- issueLine (bs "SVG attributes without proper quoting") ;;
  _ <-- Printf ([newline] ++ headerColor (bs "Correction tips:") ++ [newline]) ;;
  _ <-- Printf (bs "  - " ++ successColor (bs "CDATA sections")
                ++ bs ": <![CDATA[content]]> with no special characters after opening marker"
                ++ [newline]) ;;
  _ <-- Printf (bs "  - " ++ successColor (bs "Hex colors")
                ++ bs ": Use standard formats like #RGB, #RRGGBB, #RRGGBBAA"
                ++ [newline]) ;;
  _ <-- Printf (bs "  - " ++ successColor (bs "SVG elements")
                ++ bs ": Self-closing tags must end with />" ++ [newline]) ;;
  _ <-- Printf (bs "  - " ++ successColor (bs "SVG attributes")
                ++ bs ": Always use quotes for attribute values: width="
                ++ dquote ++ bs "100" ++ dquote ++ [newline]) ;;
  _ <-- Printf (bs "  - " ++ successColor (bs "Control characters")
                ++ bs ": Remove them with:" ++ [newline] ++ bs "    "
                ++ infoColor (bs "go run xml_fixer.go yourfile.xml")
                ++ [newline]) ;;
  Printf ([newline] ++ highlightColor (bs "For WordPress import files, CDATA errors are particularly important to fix.") ++ [newline]).

(** [for i := 0; i < maxToShow; i++ { displayError(content, allErrors[i],
    i+1) }], with [todo] the number of rounds left. *)
Fixpoint displayLoop (content : gostring) (allErrors : list ValidationError)
    (todo : nat) (i : Z) : Proc unit :=
  match todo with
  | O => retP tt
  | S todo' =>
    e <-- io (run (index allErrors i)) ;;
    _ <-- displayError content e (i + 1) ;;
    displayLoop content allErrors todo' (i + 1)
  end.

(** What [main] does with the list of [validateXML]: display results,
    report errors, print correction tips. *)
Definition report (content : gostring) (opts : ValidationOptions)
    (allErrors : list ValidationError) : Proc unit :=
  (* display results *)
  _ <-- (if len allErrors =? 0 then
           _ <-- io (Println (successColor (checkMark ++ bs " XML is well-formed!"))) ;;
           osExit 0
         else retP tt) ;;
  (* report errors *)
  _ <-- Printf (errorColor crossMark ++ bs " Found " ++ Itoa (len allErrors)
                ++ bs " XML issues (showing up to " ++ Itoa (MaxErrors opts)
                ++ bs "):" ++ [newline]) ;;
  _ <-- io (Println (headerColor dashes)) ;;
  let maxToShow := MaxErrors opts in
  let maxToShow := if maxToShow >? len allErrors then len allErrors
                   else maxToShow in
  _ <-- displayLoop content allErrors (Z.to_nat maxToShow) 0 ;;
  _ <-- (if len allErrors >? MaxErrors opts then
           Printf ([newline] ++ infoColor (bs "Note:")
                   ++ bs " Found more errors than displayed ("
                   ++ Itoa (len allErrors) ++ bs " total). Run with --max-errors="
                   ++ Itoa (len allErrors) ++ bs " to see all." ++ [newline])
         else retP tt) ;;
  (* print correction tips *)
  _ <-- printCorrectionTips ;;
  osExit 1.

(** [main] after the colour setting. *)
Definition mainBody (args : list gostring) (opts : ValidationOptions)
  : Proc unit :=
  (* check for required file argument *)
  _ <-- (if len args <? 1 then
           _ <-- io (Println (bs "Usage: xml_validator [--max-errors=N] [--debug] [--color] <xml-file-or-URL>")) ;;
           osExit 1
         else retP tt) ;;
  filepath <-- io (run (index args 0)) ;;
  _ <-- Printf (bs "Validating XML: " ++ filepath ++ [newline]) ;;
  _ <-- Printf (bs "Will report up to " ++ Itoa (MaxErrors opts)
                ++ bs " errors" ++ [newline]) ;;
  (* read the file content (local or remote) *)
  read <-- readFileContent filepath ;;
  let '(content, err) := read in
  _ <-- match err with
        | Some err =>
          _ <-- Printf (crossMark ++ bs " Error reading file: " ++ err
                        ++ [newline]) ;;
          osExit 1
        | None => retP tt
        end ;;
  (* run the validation *)
  allErrors <-- io (validateXML xmlTokens successColor infoColor content opts) ;;
  report content opts allErrors.

End Colors.

(** [main], from the parsed flags on: [args] is [flag.Args()] and [opts]
    holds the values of the flags. *)
Definition main (args : list gostring) (opts : ValidationOptions)
  : Proc unit :=
  (* apply color setting: disable all colors if the color flag is false *)
  let noColor := if negb (Color opts) then true else noColorAtStart in
  mainBody noColor args opts.

End Program.

End ColoredMain.

(** ** More definitions used by the statements *)

(** The offset at which line [k] (counted from 0) of [lines] starts in the
    content the lines were split from: every line before it, and the
    newline after each. *)
Definition lineStart (lines : list gostring) (k : nat) : Z :=
  len (List.concat (map (fun l => l ++ [newline]) (firstn k lines))).

(** A line that the scanner can hold. *)
Definition fitsScanner (piece : gostring) : bool :=
  len piece <? MaxScanTokenSize.

(** A result of [decoder.Token()] that lets the loop go on: a token and no
    error. *)
Definition tokenOk (r : tokenResult) : Prop :=
  exists t, r = (Some t, None).

(** A result that ends the loop with nothing reported: [io.EOF], or a nil
    token without an error. *)
Definition tokenEnd (r : tokenResult) : Prop :=
  snd r = Some EOF \/ r = (None, None).

(** Whether a line contains a control character. *)
Definition hasControl (line : gostring) : bool :=
  existsb (fun b => isControl (byteZ b)) line.

(** The numbers, counted from [i + 1], of the lines that satisfy [p]. *)
Fixpoint linesWith (p : gostring -> bool) (lines : list gostring) (i : Z)
  : list Z :=
  match lines with
  | [] => []
  | line :: rest =>
    if p line then (i + 1) :: linesWith p rest (i + 1)
    else linesWith p rest (i + 1)
  end.

(** The ranges of the class [[0-9a-fA-F]]. *)
Definition hexRanges : list (Z * Z) := [(48, 57); (97, 102); (65, 70)].

(** A hexadecimal digit. *)
Definition isHexDigit (b : byte) : bool :=
  ((48 <=? byteZ b) && (byteZ b <=? 57))
  || ((97 <=? byteZ b) && (byteZ b <=? 102))
  || ((65 <=? byteZ b) && (byteZ b <=? 70)).

(** The bytes of one character that is no hex digit. *)
Definition notHexChar (w : gostring) : Prop :=
  (exists r, runeBytes r w) /\ Forall (fun b => isHexDigit b = false) w.

(** What an issue of [validateHexColors] on line [i] says: [#] and a run
    [ds] of hex digits are highlighted at their column.  The run has one
    or two digits and the line ends or goes on with something else than a
    hex digit; or it has four or five digits, and then the character that
    follows them, if there is one, is highlighted with them; or it has at
    least seven digits. *)
Definition invalidHexIssue (i : Z) (line : gostring) (e : ValidationError)
  : Prop :=
  exists pre ds extra rest,
    line = pre ++ (x23 :: ds) ++ extra ++ rest
    /\ forallb isHexDigit ds = true
    /\ (((len ds = 1 \/ len ds = 2) /\ extra = []
         /\ (rest = [] \/ exists w rest', rest = w ++ rest' /\ notHexChar w))
        \/ ((len ds = 4 \/ len ds = 5)
            /\ ((extra = [] /\ rest = []) \/ notHexChar extra))
        \/ (7 <= len ds /\ extra = []))
    /\ LineNumber e = i + 1
    /\ Column e = len pre + 1
    /\ Line e = line
    /\ ErrorType e = bs "Invalid hex color"
    /\ Content e = (x23 :: ds) ++ extra
    /\ Message e = bs "Invalid hex color code: " ++ Content e
                   ++ bs " (should be #RGB, #RRGGBB, or #RRGGBBAA)".

(** The attribute names of the unquoted-attribute pattern. *)
Definition attrNames : list gostring := map bs ["width"; "height"; "viewBox"]%string.

(** What an unquoted-attribute issue on line [i] says: after [<svg] and
    bytes other than [>] comes one of the three attribute names, [=], and
    a value whose first character is no quote and whose other bytes are
    neither a space nor [>].  The column is that of the name. *)
Definition unquotedAttrIssue (i : Z) (line : gostring) (e : ValidationError)
  : Prop :=
  exists pre mid name first others rest r,
    line = pre ++ bs "<svg" ++ mid ++ name ++ bs "=" ++ (first ++ others) ++ rest
    /\ Forall (fun b => b <> x3e) mid
    /\ In name attrNames
    /\ runeBytes r first /\ r <> 0x22 /\ r <> 0x27
    /\ Forall (fun b => b <> x20 /\ b <> x3e) others
    /\ LineNumber e = i + 1
    /\ Column e = len (pre ++ bs "<svg" ++ mid) + 1
    /\ Line e = line
    /\ Content e = name ++ bs "=" ++ first ++ others
    /\ Message e = bs "SVG attribute " ++ name ++ bs "=" ++ first ++ others
                   ++ bs " should use quotes: " ++ name ++ bs "="
                   ++ dquote ++ first ++ others ++ dquote.

(** What a self-closing issue on line [i] says, with what the check for a
    closing tag adds: the rest of the line after the highlighted text does
    not contain the closing tag of the element. *)
Definition unclosedElementIssue (i : Z) (line : gostring) (e : ValidationError)
  : Prop :=
  exists pre tag mid last rest r,
    line = pre ++ (bs "<" ++ tag ++ mid ++ last ++ bs ">") ++ rest
    /\ In tag voidTags
    /\ Forall (fun b => b <> x3e) mid
    /\ runeBytes r last /\ r <> 0x2F
    /\ (forall a b, rest <> a ++ (bs "</" ++ tag ++ bs ">") ++ b)
    /\ LineNumber e = i + 1
    /\ Column e = len pre + 1
    /\ Line e = line
    /\ Content e = bs "<" ++ tag ++ mid ++ last ++ bs ">"
    /\ Message e = bs "SVG <" ++ tag ++ bs "> tag should be self-closing with />".

(** What [svgLine] adds for a line, in full. *)
Definition svgIssueOn (i : Z) (line : gostring) (e : ValidationError) : Prop :=
  (ErrorType e = selfClosingType /\ unclosedElementIssue i line e)
  \/ (ErrorType e = unquotedAttrType /\ unquotedAttrIssue i line e).

(** The elements of a list with their numbers, counted from [from]. *)
Fixpoint numbered {A : Type} (l : list A) (from : Z) : list (Z * A) :=
  match l with
  | [] => []
  | a :: rest => (from, a) :: numbered rest (from + 1)
  end.

(** The pointer that [displayError] prints under the error line:
    [Column + 5] spaces, a caret, and a tilde for every further byte of
    the highlighted text. *)
Definition pointerText (err : ValidationError) : gostring :=
  List.repeat x20 (Z.to_nat (Column err + 5)) ++ bs "^"
  ++ List.repeat x7e (Z.to_nat (len (Content err) - 1)).

(** The context of [err]: the lines numbered from two before the error
    line, but not before line 1, to two after it. *)
Definition inContext (err : ValidationError) (l : Z * gostring) : bool :=
  (Z.max 1 (LineNumber err - 2) <=? fst l) && (fst l <=? LineNumber err + 2).

(** What the plain [displayError] writes for a line of the context: the
    numbered line, and under the error line the pointer, if the issue has
    a column. *)
Definition shownLine (err : ValidationError) (l : Z * gostring)
  : list gostring :=
  (fmt4d (fst l) ++ bs ": " ++ snd l ++ [newline])
  :: (if (fst l =? LineNumber err) && (Column err >? 0)
      then [pointerText err ++ [newline]] else []).

(** The panic of [validateCDATASections]: its third pattern does not
    compile. *)
Definition lookaheadPanic : panic :=
  PanicRegexpCompile patUnclosedCDATA
    (syntax.mkError syntax.ErrInvalidPerlOp (bs "(?!")).

(** What the plain [main] writes for issue number [fst p]. *)
Definition shownIssue (content : gostring) (p : Z * ValidationError)
  : list gostring :=
  fst (PlainMain.displayError content (snd p) (fst p)).

(** The first and the last line of the plain report. *)
Definition foundText (found budget : Z) : gostring :=
  crossMark ++ bs " Found " ++ Itoa found ++ bs " XML issues (showing up to "
  ++ Itoa budget ++ bs "):" ++ [newline].

Definition noteText (found : Z) : gostring :=
  [newline] ++ bs "Note: Found more errors than displayed (" ++ Itoa found
  ++ bs " total). Run with --max-errors=" ++ Itoa found ++ bs " to see all."
  ++ [newline].

(** Two runs write the same bytes and end the same way. *)
Definition sameRun {A : Type} (c1 c2 : Proc A) : Prop :=
  stdout c1 = stdout c2 /\ ending c1 = ending c2.

(** * Properties *)

(** Boolean comparisons on [Z] in the hypotheses become propositions. *)
Ltac zbool :=
  repeat match goal with
  | H : _ && _ = true |- _ => apply andb_true_iff in H; destruct H
  | H : _ || _ = false |- _ => apply orb_false_iff in H; destruct H
  | H : negb _ = true |- _ => apply negb_true_iff in H
  | H : negb _ = false |- _ => apply negb_false_iff in H
  | H : (_ >? _) = _ |- _ => rewrite Z.gtb_ltb in H
  | H : (_ >=? _) = _ |- _ => rewrite Z.geb_leb in H
  | H : (_ <? _) = true |- _ => apply Z.ltb_lt in H
  | H : (_ <? _) = false |- _ => apply Z.ltb_ge in H
  | H : (_ <=? _) = true |- _ => apply Z.leb_le in H
  | H : (_ <=? _) = false |- _ => apply Z.leb_gt in H
  | H : (_ =? _) = true |- _ => apply Z.eqb_eq in H
  | H : (_ =? _) = false |- _ => apply Z.eqb_neq in H
  end.

(** Two lists of integers that agree element by element, up to arithmetic. *)
Ltac list_lia :=
  repeat (apply (f_equal2 (@cons Z)); [first [reflexivity | lia] |]);
  reflexivity.

(** ** Lists, indices and slices *)

Lemma len_nonneg {A : Type} (l : list A) : 0 <= len l.
Proof. unfold len. lia. Qed.

Lemma len_app {A : Type} (l1 l2 : list A) : len (l1 ++ l2) = len l1 + len l2.
Proof. unfold len. rewrite length_app. lia. Qed.

Lemma len_nil {A : Type} : len (@nil A) = 0.
Proof. reflexivity. Qed.

Lemma len_cons {A : Type} (a : A) (l : list A) : len (a :: l) = 1 + len l.
Proof. unfold len. simpl List.length. lia. Qed.

Lemma firstn_len_app {A : Type} (w rest : list A) :
  firstn (Z.to_nat (len w)) (w ++ rest) = w.
Proof.
  unfold len. rewrite Nat2Z.id.
  rewrite firstn_app, Nat.sub_diag, firstn_all. simpl. apply app_nil_r.
Qed.

Lemma app_same_length {A : Type} (a b x y : list A) :
  a ++ x = b ++ y -> List.length a = List.length b -> a = b /\ x = y.
Proof.
  revert b. induction a as [| h a IH]; intros [| h' b] H Hl; try discriminate.
  - auto.
  - simpl in H. injection H as -> H. simpl in Hl.
    destruct (IH b H) as [-> ->]; auto.
Qed.

Lemma app_prefix {A : Type} (a b x y : list A) :
  a ++ x = b ++ y -> (List.length a <= List.length b)%nat ->
  firstn (List.length a) b = a.
Proof.
  revert b. induction a as [| h a IH]; intros b H Hl.
  - reflexivity.
  - destruct b as [| h' b]; [simpl in Hl; lia |].
    simpl in H. injection H as -> H. simpl. f_equal.
    apply IH; [exact H | simpl in Hl; lia].
Qed.

Lemma sliceTo_all {A : Type} (l : list A) : sliceTo l (len l) = Ok l.
Proof.
  unfold sliceTo, slice.
  pose proof (len_nonneg l) as Hl.
  replace ((0 <? 0) || (len l <? 0) || (len l <? len l)) with false.
  - rewrite Z.sub_0_r. unfold len. rewrite Nat2Z.id. simpl skipn.
    now rewrite firstn_all.
  - symmetry. rewrite !orb_false_iff. repeat split; apply Z.ltb_ge; lia.
Qed.

Lemma sliceTo_ok {A : Type} (l : list A) (n : Z) :
  0 <= n <= len l -> sliceTo l n = Ok (firstn (Z.to_nat n) l).
Proof.
  intros Hn. unfold sliceTo, slice.
  replace ((0 <? 0) || (n <? 0) || (len l <? n)) with false.
  - now rewrite Z.sub_0_r.
  - symmetry. rewrite !orb_false_iff. repeat split; apply Z.ltb_ge; lia.
Qed.

Lemma slice_mid {A : Type} (a w b : list A) :
  slice (a ++ w ++ b) (len a) (len a + len w) = Ok w.
Proof.
  unfold slice.
  pose proof (len_nonneg a). pose proof (len_nonneg w). pose proof (len_nonneg b).
  replace ((len a <? 0) || (len a + len w <? len a)
           || (len (a ++ w ++ b) <? len a + len w)) with false.
  - replace (len a + len w - len a) with (len w) by lia.
    unfold len at 2. rewrite Nat2Z.id.
    rewrite skipn_app, Nat.sub_diag, skipn_all. simpl.
    now rewrite firstn_len_app.
  - symmetry. rewrite !len_app. rewrite !orb_false_iff.
    repeat split; apply Z.ltb_ge; lia.
Qed.

Lemma slice_in {A : Type} (text a w b : list A) lo hi :
  text = a ++ w ++ b -> lo = len a -> hi = len a + len w ->
  slice text lo hi = Ok w.
Proof. intros -> -> ->. apply slice_mid. Qed.

Lemma sliceFrom_in {A : Type} (text a b : list A) lo :
  text = a ++ b -> lo = len a -> sliceFrom text lo = Ok b.
Proof.
  intros -> ->. unfold sliceFrom.
  pose proof (slice_mid a b []) as H. rewrite app_nil_r in H.
  rewrite len_app. exact H.
Qed.

Lemma slice_ok {A : Type} (l : list A) lo hi :
  0 <= lo <= hi -> hi <= len l ->
  exists r, slice l lo hi = Ok r.
Proof.
  intros H1 H2. unfold slice.
  replace ((lo <? 0) || (hi <? lo) || (len l <? hi)) with false.
  - eexists. reflexivity.
  - symmetry. rewrite !orb_false_iff. repeat split; apply Z.ltb_ge; lia.
Qed.

Lemma index_nth {A : Type} (l : list A) (k : Z) (v : A) :
  (k <? 0) = false -> nth_error l (Z.to_nat k) = Some v -> index l k = Ok v.
Proof. intros Hk Hn. unfold index. now rewrite Hk, Hn. Qed.

Lemma firstn_prefix {A : Type} (a b : list A) (N : Z) :
  N <= len a -> firstn (Z.to_nat N) (a ++ b) = firstn (Z.to_nat N) a.
Proof.
  intros H. rewrite firstn_app.
  replace (Z.to_nat N - List.length a)%nat with 0%nat by (unfold len in H; lia).
  simpl. apply app_nil_r.
Qed.

Lemma len_zero_nil {A : Type} (l : list A) : len l = 0 -> l = [].
Proof. destruct l; [reflexivity |]. rewrite len_cons. pose proof (len_nonneg l). lia. Qed.

(** ** unicode/utf8 *)

Lemma lor_ge_l a b : 0 <= b -> a <= Z.lor a b.
Proof.
  intros Hb. pose proof (Z.sub_lor_l_same_l b a) as H.
  assert (0 <= Z.land b (Z.lnot a)) by (apply Z.land_nonneg; auto).
  lia.
Qed.

Lemma byteZ_range b : 0 <= byteZ b <= 255.
Proof. unfold byteZ. pose proof (Byte.to_N_bounded b). lia. Qed.

Lemma byte_of_Z_byteZ b : byte_of_Z (byteZ b) = b.
Proof.
  unfold byte_of_Z, byteZ.
  pose proof (Byte.to_N_bounded b) as Hb.
  rewrite Z.mod_small by lia. rewrite N2Z.id. now rewrite Byte.of_to_N.
Qed.

Lemma land_ones_nonneg c n : 0 <= n -> 0 <= Z.land c (Z.ones n).
Proof.
  intros. rewrite Z.land_ones by lia.
  apply Z.mod_pos_bound. apply Z.pow_pos_nonneg; lia.
Qed.

Section DecodeRune.

Local Arguments Z.shiftl : simpl never.
Local Arguments Z.shiftr : simpl never.
Local Arguments Z.land : simpl never.
Local Arguments Z.lor : simpl never.
Local Arguments Z.testbit : simpl never.
Local Arguments Z.to_nat : simpl never.
Local Arguments firstn : simpl never.

(** The facts about the entry [x] of the table [first]. *)
Ltac first_byte x :=
  let v1 := eval vm_compute in (x >=? utf8.as_) in
  let v2 := eval vm_compute in (Z.land x 7) in
  let v3 := eval vm_compute in (utf8.acceptRanges (Z.shiftr x 4)) in
  change (x >=? utf8.as_) with v1;
  change (Z.land x 7) with v2;
  change (utf8.acceptRanges (Z.shiftr x 4)) with v3;
  cbv iota; cbv beta; unfold fst, snd.

(** The invalid encodings: [RuneError] of width one. *)
Ltac bad Hinv E1 :=
  let H := fresh in
  intros H; apply (Hinv _ E1 H); unfold utf8.RuneError; lia.

Ltac cont b c R :=
  match goal with
  | |- context [match ?t with [] => _ | _ :: _ => _ end] =>
    destruct t as [| b ?t'];
    [ | pose proof (byteZ_range b) as R; set (c := byteZ b) in * ]
  end.

Ltac chk Hinv E1 EA :=
  match goal with
  | |- (if ?cond then (utf8.RuneError, 1) else _) = _ -> _ =>
    destruct cond eqn:EA; [bad Hinv E1 | zbool]
  end.

Ltac two Hs Hx :=
  etransitivity; [| apply lor_ge_l; apply Hx];
  apply Hs; [lia |]; change utf8.mask2 with (Z.ones 5);
  rewrite Z.land_ones by lia; change (2 ^ 5) with 32; change (2 ^ 6) with 64;
  Z.div_mod_to_equations; lia.

Ltac three Hinv E1 :=
  chk Hinv E1 ipattern:(EL);
  cont ipattern:(b1) ipattern:(c1) ipattern:(R1); [bad Hinv E1 |];
  chk Hinv E1 ipattern:(EA);
  change (3 <=? 2) with false; cbv iota;
  cont ipattern:(b2) ipattern:(c2) ipattern:(R2); [bad Hinv E1 |];
  chk Hinv E1 ipattern:(EB);
  change (3 <=? 3) with true; cbv iota;
  intros [= <- <-]; rewrite !len_cons in *;
  match goal with |- context [len ?l] => pose proof (len_nonneg l) end.

Ltac three3 Hs Hx :=
  split; [lia |]; right; split; [lia |]; split;
  [ etransitivity; [| apply lor_ge_l; apply Hx]
  | change (Z.to_nat 3) with 3%nat; unfold firstn;
    repeat constructor; lia ].

Ltac threeA Hs Hx Hsh :=
  three3 Hs Hx;
  (etransitivity; [| apply lor_ge_l; apply Hsh; [apply Hx | lia]]);
  apply Hs; [lia |]; change utf8.mask3 with (Z.ones 4);
  rewrite Z.land_ones by lia; change (2 ^ 4) with 16; change (2 ^ 12) with 4096;
  Z.div_mod_to_equations; lia.

Ltac four Hinv E1 :=
  chk Hinv E1 ipattern:(EL);
  cont ipattern:(b1) ipattern:(c1) ipattern:(R1); [bad Hinv E1 |];
  chk Hinv E1 ipattern:(EA);
  change (4 <=? 2) with false; cbv iota;
  cont ipattern:(b2) ipattern:(c2) ipattern:(R2); [bad Hinv E1 |];
  chk Hinv E1 ipattern:(EB);
  change (4 <=? 3) with false; cbv iota;
  cont ipattern:(b3) ipattern:(c3) ipattern:(R3); [bad Hinv E1 |];
  chk Hinv E1 ipattern:(EC);
  intros [= <- <-]; rewrite !len_cons in *;
  match goal with |- context [len ?l] => pose proof (len_nonneg l) end.

Ltac four4 Hs Hx Hsh :=
  split; [lia |]; right; split; [lia |]; split;
  [ (etransitivity; [| apply lor_ge_l; apply Hx]);
    (etransitivity; [| apply lor_ge_l; apply Hsh; [apply Hx | lia]])
  | change (Z.to_nat 4) with 4%nat; unfold firstn;
    repeat constructor; lia ].

Ltac fourA Hs Hx Hsh :=
  four4 Hs Hx Hsh;
  (etransitivity; [| apply lor_ge_l; apply Hsh; [apply Hx | lia]]);
  apply Hs; [lia |]; change utf8.mask4 with (Z.ones 3);
  rewrite Z.land_ones by lia; change (2 ^ 3) with 8;
  change (2 ^ 18) with 262144;
  Z.div_mod_to_equations; lia.

(** What [DecodeRune] returns on a non-empty string: a byte below [0x80]
    is a rune of its own; otherwise the rune is at least [0x80] and every
    byte it takes is at least [0x80].  The width never exceeds what is
    there. *)
Lemma DecodeRune_spec (b0 : byte) (t : gostring) (r size : Z) :
  utf8.DecodeRune (b0 :: t) = (r, size) ->
  1 <= size <= len (b0 :: t) /\
  ((byteZ b0 < 0x80 /\ size = 1 /\ r = byteZ b0) \/
   (0x80 <= byteZ b0 /\ 0x80 <= r
    /\ Forall (fun b => 0x80 <= byteZ b) (firstn (Z.to_nat size) (b0 :: t)))).
Proof.
  unfold utf8.DecodeRune.
  pose proof (byteZ_range b0) as R0.
  pose proof (len_nonneg t) as Lt.
  rewrite len_cons.
  set (c0 := byteZ b0) in *.
  assert (Hinv : forall r', 0x80 <= c0 -> (r', 1) = (r, size) -> 0x80 <= r' ->
      1 <= size <= 1 + len t /\
      (c0 < 128 /\ size = 1 /\ r = c0 \/
       128 <= c0 /\ 128 <= r
       /\ Forall (fun b => 0x80 <= byteZ b) (firstn (Z.to_nat size) (b0 :: t)))).
  { intros r' Hc [= <- <-] Hr. split; [lia |]. right. repeat split; auto.
    change (Z.to_nat 1) with 1%nat. unfold firstn.
    constructor; [exact Hc | constructor]. }
  unfold utf8.first.
  destruct (c0 <? 128) eqn:E1.
  { change (utf8.as_ >=? utf8.as_) with true. cbv iota.
    change (Z.testbit utf8.as_ 0) with false. cbv iota.
    intros [= <- <-]. zbool. split; [lia |]. left. auto. }
  zbool.
  destruct (c0 <? 194) eqn:E2.
  { change (utf8.xx >=? utf8.as_) with true. cbv iota.
    change (Z.testbit utf8.xx 0) with true. cbv iota.
    bad Hinv E1. }
  zbool.
  assert (Hnn : forall c k, 0 <= k -> 0 <= Z.land c (Z.ones k))
    by (intros; now apply land_ones_nonneg).
  assert (Hx : forall c, 0 <= Z.land c utf8.maskx)
    by (intros; apply (Hnn c 6); lia).
  assert (Hsh : forall a n, 0 <= a -> 0 <= n -> 0 <= Z.shiftl a n)
    by (intros; apply Z.shiftl_nonneg; auto).
  assert (Hs : forall a n lo, 0 <= n -> lo <= a * 2 ^ n -> lo <= Z.shiftl a n)
    by (intros; rewrite Z.shiftl_mul_pow2 by lia; auto).
  unfold utf8.locb, utf8.hicb.
  destruct (c0 <? 224) eqn:E3.
  { first_byte utf8.s1. zbool.
    chk Hinv E1 EL.
    cont b1 c1 R1; [bad Hinv E1 |].
    chk Hinv E1 EA.
    change (2 <=? 2) with true. cbv iota.
    intros [= <- <-]. rewrite len_cons in *. pose proof (len_nonneg t').
    split; [lia |]. right. split; [lia |]. split.
    - two Hs Hx.
    - change (Z.to_nat 2) with 2%nat. unfold firstn.
      repeat constructor; lia. }
  zbool.
  destruct (c0 =? 224) eqn:E4.
  { first_byte utf8.s2. zbool. three Hinv E1.
    three3 Hs Hx.
    etransitivity;
      [| rewrite Z.lor_comm; apply lor_ge_l; apply Hsh;
         [apply (Hnn c0 4) |]; lia].
    apply Hs; [lia |]. change utf8.maskx with (Z.ones 6).
    rewrite Z.land_ones by lia. change (2 ^ 6) with 64.
    Z.div_mod_to_equations. lia. }
  zbool.
  destruct (c0 <? 237) eqn:E5.
  { first_byte utf8.s3. zbool. three Hinv E1. threeA Hs Hx Hsh. }
  zbool.
  destruct (c0 =? 237) eqn:E6.
  { first_byte utf8.s4. zbool. three Hinv E1. threeA Hs Hx Hsh. }
  zbool.
  destruct (c0 <? 240) eqn:E7.
  { first_byte utf8.s3. zbool. three Hinv E1. threeA Hs Hx Hsh. }
  zbool.
  destruct (c0 =? 240) eqn:E8.
  { first_byte utf8.s5. zbool. four Hinv E1. four4 Hs Hx Hsh.
    etransitivity;
      [| rewrite Z.lor_comm; apply lor_ge_l; apply Hsh;
         [apply (Hnn c0 3) |]; lia].
    apply Hs; [lia |]. change utf8.maskx with (Z.ones 6).
    rewrite Z.land_ones by lia. change (2 ^ 6) with 64.
    change (2 ^ 12) with 4096.
    Z.div_mod_to_equations. lia. }
  zbool.
  destruct (c0 <? 244) eqn:E9.
  { first_byte utf8.s6. zbool. four Hinv E1. fourA Hs Hx Hsh. }
  zbool.
  destruct (c0 =? 244) eqn:E10.
  { first_byte utf8.s7. zbool. four Hinv E1. fourA Hs Hx Hsh. }
  zbool.
  change (utf8.xx >=? utf8.as_) with true. cbv iota.
  change (Z.testbit utf8.xx 0) with true. cbv iota.
  bad Hinv E1.
Qed.

End DecodeRune.

Lemma DecodeRune_ascii b t : byteZ b < 0x80 -> utf8.DecodeRune (b :: t) = (byteZ b, 1).
Proof.
  intros Hb. destruct (utf8.DecodeRune (b :: t)) as [r size] eqn:HD.
  apply DecodeRune_spec in HD as [_ [(_ & -> & ->) | (Hhi & _)]]; [reflexivity | lia].
Qed.

Lemma rune_bytes w rest r :
  w <> [] -> utf8.DecodeRune (w ++ rest) = (r, len w) -> runeBytes r w.
Proof.
  intros Hne HD. destruct w as [| b0 t]; [congruence |].
  pose proof HD as HD'.
  simpl app in HD. apply DecodeRune_spec in HD as [Hsz [(Hlo & Hone & ->) | (Hhi & Hr & Hall)]].
  - left. exists b0. rewrite len_cons in Hone. pose proof (len_nonneg t).
    assert (len t = 0) by lia. destruct t; [auto | rewrite len_cons in *; pose proof (len_nonneg t); lia].
  - right. repeat split; auto.
    change (b0 :: t ++ rest) with ((b0 :: t) ++ rest) in Hall.
    now rewrite firstn_len_app in Hall.
Qed.

(** ** findErrorPosition *)

(** C8. For every content and every offset that is negative or at least the
    length of the content (the length itself included),
    [findErrorPosition] returns line 1, column 1 and the empty text.  The
    function is total: it has no way to fail. *)
Theorem findErrorPosition_out_of_range (content : gostring) (byteOffset : Z) :
  byteOffset < 0 \/ byteOffset >= len content ->
  findErrorPosition content byteOffset = (1, 1, []).
Proof.
  intros Hoff. unfold findErrorPosition.
  destruct Hoff as [Hneg | Hbig].
  - apply Z.ltb_lt in Hneg. now rewrite Hneg.
  - apply Z.geb_ge in Hbig. rewrite Hbig. now rewrite orb_true_r.
Qed.

Lemma findErrorPosition_out_of_range_witness :
  (3 < 0 \/ 3 >= len (bs "a" ++ [newline] ++ bs "b"))
  /\ findErrorPosition (bs "a" ++ [newline] ++ bs "b") 3 = (1, 1, []).
Proof.
  split.
  - right. vm_compute. discriminate.
  - apply findErrorPosition_out_of_range. right. vm_compute. discriminate.
Defined.

(** ** The loops over lines and matches *)

Section Loops.

Variable ValidationOptions : Type.
Variable MaxErrors : ValidationOptions -> Z.

(** On a single line the budget test after the line makes no difference. *)
Lemma forLines_single body (opts : ValidationOptions) line i errors :
  forLines MaxErrors body opts [line] i errors = body i line errors.
Proof.
  simpl. destruct (body i line errors) as [errors' | p]; simpl; auto.
  now destruct ((MaxErrors opts >? 0) && (len errors' >=? MaxErrors opts)).
Qed.

(** If the body adds, for every line, issues that satisfy [Q] for that
    line, then the loop returns, and every issue it adds satisfies [Q] for
    some line of the input. *)
Lemma forLines_spec (Q : Z -> gostring -> ValidationError -> Prop) body
    (opts : ValidationOptions) :
  (forall i line errors,
      exists new, body i line errors = Ok (errors ++ new)
                  /\ Forall (Q i line) new) ->
  forall lines i errors,
    exists new,
      forLines MaxErrors body opts lines i errors = Ok (errors ++ new)
      /\ Forall (fun e => exists (k : nat) line,
                     nth_error lines k = Some line
                     /\ Q (i + Z.of_nat k) line e) new.
Proof.
  intros Hbody. induction lines as [| line rest IH]; intros i errors.
  - exists []. rewrite app_nil_r. split; [reflexivity | constructor].
  - cbn [forLines].
    destruct (Hbody i line errors) as (here & -> & Hhere). cbn [bind].
    assert (Hhere' : Forall (fun e => exists (k : nat) line0,
                         nth_error (line :: rest) k = Some line0
                         /\ Q (i + Z.of_nat k) line0 e) here).
    { eapply Forall_impl; [| exact Hhere]. intros e He.
      exists 0%nat, line. split; [reflexivity |]. now rewrite Z.add_0_r. }
    destruct ((MaxErrors opts >? 0) && (len (errors ++ here) >=? MaxErrors opts)).
    + exists here. auto.
    + destruct (IH (i + 1) (errors ++ here)) as (more & -> & Hmore).
      exists (here ++ more). rewrite app_assoc. split; [reflexivity |].
      apply Forall_app. split; [exact Hhere' |].
      eapply Forall_impl; [| exact Hmore]. intros e (k & l0 & Hn & HQ).
      exists (S k), l0. split; [exact Hn |].
      replace (i + Z.of_nat (S k)) with (i + 1 + Z.of_nat k) by lia. exact HQ.
Qed.

End Loops.

(** The line loop reads the budget and nothing else of the options. *)
Lemma forLines_budget_only
    (O1 O2 : Type) (M1 : O1 -> Z) (M2 : O2 -> Z) (o1 : O1) (o2 : O2) body :
  M1 o1 = M2 o2 ->
  forall lines i errors,
    forLines M1 body o1 lines i errors = forLines M2 body o2 lines i errors.
Proof.
  intros HM lines. induction lines as [| line rest IH]; intros i errors.
  - reflexivity.
  - simpl. destruct (body i line errors) as [errors' | p]; simpl; auto.
    rewrite HM. now rewrite IH.
Qed.

Lemma forMatches_spec (P : list Z -> Prop) (Q : ValidationError -> Prop) body :
  (forall m errors, P m ->
     exists new, body m errors = Ok (errors ++ new) /\ Forall Q new) ->
  forall matches errors, Forall P matches ->
    exists new, forMatches body matches errors = Ok (errors ++ new)
                /\ Forall Q new.
Proof.
  intros Hbody. induction matches as [| m rest IH]; intros errors HP.
  - exists []. rewrite app_nil_r. split; [reflexivity | constructor].
  - inversion HP as [| ? ? Hm Hrest]; subst. cbn [forMatches].
    destruct (Hbody m errors Hm) as (new1 & -> & HQ1). cbn [bind].
    destruct (IH (errors ++ new1) Hrest) as (new2 & -> & HQ2).
    exists (new1 ++ new2). rewrite app_assoc. split; [reflexivity |].
    apply Forall_app. auto.
Qed.

(** Content without a newline is one line. *)
Lemma splitAcc_no_newline s cur :
  forallb (fun b => negb (byte_eqb b newline)) s = true ->
  splitAcc newline s cur = [rev cur ++ s].
Proof.
  revert cur. induction s as [| b s IH]; intros cur Hs; simpl in *.
  - now rewrite app_nil_r.
  - apply andb_true_iff in Hs as [Hb Hs].
    apply negb_true_iff in Hb. rewrite Hb.
    rewrite IH by assumption. simpl. now rewrite <- app_assoc.
Qed.

Lemma Split_no_newline s :
  forallb (fun b => negb (byte_eqb b newline)) s = true ->
  Split s newline = [s].
Proof. intros Hs. unfold Split. now rewrite splitAcc_no_newline. Qed.

(** ** regexp: what the backtracking search finds is a match *)

Lemma step_spec s r size rest :
  step s = Some (r, size, rest) ->
  exists w, s = w ++ rest /\ w <> [] /\ len w = size
            /\ utf8.DecodeRune (w ++ rest) = (r, len w).
Proof.
  unfold step. destruct s as [| b0 t]; [discriminate |].
  destruct (utf8.DecodeRune (b0 :: t)) as [r' size'] eqn:HD.
  intros [= <- <- <-].
  pose proof (DecodeRune_spec _ _ _ _ HD) as [Hsz _].
  exists (firstn (Z.to_nat size') (b0 :: t)).
  assert (Hlen : len (firstn (Z.to_nat size') (b0 :: t)) = size').
  { unfold len in *. rewrite length_firstn. lia. }
  rewrite firstn_skipn. repeat split; auto.
  - intros Hnil. rewrite Hnil in Hlen. unfold len in Hlen. simpl in Hlen. lia.
  - now rewrite Hlen.
Qed.

Section Soundness.

Variable X : Type.

Lemma starLoop_sound (f : matcher X) R :
  soundFor f R ->
  forall fuel s pos c k x,
    starLoop f fuel s pos c k = Some x ->
    exists n w rest c', s = w ++ rest /\ Iter R n pos c w rest c'
                        /\ k rest (pos + len w) c' = Some x.
Proof.
  intros Hf. induction fuel as [| fuel IH]; intros s pos c k x H.
  - simpl in H. exists 0%nat, [], s, c. repeat split; [constructor |].
    now rewrite len_nil, Z.add_0_r.
  - simpl in H.
    destruct (f s pos c _) as [y |] eqn:Hy.
    + injection H as ->.
      apply Hf in Hy as (w1 & rest1 & c1 & -> & HR & Hk).
      destruct (pos + len w1 =? pos); [discriminate |].
      apply IH in Hk as (n & w2 & rest & c2 & -> & HI & Hk).
      exists (S n), (w1 ++ w2), rest, c2. rewrite app_assoc. repeat split.
      * econstructor; eassumption.
      * now rewrite len_app, Z.add_assoc.
    + exists 0%nat, [], s, c. repeat split; [constructor |].
      now rewrite len_nil, Z.add_0_r.
Qed.

Lemma repN_sound (f : matcher X) R :
  soundFor f R ->
  forall n s pos c k x,
    repN f n s pos c k = Some x ->
    exists w rest c', s = w ++ rest /\ Iter R n pos c w rest c'
                      /\ k rest (pos + len w) c' = Some x.
Proof.
  intros Hf. induction n as [| n IH]; intros s pos c k x H.
  - simpl in H. exists [], s, c. repeat split; [constructor |].
    now rewrite len_nil, Z.add_0_r.
  - simpl in H.
    apply Hf in H as (w1 & rest1 & c1 & -> & HR & Hk).
    apply IH in Hk as (w2 & rest & c2 & -> & HI & Hk).
    exists (w1 ++ w2), rest, c2. rewrite app_assoc. repeat split.
    + econstructor; eassumption.
    + now rewrite len_app, Z.add_assoc.
Qed.

Lemma repOpt_sound (f : matcher X) R :
  soundFor f R ->
  forall m s pos c k x,
    repOpt f m s pos c k = Some x ->
    exists n w rest c', (n <= m)%nat /\ s = w ++ rest /\ Iter R n pos c w rest c'
                        /\ k rest (pos + len w) c' = Some x.
Proof.
  intros Hf. induction m as [| m IH]; intros s pos c k x H.
  - simpl in H. exists 0%nat, [], s, c.
    split; [lia |]. split; [reflexivity |]. split; [constructor |].
    now rewrite len_nil, Z.add_0_r.
  - simpl in H.
    destruct (f s pos c _) as [y |] eqn:Hy.
    + injection H as ->.
      apply Hf in Hy as (w1 & rest1 & c1 & -> & HR & Hk).
      apply IH in Hk as (n & w2 & rest & c2 & Hn & -> & HI & Hk).
      exists (S n), (w1 ++ w2), rest, c2. rewrite app_assoc. repeat split.
      * lia.
      * econstructor; eassumption.
      * now rewrite len_app, Z.add_assoc.
    + exists 0%nat, [], s, c.
      split; [lia |]. split; [reflexivity |]. split; [constructor |].
      now rewrite len_nil, Z.add_0_r.
Qed.

Lemma Iter_app R n1 : forall n2 pos c w1 w2 rest c1 c2,
  Iter R n1 pos c w1 (w2 ++ rest) c1 ->
  Iter R n2 (pos + len w1) c1 w2 rest c2 ->
  Iter R (n1 + n2) pos c (w1 ++ w2) rest c2.
Proof.
  induction n1 as [| n1 IH]; intros n2 pos c w1 w2 rest c1 c2 H1 H2.
  - inversion H1; subst. simpl. now rewrite len_nil, Z.add_0_r in H2.
  - inversion H1 as [| ? ? ? wa wb ? ca ? HR HI]; subst.
    simpl. rewrite <- app_assoc. econstructor.
    + rewrite <- app_assoc. exact HR.
    + apply (IH n2 _ _ _ _ _ _ _ HI).
      now rewrite len_app, Z.add_assoc in H2.
Qed.

Lemma rune_sound re :
  (forall r, matchRune re r = true ->
     match re with OpLiteral _ | OpCharClass _ _ | OpAnyCharNotNL => True | _ => False end) ->
  soundFor (X := X)
           (fun s pos c k =>
              match step s with
              | Some (r, size, rest) => if matchRune re r then k rest (pos + size) c else None
              | None => None
              end)
           (fun pos c w rest c' =>
              exists r, w <> [] /\ utf8.DecodeRune (w ++ rest) = (r, len w)
                        /\ matchRune re r = true /\ c' = c).
Proof.
  intros _ s pos c k x H.
  destruct (step s) as [[[r size] rest] |] eqn:Hs; [| discriminate].
  destruct (matchRune re r) eqn:Hm; [| discriminate].
  apply step_spec in Hs as (w & -> & Hne & Hlen & HD).
  exists w, rest, c. repeat split; [| now rewrite Hlen].
  exists r. auto.
Qed.

Theorem bt_sound re : soundFor (bt (X := X) re) (Mt re).
Proof.
  induction re as [ | r | neg ranges | | | | i sub IH | sub IH | sub IH | sub IH
                  | min max sub IH | a IHa b IHb | a IHa b IHb ].
  - intros s pos c k x H. cbn [bt] in H. exists [], s, c.
    repeat split. now rewrite len_nil, Z.add_0_r.
  - apply rune_sound. auto.
  - apply rune_sound. auto.
  - apply rune_sound. auto.
  - intros s pos c k x H. cbn [bt] in H.
    destruct (pos =? 0) eqn:Hp; [| discriminate]. zbool.
    exists [], s, c. repeat split; auto. now rewrite len_nil, Z.add_0_r.
  - intros s pos c k x H. cbn [bt] in H. destruct s; [| discriminate].
    exists [], [], c. repeat split. now rewrite len_nil, Z.add_0_r.
  - intros s pos c k x H. cbn [bt] in H.
    apply IH in H as (w & rest & c1 & -> & HM & Hk).
    exists w, rest, ((i, (pos, pos + len w)) :: c1). repeat split; auto.
    simpl. eauto.
  - intros s pos c k x H. cbn [bt] in H.
    apply (starLoop_sound (bt sub) (Mt sub) IH) in H as (n & w & rest & c' & -> & HI & Hk).
    exists w, rest, c'. repeat split; auto. simpl. eauto.
  - intros s pos c k x H. cbn [bt] in H.
    apply IH in H as (w1 & rest1 & c1 & -> & HM & Hk).
    apply (starLoop_sound (bt sub) (Mt sub) IH) in Hk as (n & w2 & rest & c' & -> & HI & Hk).
    exists (w1 ++ w2), rest, c'. rewrite app_assoc. repeat split.
    + simpl. exists n. econstructor; eassumption.
    + now rewrite len_app, Z.add_assoc.
  - intros s pos c k x H. cbn [bt] in H.
    apply (repOpt_sound (bt sub) (Mt sub) IH) in H as (n & w & rest & c' & Hn & -> & HI & Hk).
    exists w, rest, c'. repeat split; auto. simpl. eauto.
  - intros s pos c k x H. cbn [bt] in H.
    apply (repN_sound (bt sub) (Mt sub) IH) in H as (w1 & rest1 & c1 & -> & HI1 & Hk).
    destruct max as [m |].
    + apply (repOpt_sound (bt sub) (Mt sub) IH) in Hk as (n & w2 & rest & c' & Hn & -> & HI2 & Hk).
      exists (w1 ++ w2), rest, c'. rewrite app_assoc. repeat split.
      * simpl. exists (min + n)%nat. repeat split; [lia | |].
        -- lia.
        -- eapply Iter_app; eassumption.
      * now rewrite len_app, Z.add_assoc.
    + apply (starLoop_sound (bt sub) (Mt sub) IH) in Hk as (n & w2 & rest & c' & -> & HI2 & Hk).
      exists (w1 ++ w2), rest, c'. rewrite app_assoc. repeat split.
      * simpl. exists (min + n)%nat. repeat split; [lia | ].
        eapply Iter_app; eassumption.
      * now rewrite len_app, Z.add_assoc.
  - intros s pos c k x H. cbn [bt] in H.
    apply IHa in H as (w1 & rest1 & c1 & -> & HM1 & Hk).
    apply IHb in Hk as (w2 & rest & c' & -> & HM2 & Hk).
    exists (w1 ++ w2), rest, c'. rewrite app_assoc. repeat split.
    + simpl. exists w1, w2, c1. auto.
    + now rewrite len_app, Z.add_assoc.
  - intros s pos c k x H. cbn [bt] in H.
    destruct (bt a s pos c k) as [y |] eqn:Hy.
    + injection H as ->. apply IHa in Hy as (w & rest & c' & -> & HM & Hk).
      exists w, rest, c'. repeat split; auto. simpl. auto.
    + apply IHb in H as (w & rest & c' & -> & HM & Hk).
      exists w, rest, c'. repeat split; auto. simpl. auto.
Qed.
End Soundness.

Lemma matchAt_sound re s pos e c :
  matchAt re s pos = Some (e, c) ->
  exists w rest, s = w ++ rest /\ Mt (expr re) pos [] w rest c
                 /\ e = pos + len w.
Proof.
  unfold matchAt. intros H.
  apply bt_sound in H as (w & rest & c' & -> & HM & [= <- <-]).
  exists w, rest. auto.
Qed.

Lemma search_sound re :
  forall s pos skip b e c,
    search re s pos skip = Some (b, e, c) ->
    exists pre w rest,
      s = pre ++ w ++ rest /\ b = pos + len pre /\ e = b + len w
      /\ Mt (expr re) b [] w rest c.
Proof.
  induction s as [| b0 t IH]; intros pos skip b e c H.
  - destruct skip; [| discriminate]. cbn [search] in H.
    destruct (matchAt re [] pos) as [[e' c'] |] eqn:Hm; [| discriminate].
    injection H as <- <- <-.
    apply matchAt_sound in Hm as (w & rest & Hs & HM & ->).
    exists [], w, rest. rewrite len_nil, Z.add_0_r.
        simpl; repeat split; auto.
  - destruct skip as [| k].
    + cbn [search] in H.
      destruct (matchAt re (b0 :: t) pos) as [[e' c'] |] eqn:Hm.
      * injection H as <- <- <-.
        apply matchAt_sound in Hm as (w & rest & Hs & HM & ->).
        exists [], w, rest. rewrite len_nil, Z.add_0_r.
        simpl; repeat split; auto.
      * apply IH in H as (pre & w & rest & -> & -> & -> & HM).
        exists (b0 :: pre), w, rest. rewrite len_cons.
        replace (pos + (1 + len pre)) with (pos + 1 + len pre) by lia.
        simpl; repeat split; auto.
    + cbn [search] in H.
      apply IH in H as (pre & w & rest & -> & -> & -> & HM).
      exists (b0 :: pre), w, rest. rewrite len_cons.
      replace (pos + (1 + len pre)) with (pos + 1 + len pre) by lia.
        simpl; repeat split; auto.
Qed.

Lemma doExecute_sound re text pos m :
  0 <= pos <= len text ->
  doExecute re text pos = Some m ->
  MatchOf re text m.
Proof.
  intros Hpos. unfold doExecute.
  destruct (search re (skipn (Z.to_nat pos) text) pos 0) as [[[b e] c] |] eqn:Hs;
    [| discriminate].
  intros [= <-].
  apply search_sound in Hs as (pre & w & rest & Htext & -> & -> & HM).
  assert (Hlen : len (firstn (Z.to_nat pos) text) = pos).
  { unfold len in *. rewrite length_firstn. lia. }
  exists (firstn (Z.to_nat pos) text ++ pre), w, rest, c.
  rewrite len_app, Hlen. repeat split; auto.
  rewrite <- app_assoc, <- Htext. now rewrite firstn_skipn.
Qed.

Lemma MatchOf_bounds re text m :
  MatchOf re text m -> 0 <= nth 0 m 0 <= nth 1 m 0 /\ nth 1 m 0 <= len text.
Proof.
  intros (pre & w & rest & c & -> & _ & ->). simpl.
  rewrite !len_app.
  pose proof (len_nonneg pre). pose proof (len_nonneg w).
  pose proof (len_nonneg rest). lia.
Qed.

Lemma allMatches_sound re text :
  forall fuel pos prev, 0 <= pos ->
    Forall (MatchOf re text) (allMatches re text fuel pos prev).
Proof.
  induction fuel as [| fuel IH]; intros pos prev Hpos; [constructor |].
  cbn [allMatches].
  destruct (len text <? pos) eqn:Hend; [constructor |]. zbool.
  destruct (doExecute re text pos) as [m |] eqn:Hex; [| constructor].
  apply doExecute_sound in Hex; [| lia].
  pose proof (MatchOf_bounds _ _ _ Hex) as Hb.
  pose proof (len_nonneg text).
  destruct (nth 1 m 0 =? pos) eqn:Hempty.
  - assert (Hpos' : 0 <= (if 0 <? snd (utf8.DecodeRune (skipn (Z.to_nat pos) text))
                          then pos + snd (utf8.DecodeRune (skipn (Z.to_nat pos) text))
                          else len text + 1)).
    { destruct (0 <? snd _) eqn:Hw; zbool; lia. }
    destruct (nth 0 m 0 =? prev).
    + apply IH. exact Hpos'.
    + constructor; [exact Hex |]. apply IH. exact Hpos'.
  - constructor; [exact Hex |]. apply IH. lia.
Qed.

Lemma FindAll_sound re text :
  Forall (MatchOf re text) (FindAllStringSubmatchIndex re text).
Proof. apply allMatches_sound. lia. Qed.

(** *** Runes, literals, alternatives and captures *)

(** A rune operator that accepts no rune equal to the ASCII character [x]
    consumes no byte equal to [x]. *)
Lemma rune_op_avoids re (x : byte) pos c w rest c' :
  match re with OpLiteral _ | OpCharClass _ _ | OpAnyCharNotNL => True | _ => False end ->
  byteZ x < 0x80 ->
  matchRune re (byteZ x) = false ->
  Mt re pos c w rest c' ->
  c' = c /\ w <> [] /\ Forall (fun b => b <> x) w
  /\ exists r, runeBytes r w /\ matchRune re r = true.
Proof.
  intros Hop Hx Hre HM.
  assert (H : exists r, w <> [] /\ utf8.DecodeRune (w ++ rest) = (r, len w)
                        /\ matchRune re r = true /\ c' = c).
  { destruct re; try contradiction; exact HM. }
  destruct H as (r & Hne & HD & Hm & ->).
  pose proof (rune_bytes _ _ _ Hne HD) as Hb.
  repeat split; auto.
  - destruct Hb as [(b & -> & Hbr & _) | (Hr & _ & Hall)].
    + constructor; [| constructor]. intros ->. congruence.
    + eapply Forall_impl; [| exact Hall]. intros b Hb ->. simpl in Hb. lia.
  - exists r. auto.
Qed.

Lemma Iter_avoids (R : Z -> caps -> gostring -> gostring -> caps -> Prop) (P : byte -> Prop) :
  (forall pos c w rest c', R pos c w rest c' -> c' = c /\ Forall P w) ->
  forall n pos c w rest c', Iter R n pos c w rest c' -> c' = c /\ Forall P w.
Proof.
  intros HR. induction n as [| n IH]; intros pos c w rest c' H.
  - inversion H; subst. auto.
  - inversion H as [| ? ? ? w1 w2 ? c1 ? H1 H2]; subst.
    apply HR in H1 as [-> Hw1]. apply IH in H2 as [-> Hw2].
    split; [reflexivity |]. apply Forall_app. auto.
Qed.

Lemma Mt_literalText re : forall l pos c w rest c',
  literalText re = Some l -> Mt re pos c w rest c' -> w = l /\ c' = c.
Proof.
  induction re; intros l pos c w rest c' Hl HM; try discriminate.
  - simpl in Hl. destruct ((0 <=? r) && (r <? 128)) eqn:Hr; [| discriminate].
    injection Hl as <-. zbool.
    destruct HM as (r' & Hne & HD & Hm & ->). simpl in Hm. zbool. subst r'.
    split; [| reflexivity].
    destruct (rune_bytes _ _ _ Hne HD) as [(b & -> & <- & _) | (Hr & _)]; [| lia].
    now rewrite byte_of_Z_byteZ.
  - simpl in Hl.
    destruct (literalText re1) as [x |]; [| discriminate].
    destruct (literalText re2) as [y |]; [| discriminate].
    injection Hl as <-.
    destruct HM as (w1 & w2 & c1 & -> & H1 & H2).
    apply (IHre1 x) in H1 as [-> ->]; [| reflexivity].
    apply (IHre2 y) in H2 as [-> ->]; [| reflexivity].
    auto.
Qed.

Lemma Mt_alternatives re : forall pos c w rest c',
  Mt re pos c w rest c' ->
  exists a, In a (alternatives re) /\ Mt a pos c w rest c'.
Proof.
  induction re; intros pos c w rest c' HM;
    try (eexists; split; [left; reflexivity | exact HM]).
  destruct HM as [HM | HM].
  - apply IHre1 in HM as (a & Ha & HM). exists a. split; [| exact HM].
    simpl. apply in_or_app. auto.
  - apply IHre2 in HM as (a & Ha & HM). exists a. split; [| exact HM].
    simpl. apply in_or_app. auto.
Qed.

Lemma Mt_one_of re tags pos c w rest c' :
  map literalText (alternatives re) = map Some tags ->
  Mt re pos c w rest c' -> In w tags /\ c' = c.
Proof.
  intros Htags HM.
  apply Mt_alternatives in HM as (a & Ha & HM).
  apply (in_map literalText) in Ha. rewrite Htags in Ha.
  apply in_map_iff in Ha as (t & Ht & Hin).
  symmetry in Ht. destruct (Mt_literalText _ _ _ _ _ _ _ Ht HM) as [-> ->]. auto.
Qed.

Lemma Iter_caps (R : Z -> caps -> gostring -> gostring -> caps -> Prop) :
  (forall pos c w rest c', R pos c w rest c' -> c' = c) ->
  forall n pos c w rest c', Iter R n pos c w rest c' -> c' = c.
Proof.
  intros HR. induction n as [| n IH]; intros pos c w rest c' H.
  - now inversion H.
  - inversion H as [| ? ? ? w1 w2 ? c1 ? H1 H2]; subst.
    apply HR in H1 as ->. now apply IH in H2.
Qed.

Lemma Mt_captureFree re :
  captureFree re = true ->
  forall pos c w rest c', Mt re pos c w rest c' -> c' = c.
Proof.
  induction re; intros Hf pos c w rest c' HM; simpl in Hf; try discriminate.
  - destruct HM as [_ HM]. exact HM.
  - destruct HM as (? & _ & _ & _ & HM). exact HM.
  - destruct HM as (? & _ & _ & _ & HM). exact HM.
  - destruct HM as (? & _ & _ & _ & HM). exact HM.
  - destruct HM as (_ & _ & HM). exact HM.
  - destruct HM as (_ & _ & HM). exact HM.
  - destruct HM as (n & HI). eapply Iter_caps; [exact (IHre Hf) | exact HI].
  - destruct HM as (n & HI). eapply Iter_caps; [exact (IHre Hf) | exact HI].
  - destruct HM as (n & _ & HI). eapply Iter_caps; [exact (IHre Hf) | exact HI].
  - destruct HM as (n & _ & _ & HI). eapply Iter_caps; [exact (IHre Hf) | exact HI].
  - apply andb_true_iff in Hf as [Ha Hb].
    destruct HM as (w1 & w2 & c1 & -> & H1 & H2).
    apply (IHre1 Ha) in H1 as ->. now apply (IHre2 Hb) in H2.
  - apply andb_true_iff in Hf as [Ha Hb].
    destruct HM as [HM | HM]; [now apply (IHre1 Ha) in HM | now apply (IHre2 Hb) in HM].
Qed.

(** ** validateControlCharacters *)

Lemma rangeFrom_skip (k : nat) :
  forall s j, rangeFrom s j k = rangeFrom (skipn k s) (j + Z.of_nat k) 0.
Proof.
  induction k as [| k IH]; intros s j.
  - simpl. now rewrite Z.add_0_r.
  - destruct s as [| b s]; [reflexivity |].
    simpl rangeFrom at 1. simpl skipn. rewrite IH. f_equal. lia.
Qed.

Lemma firstControlByte_skip (k : nat) :
  forall s j, Forall (fun b => 0x80 <= byteZ b) (firstn k s) ->
    firstControlByte s j = firstControlByte (skipn k s) (j + Z.of_nat k).
Proof.
  induction k as [| k IH]; intros s j H.
  - simpl. now rewrite Z.add_0_r.
  - destruct s as [| b s]; [reflexivity |].
    simpl in H. inversion H as [| ? ? Hb Hs]; subst.
    simpl firstControlByte at 1. simpl skipn.
    assert (isControl (byteZ b) = false) as ->.
    { unfold isControl. destruct (byteZ b <? 32) eqn:E; [zbool; lia | reflexivity]. }
    rewrite IH by assumption. f_equal. lia.
Qed.

Lemma controlScan_bytes i lineStr errors :
  forall n s j, (List.length s <= n)%nat ->
    controlScan (rangeFrom s j 0) i lineStr errors
    = match firstControlByte s j with
      | Some (k, b) =>
        errors ++ [ {| LineNumber := i + 1; Column := k + 1; Line := lineStr;
                       ErrorType := bs "Control character";
                       Message := bs "Control character (hex 0x" ++ fmt02X (byteZ b) ++ bs ") found";
                       Content := [b] |} ]
      | None => errors
      end.
Proof.
  induction n as [| n IH]; intros s j Hn.
  - destruct s; [reflexivity | simpl in Hn; lia].
  - destruct s as [| b0 t]; [reflexivity |].
    cbn [rangeFrom].
    destruct (utf8.DecodeRune (b0 :: t)) as [r size] eqn:HD.
    apply DecodeRune_spec in HD as [Hsz [(Hlo & -> & ->) | (Hhi & Hr & Hall)]].
    + cbn [controlScan firstControlByte].
      destruct (isControl (byteZ b0)) eqn:Hc.
      * unfold utf8.EncodeRune.
        pose proof (byteZ_range b0).
        replace ((0 <=? byteZ b0) && (byteZ b0 <=? utf8.rune1Max)) with true.
        -- now rewrite byte_of_Z_byteZ.
        -- symmetry. apply andb_true_iff. unfold utf8.rune1Max. split; apply Z.leb_le; lia.
      * change (Z.to_nat (1 - 1)) with 0%nat. apply IH. simpl in Hn. lia.
    + cbn [controlScan].
      assert (isControl r = false) as ->.
      { unfold isControl. destruct (r <? 32) eqn:E; [zbool; lia | reflexivity]. }
      rewrite rangeFrom_skip.
      rewrite (firstControlByte_skip (Z.to_nat size) (b0 :: t) j Hall).
      replace (Z.to_nat size) with (S (Z.to_nat (size - 1))) by lia.
      cbn [skipn].
      replace (j + Z.of_nat (S (Z.to_nat (size - 1)))) with (j + 1 + Z.of_nat (Z.to_nat (size - 1))) by lia.
      apply IH. rewrite length_skipn. simpl in Hn. lia.
Qed.

Lemma isControl_ascii c : isControl c = true -> c < 0x80.
Proof.
  unfold isControl. intros H. zbool. lia.
Qed.

Lemma firstControlByte_spec s :
  forall j k b, firstControlByte s j = Some (k, b) ->
    exists idx : nat,
      k = j + Z.of_nat idx
      /\ nth_error s idx = Some b
      /\ isControl (byteZ b) = true
      /\ (forall idx' b', (idx' < idx)%nat -> nth_error s idx' = Some b' ->
                          isControl (byteZ b') = false)
      /\ utf8.DecodeRune (skipn idx s) = (byteZ b, 1).
Proof.
  induction s as [| b0 t IH]; intros j k b H; [discriminate |].
  simpl in H. destruct (isControl (byteZ b0)) eqn:Hc.
  - injection H as <- <-. exists 0%nat. repeat split.
    + lia.
    + assumption.
    + intros idx' b' Hlt. lia.
    + simpl skipn. apply DecodeRune_ascii. now apply isControl_ascii.
  - apply IH in H as (idx & -> & Hn & Hb & Hbefore & HD).
    exists (S idx). repeat split; auto.
    + lia.
    + intros [| idx'] b' Hlt Hn'.
      * simpl in Hn'. injection Hn' as <-. assumption.
      * simpl in Hn'. apply (Hbefore idx'); [lia | assumption].
Qed.

Section ControlLoop.
Variable ValidationOptions : Type.
Variable MaxErrors : ValidationOptions -> Z.

Lemma controlLine_spec i line errors :
  exists new,
    controlLine i line errors = Ok (errors ++ new)
    /\ (List.length new <= 1)%nat
    /\ forall e, In e new -> LineNumber e = i + 1 /\ controlIssueOn line e.
Proof.
  unfold controlLine, rangeString.
  rewrite (controlScan_bytes i line errors (List.length line) line 0 (le_n _)).
  destruct (firstControlByte line 0) as [[k b] |] eqn:Hf.
  - eexists. split; [reflexivity |]. split; [simpl; lia |].
    intros e [<- | []]. split; [reflexivity |].
    apply firstControlByte_spec in Hf as (idx & -> & Hn & Hb & Hbefore & HD).
    exists idx, b. repeat split; auto.
  - exists []. rewrite app_nil_r. split; [reflexivity |]. split; [simpl; lia |].
    intros e [].
Qed.

Lemma control_forLines (opts : ValidationOptions) :
  forall lines i errors, exists new,
    forLines MaxErrors controlLine opts lines i errors = Ok (errors ++ new)
    /\ NoDup (map LineNumber new)
    /\ forall e, In e new ->
         exists (k : nat) line,
           nth_error lines k = Some line
           /\ LineNumber e = i + Z.of_nat k + 1
           /\ controlIssueOn line e.
Proof.
  induction lines as [| line rest IH]; intros i errors.
  - exists []. rewrite app_nil_r. repeat split; [constructor | intros e []].
  - cbn [forLines].
    destruct (controlLine_spec i line errors) as (here & -> & Hlen & Hhere).
    cbn [bind].
    assert (Hhere' : forall e, In e here ->
              exists (k : nat) line0, nth_error (line :: rest) k = Some line0
                /\ LineNumber e = i + Z.of_nat k + 1 /\ controlIssueOn line0 e).
    { intros e He. destruct (Hhere e He) as [Hl Hc].
      exists 0%nat, line. repeat split; auto. lia. }
    assert (Hnd : NoDup (map LineNumber here)).
    { destruct here as [| e0 [| e1 here]]; [constructor | | simpl in Hlen; lia].
      simpl. constructor; [intros [] | constructor]. }
    destruct ((MaxErrors opts >? 0) && (len (errors ++ here) >=? MaxErrors opts)).
    + exists here. auto.
    + destruct (IH (i + 1) (errors ++ here)) as (more & -> & Hnd' & Hmore).
      exists (here ++ more). rewrite app_assoc. split; [reflexivity |]. split.
      * rewrite map_app.
        destruct here as [| e0 [| e1 here]]; [exact Hnd' | | simpl in Hlen; lia].
        simpl. constructor; [| exact Hnd'].
        intros Hin. apply in_map_iff in Hin as (e & Heq & He).
        destruct (Hmore e He) as (k & l0 & _ & Hl & _).
        destruct (Hhere e0 (or_introl eq_refl)) as [Hl0 _]. lia.
      * intros e He. apply in_app_or in He as [He | He]; [auto |].
        destruct (Hmore e He) as (k & l0 & Hn & Hl & Hc).
        exists (S k), l0. repeat split; auto. lia.
Qed.

(** A line that has a control character gets an issue. *)
Lemma firstControlByte_some s : forall j b,
  In b s -> isControl (byteZ b) = true -> firstControlByte s j <> None.
Proof.
  induction s as [| b0 t IH]; intros j b Hin Hb; [contradiction |].
  simpl. destruct (isControl (byteZ b0)) eqn:Hc; [discriminate |].
  destruct Hin as [-> | Hin]; [congruence |]. now apply (IH (j + 1) b).
Qed.

Lemma controlLine_reports i line errors b :
  In b line -> isControl (byteZ b) = true ->
  exists e, controlLine i line errors = Ok (errors ++ [e])
            /\ LineNumber e = i + 1 /\ controlIssueOn line e.
Proof.
  intros Hin Hb.
  destruct (controlLine_spec i line errors) as (new & E & Hlen & Hnew).
  destruct new as [| e [| e' new]]; [| | simpl in Hlen; lia].
  - exfalso. revert E. unfold controlLine, rangeString.
    rewrite (controlScan_bytes i line errors (List.length line) line 0 (le_n _)).
    destruct (firstControlByte line 0) as [[k b0] |] eqn:Hf.
    + intros [= E]. rewrite app_nil_r in E.
      apply (f_equal (@List.length ValidationError)) in E.
      rewrite length_app in E. simpl in E. lia.
    + now apply (firstControlByte_some line 0 b) in Hf.
  - exists e. split; [exact E |]. apply Hnew. now left.
Qed.

(** The loop reports every line that has a control character, until the
    budget stops it, and it stops with exactly as many issues as the
    budget allows. *)
Lemma control_forLines_full (opts : ValidationOptions) :
  forall lines i errors, exists new,
    forLines MaxErrors controlLine opts lines i errors = Ok (errors ++ new)
    /\ (len errors < MaxErrors opts -> len (errors ++ new) <= MaxErrors opts)
    /\ forall (k : nat) line b,
         nth_error lines k = Some line ->
         In b line -> isControl (byteZ b) = true ->
         (exists e, In e new /\ LineNumber e = i + Z.of_nat k + 1
                    /\ controlIssueOn line e)
         \/ (0 < MaxErrors opts /\ MaxErrors opts <= len (errors ++ new)
             /\ forall e, In e new -> LineNumber e <= i + Z.of_nat k).
Proof.
  induction lines as [| line rest IH]; intros i errors.
  - exists []. rewrite app_nil_r. split; [reflexivity |].
    split; [lia |]. intros [| k] l b Hn; discriminate.
  - cbn [forLines].
    destruct (controlLine_spec i line errors) as (here & Ehere & Hlen & Hhere).
    rewrite Ehere. cbn [bind].
    assert (Hh : len here <= 1) by (unfold len; lia).
    assert (Hfirst : forall b, In b line -> isControl (byteZ b) = true ->
              exists e, In e here /\ LineNumber e = i + 1 /\ controlIssueOn line e).
    { intros b Hin Hb.
      destruct (controlLine_reports i line errors b Hin Hb) as (e & Ee & Hl & Hc).
      rewrite Ehere in Ee. injection Ee as Ee. apply app_inv_head in Ee. subst here.
      exists e. split; [now left | auto]. }
    destruct ((MaxErrors opts >? 0) && (len (errors ++ here) >=? MaxErrors opts)) eqn:Hc.
    + zbool. exists here. split; [reflexivity |].
      split; [rewrite len_app; lia |].
      intros [| k] l b Hn Hin Hb.
      * injection Hn as <-. left.
        destruct (Hfirst b Hin Hb) as (e & He & Hl & Hi).
        exists e. split; [exact He |]. split; [lia | exact Hi].
      * right. split; [lia |]. split; [lia |].
        intros e He. destruct (Hhere e He) as [Hl _]. lia.
    + destruct (IH (i + 1) (errors ++ here)) as (more & -> & Hbound & Hmore).
      exists (here ++ more). rewrite app_assoc. split; [reflexivity |].
      split.
      { intros Hlt. apply Hbound. pose proof (len_nonneg errors).
        apply andb_false_iff in Hc as [Hc | Hc]; zbool; lia. }
      intros [| k] l b Hn Hin Hb.
      * injection Hn as <-. left.
        destruct (Hfirst b Hin Hb) as (e & He & Hl & Hi).
        exists e. split; [apply in_or_app; now left |].
        split; [lia | exact Hi].
      * simpl in Hn.
        destruct (Hmore k l b Hn Hin Hb) as [(e & He & Hl & Hi) | (HN & Hge & Hle)].
        -- left. exists e. split; [apply in_or_app; now right |].
           split; [lia | exact Hi].
        -- right. split; [exact HN |]. split; [exact Hge |].
           intros e He. apply in_app_or in He as [He | He].
           ++ destruct (Hhere e He) as [Hl _]. lia.
           ++ specialize (Hle e He). lia.
Qed.

(** C7. [validateControlCharacters] always returns a list.  No two issues
    of the list carry the same line number, so a line gets at most one
    issue; and the issue of a line is the one for its first control
    character: the byte at the reported column is a control character
    (below 32 and not tab, CR or LF), no byte to its left is one, it is the
    highlighted text and the message names its code in hexadecimal.
    Control characters further to the right on the line leave no trace.
    The issue is produced: every line that has a control character has its
    issue in the list, unless the budget has stopped the checker before
    that line, and then the list holds exactly as many issues as the budget
    allows, all of them for earlier lines. *)
Theorem control_character_first_only (content : gostring) (opts : ValidationOptions) :
  exists errs,
    validateControlCharacters MaxErrors content opts = Ok errs
    /\ NoDup (map LineNumber errs)
    /\ (forall e, In e errs ->
          exists (k : nat) line,
            nth_error (Split content newline) k = Some line
            /\ LineNumber e = Z.of_nat k + 1
            /\ controlIssueOn line e)
    /\ (forall (k : nat) line b,
          nth_error (Split content newline) k = Some line ->
          In b line -> isControl (byteZ b) = true ->
          (exists e, In e errs /\ LineNumber e = Z.of_nat k + 1
                     /\ controlIssueOn line e)
          \/ (0 < MaxErrors opts /\ len errs = MaxErrors opts
              /\ forall e, In e errs -> LineNumber e <= Z.of_nat k)).
Proof.
  unfold validateControlCharacters.
  destruct (control_forLines opts (Split content newline) 0 [])
    as (new & H & Hnd & Hall).
  destruct (control_forLines_full opts (Split content newline) 0 [])
    as (new' & H' & Hbound & Hfull).
  rewrite H in H'. injection H' as <-.
  exists new. simpl in H. split; [exact H |]. split; [exact Hnd |].
  split; [exact Hall |].
  intros k line b Hn Hin Hb.
  destruct (Hfull k line b Hn Hin Hb) as [(e & He & Hl & Hi) | (HN & Hge & Hle)].
  - left. exists e. split; [exact He |]. split; [lia | exact Hi].
  - right. split; [exact HN |]. split.
    + cbn [app] in Hge, Hbound. rewrite len_nil in Hbound.
      specialize (Hbound HN). lia.
    + intros e He. specialize (Hle e He). lia.
Qed.
End ControlLoop.

(** The example of the specification: control bytes at columns 3 and 7 of a
    line give one issue, at column 3. *)
Lemma control_two_bytes_example :
  exists e,
    validateControlCharacters Plain.MaxErrors
      (bs "ab" ++ [x01] ++ bs "cde" ++ [x02] ++ bs "f") (Plain.mkOptions 5 false)
    = Ok [e]
    /\ LineNumber e = 1 /\ Column e = 3 /\ Content e = [x01]
    /\ Message e = bs "Control character (hex 0x01) found".
Proof. eexists. split; [vm_compute; reflexivity |]. repeat split. Qed.

(** ** validateHexColors *)

(** C6. Each on a line of its own, [#12], [#1234] and [#1234567] are
    reported as invalid hex colors, with the hex run as the highlighted
    text; [#123] and [#123456] are not reported.  This holds for every
    budget. *)
Theorem validateHexColors_boundary :
  forall (ValidationOptions : Type) (MaxErrors : ValidationOptions -> Z)
         (opts : ValidationOptions),
    (exists e, validateHexColors MaxErrors (bs "#12") opts = Ok [e]
               /\ ErrorType e = bs "Invalid hex color"
               /\ Content e = bs "#12" /\ LineNumber e = 1 /\ Column e = 1)
    /\ validateHexColors MaxErrors (bs "#123") opts = Ok []
    /\ (exists e, validateHexColors MaxErrors (bs "#1234") opts = Ok [e]
               /\ ErrorType e = bs "Invalid hex color"
               /\ Content e = bs "#1234" /\ LineNumber e = 1 /\ Column e = 1)
    /\ validateHexColors MaxErrors (bs "#123456") opts = Ok []
    /\ (exists e, validateHexColors MaxErrors (bs "#1234567") opts = Ok [e]
               /\ ErrorType e = bs "Invalid hex color"
               /\ Content e = bs "#1234567" /\ LineNumber e = 1 /\ Column e = 1).
Proof.
  intros VO ME opts.
  assert (Hre : exists re, MustCompile patInvalidHex = Ok re
                           /\ forall s, validateHexColors ME s opts
                                        = forLines ME (hexLine re) opts (Split s newline) 0 []).
  { destruct (MustCompile patInvalidHex) as [re | p] eqn:H;
      [| vm_compute in H; discriminate].
    exists re. split; [reflexivity |]. intros s.
    unfold validateHexColors. now rewrite H. }
  destruct Hre as (re & Hre & Hval).
  vm_compute in Hre. injection Hre as <-.
  repeat split.
  - eexists. rewrite Hval, Split_no_newline by reflexivity.
    rewrite forLines_single. split; [vm_compute; reflexivity |]. repeat split.
  - rewrite Hval, Split_no_newline by reflexivity.
    rewrite forLines_single. vm_compute; reflexivity.
  - eexists. rewrite Hval, Split_no_newline by reflexivity.
    rewrite forLines_single. split; [vm_compute; reflexivity |]. repeat split.
  - rewrite Hval, Split_no_newline by reflexivity.
    rewrite forLines_single. vm_compute; reflexivity.
  - eexists. rewrite Hval, Split_no_newline by reflexivity.
    rewrite forLines_single. split; [vm_compute; reflexivity |]. repeat split.
Qed.

Lemma invalidHex_MatchOf re text m :
  MustCompile patInvalidHex = Ok re ->
  MatchOf re text m -> invalidHexMatch text m.
Proof.
  intros Hre (pre & w & rest & c & -> & HM & ->).
  vm_compute in Hre. injection Hre as <-.
  cbn [expr] in HM.
  exists pre, w, rest.
  destruct HM as [HM | [HM | HM]].
  - destruct HM as (w1 & w' & c1 & -> & H1 & HM).
    destruct HM as (w2 & w3 & c2 & -> & H2 & H3).
    apply Mt_captureFree in H1 as ->; [| reflexivity].
    apply Mt_captureFree in H2 as ->; [| reflexivity].
    destruct H3 as (c3 & H3 & ->).
    apply Mt_captureFree in H3 as ->; [| reflexivity].
    eexists _, _. split; [reflexivity |].
    unfold indices. cbn [numSubexp seq flat_map getCap Nat.eqb app].
    split; [reflexivity |]. right.
    rewrite !len_app.
    pose proof (len_nonneg w1). pose proof (len_nonneg w2).
    pose proof (len_nonneg w3). lia.
  - destruct HM as (w1 & w' & c1 & -> & H1 & HM).
    destruct HM as (w2 & w3 & c2 & -> & H2 & H3).
    apply Mt_captureFree in H1 as ->; [| reflexivity].
    apply Mt_captureFree in H2 as ->; [| reflexivity].
    destruct H3 as (c3 & H3 & ->).
    apply Mt_captureFree in H3 as ->; [| reflexivity].
    eexists _, _. split; [reflexivity |].
    unfold indices. cbn [numSubexp seq flat_map getCap Nat.eqb app].
    split; [reflexivity |]. now left.
  - apply Mt_captureFree in HM as ->; [| reflexivity].
    eexists _, _. split; [reflexivity |].
    unfold indices. cbn [numSubexp seq flat_map getCap Nat.eqb app].
    split; [reflexivity |]. now left.
Qed.

Lemma hexMatch_spec i text m errors :
  invalidHexMatch text m ->
  exists e, hexMatch i text m errors = Ok (errors ++ [e]).
Proof.
  intros (pre & w & rest & g1 & others & -> & -> & Hg).
  unfold hexMatch.
  erewrite (index_nth _ 0) by reflexivity. cbn [bind].
  erewrite (index_nth _ 1) by reflexivity. cbn [bind].
  erewrite (index_nth _ 2) by reflexivity. cbn [bind].
  pose proof (len_nonneg pre). pose proof (len_nonneg w).
  pose proof (len_nonneg rest).
  destruct (slice_ok (pre ++ w ++ rest) (len pre)
              (if negb (g1 =? -1) then g1 else len pre + len w)) as (r & ->).
  - destruct (g1 =? -1) eqn:E; simpl; zbool; lia.
  - rewrite !len_app. destruct (g1 =? -1) eqn:E; simpl; zbool; lia.
  - cbn [bind]. eexists. reflexivity.
Qed.

Lemma hexLine_spec re :
  MustCompile patInvalidHex = Ok re ->
  forall i text errors,
    exists new, hexLine re i text errors = Ok (errors ++ new)
                /\ Forall (fun _ => True) new.
Proof.
  intros Hre i text errors. unfold hexLine.
  apply (forMatches_spec (invalidHexMatch text)).
  - intros m errs Hm. destruct (hexMatch_spec i text m errs Hm) as (e & ->).
    exists [e]. split; [reflexivity |]. repeat constructor.
  - eapply Forall_impl; [| apply FindAll_sound].
    intros m. now apply invalidHex_MatchOf.
Qed.

(** ** validateSVG *)

Lemma selfClosing_MatchOf re text m :
  MustCompile patSVGSelfClosing = Ok re ->
  MatchOf re text m -> selfClosingMatch text m.
Proof.
  intros Hre (pre & w & rest & c & -> & HM & ->).
  vm_compute in Hre. injection Hre as <-.
  cbn [expr] in HM.
  destruct HM as (w1 & w' & c1 & -> & H1 & HM).
  destruct HM as (w2 & w'' & c2 & -> & H2 & HM).
  destruct HM as (w3 & w''' & c3 & -> & H3 & HM).
  destruct HM as (w4 & w5 & c4 & -> & H4 & H5).
  apply (Mt_literalText _ (bs "<")) in H1 as [-> ->]; [| reflexivity].
  destruct H2 as (c2' & H2 & ->).
  apply (Mt_one_of _ voidTags) in H2 as [Htag ->]; [| reflexivity].
  destruct H3 as (n & H3).
  apply (Iter_avoids _ (fun b => b <> x3e)) in H3 as [-> Hmid].
  2:{ intros p0 c0 w0 rest0 c0' HR.
      apply (rune_op_avoids _ x3e) in HR as (-> & _ & Hall & _); auto.
      vm_compute. reflexivity. }
  apply (rune_op_avoids _ x2f) in H4 as (-> & Hne & Hlast & (r & Hr & Hm)); [| exact I | vm_compute; reflexivity | reflexivity].
  apply (Mt_literalText _ (bs ">")) in H5 as [-> ->]; [| reflexivity].
  exists pre, w2, w3, w4, rest, r.
  split; [reflexivity |]. split; [assumption |]. split; [assumption |].
  split; [assumption |]. split.
  - intros ->. vm_compute in Hm. discriminate.
  - unfold indices. cbn [numSubexp seq flat_map getCap Nat.eqb app].
    rewrite !len_app. change (len (bs "<")) with 1. repeat f_equal; lia.
Qed.

Lemma closing_compiles tag :
  In tag voidTags -> exists re, MustCompile (bs "</" ++ tag ++ bs ">") = Ok re.
Proof.
  intros H. unfold voidTags in H. simpl in H.
  repeat (destruct H as [<- | H]; [eexists; vm_compute; reflexivity |]).
  contradiction.
Qed.

Lemma svgSelfClosingMatch_spec i text m errors :
  selfClosingMatch text m ->
  exists new,
    svgSelfClosingMatch i text m errors = Ok (errors ++ new)
    /\ Forall (fun e => ErrorType e = selfClosingType /\ selfClosingIssue i text e) new.
Proof.
  intros (pre & tag & mid & last & rest & r & Htext & Htag & Hmid & Hr & Hr' & ->).
  unfold svgSelfClosingMatch.
  erewrite (index_nth _ 2) by reflexivity. cbn [bind].
  erewrite (index_nth _ 3) by reflexivity. cbn [bind].
  rewrite (slice_in text (pre ++ bs "<") tag (mid ++ last ++ bs ">" ++ rest)).
  2:{ rewrite Htext. now rewrite <- !app_assoc. }
  2:{ rewrite len_app. reflexivity. }
  2:{ rewrite len_app. reflexivity. }
  cbn [bind].
  destruct (closing_compiles tag Htag) as (reClose & ->). cbn [bind].
  erewrite (index_nth _ 1) by reflexivity. cbn [bind].
  rewrite (sliceFrom_in text (pre ++ bs "<" ++ tag ++ mid ++ last ++ bs ">") rest).
  2:{ rewrite Htext. now rewrite <- !app_assoc. }
  2:{ symmetry. apply len_app. }
  cbn [bind].
  destruct (negb (MatchString reClose rest)).
  - erewrite (index_nth _ 0) by reflexivity. cbn [bind].
    rewrite (slice_in text pre (bs "<" ++ tag ++ mid ++ last ++ bs ">") rest); auto.
    cbn [bind]. eexists. split; [reflexivity |].
    constructor; [| constructor]. split; [reflexivity |].
    exists pre, tag, mid, last, rest, r. repeat split; auto.
  - exists []. rewrite app_nil_r. split; [reflexivity | constructor].
Qed.

Lemma unquotedAttr_MatchOf re text m :
  MustCompile patSVGUnquotedAttr = Ok re ->
  MatchOf re text m -> unquotedAttrMatch text m.
Proof.
  intros Hre (pre & w & rest & c & -> & HM & ->).
  vm_compute in Hre. injection Hre as <-.
  cbn [expr] in HM.
  destruct HM as (w1 & w' & c1 & -> & H1 & HM).
  destruct HM as (w2 & w'' & c2 & -> & H2 & HM).
  destruct HM as (w3 & w''' & c3 & -> & H3 & HM).
  destruct HM as (w4 & w'''' & c4 & -> & H4 & HM).
  destruct HM as (w5 & w''''' & c5 & -> & H5 & HM).
  destruct HM as (w6 & w'''''' & c6 & -> & H6 & HM).
  destruct HM as (w7 & w8 & c7 & -> & H7 & H8).
  apply Mt_captureFree in H1 as ->; [| reflexivity].
  apply Mt_captureFree in H2 as ->; [| reflexivity].
  apply Mt_captureFree in H3 as ->; [| reflexivity].
  apply Mt_captureFree in H4 as ->; [| reflexivity].
  apply Mt_captureFree in H5 as ->; [| reflexivity].
  destruct H6 as (c6' & H6 & ->).
  apply Mt_captureFree in H6 as ->; [| reflexivity].
  apply Mt_captureFree in H7 as ->; [| reflexivity].
  destruct H8 as (c8' & H8 & ->).
  apply Mt_captureFree in H8 as ->; [| reflexivity].
  exists (pre ++ w1 ++ w2 ++ w3 ++ w4 ++ w5), w6, (w7 ++ w8 ++ rest),
         (pre ++ w1 ++ w2 ++ w3 ++ w4 ++ w5 ++ w6 ++ w7), w8, rest.
  eexists _, _.
  split; [now rewrite <- !app_assoc |].
  split; [now rewrite <- !app_assoc |].
  unfold indices. cbn [numSubexp seq flat_map getCap Nat.eqb app].
  rewrite !len_app. list_lia.
Qed.

Lemma svgUnquotedAttrMatch_spec i text m errors :
  unquotedAttrMatch text m ->
  exists e,
    svgUnquotedAttrMatch i text m errors = Ok (errors ++ [e])
    /\ ErrorType e = unquotedAttrType.
Proof.
  intros (a & name & post1 & b & value & post2 & m0 & m1 & Ht1 & Ht2 & ->).
  unfold svgUnquotedAttrMatch.
  erewrite (index_nth _ 2) by reflexivity. cbn [bind].
  erewrite (index_nth _ 3) by reflexivity. cbn [bind].
  rewrite (slice_in text a name post1); auto. cbn [bind].
  erewrite (index_nth _ 4) by reflexivity. cbn [bind].
  erewrite (index_nth _ 5) by reflexivity. cbn [bind].
  rewrite (slice_in text b value post2); auto. cbn [bind].
  eexists. split; reflexivity.
Qed.

Lemma svgLine_spec re1 re2 :
  MustCompile patSVGSelfClosing = Ok re1 ->
  MustCompile patSVGUnquotedAttr = Ok re2 ->
  forall i text errors,
    exists new, svgLine re1 re2 i text errors = Ok (errors ++ new)
                /\ Forall (svgIssue i text) new.
Proof.
  intros H1 H2 i text errors. unfold svgLine.
  destruct (forMatches_spec (selfClosingMatch text) (svgIssue i text)
              (svgSelfClosingMatch i text)) with
      (matches := FindAllStringSubmatchIndex re1 text) (errors := errors)
    as (new1 & -> & HQ1).
  { intros m errs Hm.
    destruct (svgSelfClosingMatch_spec i text m errs Hm) as (new & -> & Hnew).
    exists new. split; [reflexivity |].
    eapply Forall_impl; [| exact Hnew]. intros e He. now left. }
  { eapply Forall_impl; [| apply FindAll_sound].
    intros m. now apply selfClosing_MatchOf. }
  cbn [bind].
  destruct (forMatches_spec (unquotedAttrMatch text) (svgIssue i text)
              (svgUnquotedAttrMatch i text)) with
      (matches := FindAllStringSubmatchIndex re2 text) (errors := errors ++ new1)
    as (new2 & -> & HQ2).
  { intros m errs Hm.
    destruct (svgUnquotedAttrMatch_spec i text m errs Hm) as (e & -> & He).
    exists [e]. split; [reflexivity |].
    constructor; [| constructor]. now right. }
  { eapply Forall_impl; [| apply FindAll_sound].
    intros m. now apply unquotedAttr_MatchOf. }
  exists (new1 ++ new2). rewrite app_assoc. split; [reflexivity |].
  apply Forall_app. auto.
Qed.

Lemma voidTags_prefix_free t t' :
  In t voidTags -> In t' voidTags -> firstn (List.length t) t' = t -> t = t'.
Proof.
  intros Ht Ht'. unfold voidTags in *. simpl in Ht, Ht'.
  repeat (destruct Ht as [<- | Ht];
          [ repeat (destruct Ht' as [<- | Ht'];
                    [ intros H; first [reflexivity | vm_compute in H; discriminate] |]);
            contradiction |]).
  contradiction.
Qed.

Lemma voidTags_same t t' x y :
  In t voidTags -> In t' voidTags -> t ++ x = t' ++ y -> t = t'.
Proof.
  intros Ht Ht' H.
  destruct (Nat.le_ge_cases (List.length t) (List.length t')) as [Hl | Hl].
  - apply voidTags_prefix_free; auto. eapply app_prefix; eauto.
  - symmetry. apply voidTags_prefix_free; auto. symmetry in H. eapply app_prefix; eauto.
Qed.

(** The byte right before the closing [>] of a flagged text. *)
Lemma runeBytes_last r last :
  runeBytes r last -> r <> 0x2F ->
  exists init b, last = init ++ [b] /\ b <> x2f.
Proof.
  intros [(b & -> & Hb & _) | (Hr & Hne & Hall)] Hslash.
  - exists [], b. split; [reflexivity |]. intros ->. apply Hslash. now rewrite <- Hb.
  - destruct (exists_last Hne) as (init & b & ->).
    exists init, b. split; [reflexivity |].
    apply Forall_app in Hall as [_ Hb]. inversion Hb as [| ? ? Hb' _]; subst.
    intros ->. vm_compute in Hb'. now apply Hb'.
Qed.

Lemma selfClosingIssue_bare i line e :
  selfClosingIssue i line e ->
  exists pre tag between b rest,
    LineNumber e = i + 1
    /\ Column e = len pre + 1
    /\ line = pre ++ Content e ++ rest
    /\ In tag voidTags
    /\ Content e = bs "<" ++ tag ++ between ++ [b] ++ bs ">"
    /\ b <> x2f
    /\ forall pre' tag' post,
         In tag' voidTags ->
         line = pre' ++ bs "<" ++ tag' ++ bs ">" ++ post ->
         len pre' = len pre ->
         Content e = bs "<" ++ tag' ++ bs ">>".
Proof.
  intros (pre & tag & mid & last & rest & r & Hline & Htag & Hmid & Hr & Hr'
          & Hnum & Hcol & Hcontent).
  destruct (runeBytes_last _ _ Hr Hr') as (init & b & Hlast & Hb).
  exists pre, tag, (mid ++ init), b, rest.
  split; [exact Hnum |].
  split; [exact Hcol |].
  split; [now rewrite Hcontent |].
  split; [exact Htag |].
  split; [rewrite Hcontent, Hlast; now rewrite <- !app_assoc |].
  split; [exact Hb |].
  intros pre' tag' post Htag' Hline' Hlen.
  rewrite Hline in Hline'.
  apply app_same_length in Hline' as [-> Heq]; [| unfold len in Hlen; lia].
  rewrite <- !app_assoc in Heq. simpl in Heq. injection Heq as Heq.
  pose proof (voidTags_same _ _ _ _ Htag Htag' Heq) as ->.
  apply app_inv_head in Heq.
  destruct mid as [| m0 mid].
  2:{ simpl in Heq. injection Heq as -> _. inversion Hmid; congruence. }
  simpl in Heq.
  destruct Hr as [(b0 & -> & _ & _) | (Hhi & Hne & Hall)].
  - simpl in Heq. injection Heq as -> _. now rewrite Hcontent.
  - destruct last as [| l0 last]; [congruence |].
    simpl in Heq. injection Heq as -> _.
    inversion Hall as [| ? ? Hl0 _]; subst. vm_compute in Hl0. now destruct Hl0.
Qed.

Section SVG.

Variable ValidationOptions : Type.
Variable MaxErrors : ValidationOptions -> Z.

(** C10, as amended.  [validateSVG] always returns a list.  Every issue of
    its self-closing check highlights a text of the form
    [<tag ... b>] in its line, where [tag] is one of the nine element
    names, at least one byte [b] stands between the name and the closing
    [>], and that byte is not [/].  So the highlighted text is never a
    bare [<tag>]; and when the issue starts where a bare tag stands in the
    line, the highlighted text is that tag and the [>] right after it:
    a bare tag is flagged only if another [>] follows it directly. *)
Theorem bare_void_tag_flagged_only_before_gt
    (content : gostring) (opts : ValidationOptions) :
  exists errs,
    validateSVG MaxErrors content opts = Ok errs
    /\ forall e,
        In e errs -> ErrorType e = selfClosingType ->
        exists (k : nat) line pre tag between b rest,
          nth_error (Split content newline) k = Some line
          /\ LineNumber e = Z.of_nat k + 1
          /\ Column e = len pre + 1
          /\ line = pre ++ Content e ++ rest
          /\ In tag voidTags
          /\ Content e = bs "<" ++ tag ++ between ++ [b] ++ bs ">"
          /\ b <> x2f
          /\ forall pre' tag' post,
               In tag' voidTags ->
               line = pre' ++ bs "<" ++ tag' ++ bs ">" ++ post ->
               len pre' = len pre ->
               Content e = bs "<" ++ tag' ++ bs ">>".
Proof.
  unfold validateSVG.
  destruct (MustCompile patSVGSelfClosing) as [re1 | p] eqn:H1;
    [| vm_compute in H1; discriminate].
  destruct (MustCompile patSVGUnquotedAttr) as [re2 | p] eqn:H2;
    [| vm_compute in H2; discriminate].
  cbn [bind].
  destruct (forLines_spec _ MaxErrors svgIssue (svgLine re1 re2) opts
              (svgLine_spec re1 re2 H1 H2) (Split content newline) 0 [])
    as (errs & -> & Hall).
  exists errs. split; [reflexivity |].
  intros e He Htype.
  rewrite Forall_forall in Hall.
  destruct (Hall e He) as (k & line & Hline & [[_ Hissue] | Hattr]).
  - apply selfClosingIssue_bare in Hissue
      as (pre & tag & between & b & rest & Hnum & Hcol & Hl & Htag & Hc & Hb & Hbare).
    exists k, line, pre, tag, between, b, rest.
    repeat split; auto.
  - rewrite Htype in Hattr. vm_compute in Hattr. discriminate.
Qed.

End SVG.

(** C10 as stated fails on the line [<rect>>]: the bare [<rect>] at its
    start is flagged, the first [>] standing for the character that is not
    a slash. *)
Lemma bare_rect_before_gt_is_flagged :
  exists e,
    validateSVG Plain.MaxErrors (bs "<rect>>") (Plain.mkOptions 5 false) = Ok [e]
    /\ ErrorType e = selfClosingType
    /\ LineNumber e = 1 /\ Column e = 1
    /\ Content e = bs "<rect>>"
    /\ Message e = bs "SVG <rect> tag should be self-closing with />".
Proof. eexists. split; [vm_compute; reflexivity |]. repeat split. Qed.

(** A bare [<rect>] on a line of its own is not flagged; [<rect >] and
    [<rect x=1>] with its attribute value in double quotes are. *)
Lemma void_tag_examples :
  validateSVG Plain.MaxErrors (bs "<rect>") (Plain.mkOptions 5 false) = Ok []
  /\ (exists e, validateSVG Plain.MaxErrors (bs "<rect >") (Plain.mkOptions 5 false) = Ok [e]
                /\ ErrorType e = selfClosingType /\ Content e = bs "<rect >")
  /\ (exists e, validateSVG Plain.MaxErrors
                  (bs "<rect x=" ++ dquote ++ bs "1" ++ dquote ++ bs ">")
                  (Plain.mkOptions 5 false) = Ok [e]
                /\ ErrorType e = selfClosingType
                /\ Content e = bs "<rect x=" ++ dquote ++ bs "1" ++ dquote ++ bs ">").
Proof.
  split; [vm_compute; reflexivity |].
  split; eexists; (split; [vm_compute; reflexivity |]); split; reflexivity.
Qed.

(** ** The four secondary checkers *)

Section SecondaryCheckers.

Variable ValidationOptions : Type.
Variable MaxErrors : ValidationOptions -> Z.

Lemma validateControlCharacters_total (content : gostring) (opts : ValidationOptions) :
  exists errs, validateControlCharacters MaxErrors content opts = Ok errs.
Proof.
  unfold validateControlCharacters.
  destruct (control_forLines _ MaxErrors opts (Split content newline) 0 [])
    as (errs & -> & _).
  now exists errs.
Qed.

Lemma validateHexColors_total (content : gostring) (opts : ValidationOptions) :
  exists errs, validateHexColors MaxErrors content opts = Ok errs.
Proof.
  unfold validateHexColors.
  destruct (MustCompile patInvalidHex) as [re | p] eqn:H;
    [| vm_compute in H; discriminate].
  cbn [bind].
  destruct (forLines_spec _ MaxErrors (fun _ _ _ => True) (hexLine re) opts
              (hexLine_spec re H) (Split content newline) 0 [])
    as (errs & -> & _).
  now exists errs.
Qed.

Lemma validateSVG_total (content : gostring) (opts : ValidationOptions) :
  exists errs, validateSVG MaxErrors content opts = Ok errs.
Proof.
  unfold validateSVG.
  destruct (MustCompile patSVGSelfClosing) as [re1 | p] eqn:H1;
    [| vm_compute in H1; discriminate].
  destruct (MustCompile patSVGUnquotedAttr) as [re2 | p] eqn:H2;
    [| vm_compute in H2; discriminate].
  cbn [bind].
  destruct (forLines_spec _ MaxErrors svgIssue (svgLine re1 re2) opts
              (svgLine_spec re1 re2 H1 H2) (Split content newline) 0 [])
    as (errs & -> & _).
  now exists errs.
Qed.

(** C1. The specification asks every secondary checker to return an issue list on
    every input.  Three of them do.  [validateCDATASections] does not: its
    third pattern uses a negative lookahead, [(?!...)], which Go's
    [regexp] rejects, so [regexp.MustCompile] panics before the first line
    is read, whatever the content and the budget. *)
Theorem cdata_checker_panics_others_return
    (content : gostring) (opts : ValidationOptions) :
  validateCDATASections MaxErrors content opts
  = Panic (PanicRegexpCompile patUnclosedCDATA
             (syntax.mkError syntax.ErrInvalidPerlOp (bs "(?!")))
  /\ (exists errs, validateControlCharacters MaxErrors content opts = Ok errs)
  /\ (exists errs, validateHexColors MaxErrors content opts = Ok errs)
  /\ (exists errs, validateSVG MaxErrors content opts = Ok errs).
Proof.
  split; [reflexivity |].
  split; [apply validateControlCharacters_total |].
  split; [apply validateHexColors_total | apply validateSVG_total].
Qed.

End SecondaryCheckers.

(** C5. On the line [<![CDATA[!-- comment -->] the checker panics like on
    any other input.  Its first two rules, run on that line with their
    patterns compiled, report one issue each, and both put the 0-based
    offset 9 of the exclamation mark into the column, not the 1-based
    column 10. *)
Theorem cdata_exclamation_line :
  forall (ValidationOptions : Type) (MaxErrors : ValidationOptions -> Z)
         (opts : ValidationOptions),
    let line := bs "<![CDATA[!-- comment -->" in
    validateCDATASections MaxErrors line opts
    = Panic (PanicRegexpCompile patUnclosedCDATA
               (syntax.mkError syntax.ErrInvalidPerlOp (bs "(?!")))
    /\ exists reSpecial reExclamation e1 e2,
         MustCompile patCDATAWithSpecialChar = Ok reSpecial
         /\ MustCompile patCDATAWithExclamation = Ok reExclamation
         /\ cdataSpecialChar reSpecial 0 line [] = Ok [e1]
         /\ cdataExclamation reExclamation 0 line [e1] = Ok [e1; e2]
         /\ ErrorType e1 = bs "Special character after CDATA opening"
         /\ ErrorType e2 = bs "Exclamation mark after CDATA opening"
         /\ LineNumber e1 = 1 /\ LineNumber e2 = 1
         /\ Column e1 = 9 /\ Column e2 = 9.
Proof.
  intros VO ME opts line. split; [reflexivity |].
  destruct (MustCompile patCDATAWithSpecialChar) as [re1 | p] eqn:H1;
    [| vm_compute in H1; discriminate].
  destruct (MustCompile patCDATAWithExclamation) as [re2 | p] eqn:H2;
    [| vm_compute in H2; discriminate].
  vm_compute in H1. vm_compute in H2.
  injection H1 as <-. injection H2 as <-.
  eexists _, _, _, _.
  split; [reflexivity |]. split; [reflexivity |].
  split; [vm_compute; reflexivity |].
  split; [vm_compute; reflexivity |].
  repeat split.
Qed.

(** ** validateBasicXML *)

Lemma basicLoop_length content results errors :
  (List.length (basicLoop content results errors)
   <= S (List.length errors))%nat.
Proof.
  revert errors. induction results as [| [token err] rest IH]; intros errors.
  - simpl. lia.
  - simpl. destruct err as [[| Msg l | msg] |].
    + lia.
    + destruct (findErrorPosition content l) as [[line col] lineContent].
      rewrite length_app. simpl. lia.
    + rewrite length_app. simpl. lia.
    + destruct token; [apply IH | lia].
Qed.

(** [validateBasicXML] stops at the first error: at most one issue. *)
Lemma validateBasicXML_at_most_one xmlTokens content :
  len (validateBasicXML xmlTokens content) <= 1.
Proof.
  unfold validateBasicXML, len.
  pose proof (basicLoop_length content (xmlTokens content) []) as H.
  simpl in H. lia.
Qed.

(** ** validateXML *)

Lemma outcome_prefix {A : Type} (out : list gostring) (c : IO A) :
  outcome (let '(o, x) := c in (out ++ o, x)) = outcome c.
Proof. now destruct c. Qed.

Section PipelineFacts.

Variable xmlTokens : gostring -> list tokenResult.

Import Plain.

(** C4. When [validateBasicXML] reports an issue, [validateXML] returns
    exactly what [validateBasicXML] reported and prints nothing.  This
    holds with any four functions in the place of the secondary checkers:
    they may print, panic or return issues, and none of it shows, so none
    of them is called. *)
Theorem phase_precedence (content : gostring) (opts : ValidationOptions) :
  validateBasicXML xmlTokens content <> [] ->
  (forall spyCDATA spyControl spyHex spySVG,
      validateXMLWith xmlTokens spyCDATA spyControl spyHex spySVG content opts
      = ([], Ok (validateBasicXML xmlTokens content)))
  /\ validateXML xmlTokens content opts
     = ([], Ok (validateBasicXML xmlTokens content)).
Proof.
  intros Hbasic.
  assert (Hwith : forall c1 c2 c3 c4,
             validateXMLWith xmlTokens c1 c2 c3 c4 content opts
             = ([], Ok (validateBasicXML xmlTokens content))).
  { intros c1 c2 c3 c4. unfold validateXMLWith, limit.
    pose proof (validateBasicXML_at_most_one xmlTokens content) as Hle.
    pose proof (len_nonneg (validateBasicXML xmlTokens content)) as Hge.
    assert (Hlen : len (validateBasicXML xmlTokens content) = 1).
    { destruct (validateBasicXML xmlTokens content) as [| e l];
        [congruence |].
      rewrite len_cons in *. pose proof (len_nonneg l). lia. }
    simpl app. rewrite Hlen.
    destruct ((1 >=? MaxErrors opts) && (MaxErrors opts >? 0)) eqn:Hcut.
    - apply andb_true_iff in Hcut as [H1 H2].
      apply Z.geb_ge in H1. apply Z.gtb_gt in H2.
      assert (MaxErrors opts = 1) as -> by lia.
      rewrite <- Hlen. unfold run. now rewrite sliceTo_all.
    - simpl (1 =? 0).
      destruct ((MaxErrors opts >? 0) && (1 >? MaxErrors opts)) eqn:Hlim;
        [| reflexivity].
      apply andb_true_iff in Hlim as [H1 H2].
      apply Z.gtb_gt in H1. apply Z.gtb_gt in H2. lia. }
  split; [exact Hwith |]. apply Hwith.
Qed.

(** C3. Whatever the checkers find, the list that [validateXML] returns
    under a budget [N > 0] has at most [N] elements, and the list is all it
    returns.  The only total a caller can compute from it is the length of
    the capped list. *)
Theorem validateXML_result_is_capped
    (checkCDATA checkControl checkHex checkSVG
       : gostring -> ValidationOptions -> IO (list ValidationError))
    (content : gostring) (opts : ValidationOptions)
    (allErrors : list ValidationError) :
  0 < MaxErrors opts ->
  outcome (validateXMLWith xmlTokens checkCDATA checkControl checkHex checkSVG
             content opts) = Ok allErrors ->
  len allErrors <= MaxErrors opts.
Proof.
  intros Hpos.
  assert (Hcut : forall (l r : list ValidationError),
             (len l >=? MaxErrors opts) && (MaxErrors opts >? 0) = true ->
             sliceTo l (MaxErrors opts) = Ok r ->
             len r <= MaxErrors opts).
  { intros l r Hc Hs. zbool. rewrite sliceTo_ok in Hs by lia.
    injection Hs as <-. unfold len in *. rewrite length_firstn. lia. }
  assert (Hlimit : forall (l r : list ValidationError),
             outcome (limit opts l) = Ok r -> len r <= MaxErrors opts).
  { intros l r. unfold limit.
    destruct ((MaxErrors opts >? 0) && (len l >? MaxErrors opts)) eqn:Hc.
    - zbool. unfold run, outcome. simpl. rewrite sliceTo_ok by lia.
      intros [= <-]. unfold len in *. rewrite length_firstn. lia.
    - unfold ret, outcome. simpl. intros [= <-].
      apply andb_false_iff in Hc as [Hc | Hc]; zbool; lia. }
  unfold validateXMLWith. simpl app.
  set (basic := validateBasicXML xmlTokens content).
  destruct ((len basic >=? MaxErrors opts) && (MaxErrors opts >? 0)) eqn:Hc0.
  { unfold run, outcome. simpl. now apply Hcut. }
  destruct (len basic =? 0); [| apply Hlimit].
  unfold bindIO at 1. unfold Println at 1. cbv iota beta.
  unfold bindIO at 1. unfold Println at 1. cbv iota beta.
  unfold bindIO at 1.
  destruct (checkCDATA content opts) as [o1 [l1 | p1]];
    [| unfold outcome; simpl; discriminate].
  destruct ((len (basic ++ l1) >=? MaxErrors opts) && (MaxErrors opts >? 0)) eqn:Hc1.
  { unfold run, outcome. simpl. now apply Hcut. }
  unfold bindIO at 1. unfold Println at 1. cbv iota beta.
  unfold bindIO at 1.
  destruct (checkControl content opts) as [o2 [l2 | p2]];
    [| unfold outcome; simpl; discriminate].
  destruct ((len ((basic ++ l1) ++ l2) >=? MaxErrors opts) && (MaxErrors opts >? 0)) eqn:Hc2.
  { unfold run, outcome. simpl. now apply Hcut. }
  unfold bindIO at 1. unfold Println at 1. cbv iota beta.
  unfold bindIO at 1.
  destruct (checkHex content opts) as [o3 [l3 | p3]];
    [| unfold outcome; simpl; discriminate].
  destruct ((len (((basic ++ l1) ++ l2) ++ l3) >=? MaxErrors opts) && (MaxErrors opts >? 0)) eqn:Hc3.
  { unfold run, outcome. simpl. now apply Hcut. }
  unfold bindIO at 1. unfold Println at 1. cbv iota beta.
  unfold bindIO at 1.
  destruct (checkSVG content opts) as [o4 [l4 | p4]];
    [| unfold outcome; simpl; discriminate].
  rewrite !outcome_prefix. apply Hlimit.
Qed.

(** The third pattern of [validateCDATASections] does not compile. *)
Lemma cdata_compile_panic (content : gostring) (opts : ValidationOptions) :
  validateCDATASections MaxErrors content opts
  = Panic (PanicRegexpCompile patUnclosedCDATA
             (syntax.mkError syntax.ErrInvalidPerlOp (bs "(?!"))).
Proof. reflexivity. Qed.

(** C2. The specification wants [N] issues back when more than [N]
    exist.  Issues beyond the well-formedness one can only come from the
    secondary checkers, which run when [validateBasicXML] reports nothing;
    and then [validateXML] does not return a list at all: it panics in
    [validateCDATASections], whatever the budget. *)
Theorem validateXML_panics_when_well_formed
    (content : gostring) (opts : ValidationOptions) :
  validateBasicXML xmlTokens content = [] ->
  outcome (validateXML xmlTokens content opts)
  = Panic (PanicRegexpCompile patUnclosedCDATA
             (syntax.mkError syntax.ErrInvalidPerlOp (bs "(?!"))).
Proof.
  intros Hbasic. unfold validateXML, validateXMLWith.
  rewrite Hbasic, cdata_compile_panic. simpl app.
  destruct ((len (@nil ValidationError) >=? MaxErrors opts)
            && (MaxErrors opts >? 0)) eqn:Hc.
  - zbool. rewrite len_nil in *. lia.
  - reflexivity.
Qed.

End PipelineFacts.

Lemma phase_precedence_witness :
  validateBasicXML tokensSyntaxError (bs "<a>") <> []
  /\ Plain.validateXML tokensSyntaxError (bs "<a>") (Plain.mkOptions 5 false)
     = ([], Ok (validateBasicXML tokensSyntaxError (bs "<a>"))).
Proof.
  split.
  - vm_compute. discriminate.
  - apply (phase_precedence tokensSyntaxError (bs "<a>") (Plain.mkOptions 5 false)).
    vm_compute. discriminate.
Defined.

(** With a stand-in for the CDATA checker that finds nothing, the content
    [<a>#12 #1</a>] has two invalid hex colors; under the budget 1 the list
    that comes back has one element. *)
Lemma validateXML_result_is_capped_witness :
  exists e,
    outcome (Plain.validateXMLWith tokensWellFormed
               (fun _ _ => ret [])
               (fun content opts => run (validateControlCharacters Plain.MaxErrors content opts))
               (fun content opts => run (validateHexColors Plain.MaxErrors content opts))
               (fun content opts => run (validateSVG Plain.MaxErrors content opts))
               (bs "<a>#12 #1</a>") (Plain.mkOptions 1 false)) = Ok [e]
    /\ len [e] <= 1.
Proof.
  eexists. split.
  - vm_compute. reflexivity.
  - apply (validateXML_result_is_capped tokensWellFormed
             (fun _ _ => ret [])
             (fun content opts => run (validateControlCharacters Plain.MaxErrors content opts))
             (fun content opts => run (validateHexColors Plain.MaxErrors content opts))
             (fun content opts => run (validateSVG Plain.MaxErrors content opts))
             (bs "<a>#12 #1</a>") (Plain.mkOptions 1 false)).
    + reflexivity.
    + vm_compute. reflexivity.
Defined.

(** The two hex colors of that content, as [validateHexColors] alone
    reports them without a budget. *)
Lemma hex_two_issues :
  exists e1 e2,
    validateHexColors Plain.MaxErrors (bs "<a>#12 #1</a>") (Plain.mkOptions 0 false)
    = Ok [e1; e2]
    /\ Content e1 = bs "#12" /\ Content e2 = bs "#1".
Proof. eexists _, _. split; [vm_compute; reflexivity |]. now split. Qed.

Lemma validateXML_panics_when_well_formed_witness :
  validateBasicXML tokensWellFormed (bs "<a>#12 #1</a>") = []
  /\ outcome (Plain.validateXML tokensWellFormed (bs "<a>#12 #1</a>")
                (Plain.mkOptions 1 false))
     = Panic (PanicRegexpCompile patUnclosedCDATA
                (syntax.mkError syntax.ErrInvalidPerlOp (bs "(?!"))).
Proof.
  split.
  - reflexivity.
  - apply validateXML_panics_when_well_formed. reflexivity.
Defined.

(** ** The budget, with a CDATA checker that returns *)

Section Budget.

Variable ValidationOptions : Type.
Variable MaxErrors : ValidationOptions -> Z.

(** The loop over the lines under a budget returns a prefix of what it
    returns without one, and the prefix is the whole list unless the budget
    was reached. *)
Lemma forLines_cut body (opts opts0 : ValidationOptions) :
  (forall i line errors,
      exists new, body i line errors = Ok (errors ++ new)) ->
  0 < MaxErrors opts -> MaxErrors opts0 <= 0 ->
  forall lines i errors,
    exists new0 new,
      forLines MaxErrors body opts0 lines i errors = Ok (errors ++ new0)
      /\ forLines MaxErrors body opts lines i errors = Ok (errors ++ new)
      /\ exists more, new0 = new ++ more
                      /\ (more = [] \/ MaxErrors opts <= len (errors ++ new)).
Proof.
  intros Hbody HN H0.
  induction lines as [| line rest IH]; intros i errors.
  - exists [], []. rewrite app_nil_r. repeat split.
    exists []. auto.
  - cbn [forLines].
    destruct (Hbody i line errors) as (here & ->). cbn [bind].
    replace ((MaxErrors opts0 >? 0) && (len (errors ++ here) >=? MaxErrors opts0))
      with false
      by (symmetry; apply andb_false_iff; left; rewrite Z.gtb_ltb; apply Z.ltb_ge; lia).
    destruct (IH (i + 1) (errors ++ here)) as (new0 & new & -> & Hb & more & -> & Hmore).
    destruct ((MaxErrors opts >? 0) && (len (errors ++ here) >=? MaxErrors opts)) eqn:Hc.
    + zbool. exists (here ++ new ++ more), here.
      rewrite !app_assoc. repeat split.
      exists (new ++ more). rewrite !app_assoc. split; [reflexivity |]. right. lia.
    + rewrite Hb. exists (here ++ new ++ more), (here ++ new).
      rewrite !app_assoc. repeat split.
      exists more. split; [reflexivity |].
      rewrite <- !app_assoc in Hmore. rewrite <- !app_assoc. exact Hmore.
Qed.

(** The same for a whole checker, which starts the loop at line 0 with no
    issue. *)
Lemma checker_cut body (opts opts0 : ValidationOptions) lines :
  (forall i line errors,
      exists new, body i line errors = Ok (errors ++ new)) ->
  0 < MaxErrors opts -> MaxErrors opts0 <= 0 ->
  exists l0 l,
    forLines MaxErrors body opts0 lines 0 [] = Ok l0
    /\ forLines MaxErrors body opts lines 0 [] = Ok l
    /\ cutAt (MaxErrors opts) l l0.
Proof.
  intros Hbody HN H0.
  destruct (forLines_cut body opts opts0 Hbody HN H0 lines 0 [])
    as (new0 & new & E0 & E & more & -> & Hmore).
  exists (new ++ more), new. split; [exact E0 |]. split; [exact E |].
  exists more. split; [reflexivity | exact Hmore].
Qed.

Lemma validateControlCharacters_cut content (opts opts0 : ValidationOptions) :
  0 < MaxErrors opts -> MaxErrors opts0 <= 0 ->
  exists l0 l,
    validateControlCharacters MaxErrors content opts0 = Ok l0
    /\ validateControlCharacters MaxErrors content opts = Ok l
    /\ cutAt (MaxErrors opts) l l0.
Proof.
  intros HN H0. unfold validateControlCharacters. apply checker_cut; auto.
  intros i line errors.
  destruct (controlLine_spec i line errors) as (new & -> & _). now exists new.
Qed.

Lemma validateHexColors_cut content (opts opts0 : ValidationOptions) :
  0 < MaxErrors opts -> MaxErrors opts0 <= 0 ->
  exists l0 l,
    validateHexColors MaxErrors content opts0 = Ok l0
    /\ validateHexColors MaxErrors content opts = Ok l
    /\ cutAt (MaxErrors opts) l l0.
Proof.
  intros HN H0. unfold validateHexColors.
  destruct (MustCompile patInvalidHex) as [re | p] eqn:H;
    [| vm_compute in H; discriminate].
  cbn [bind]. apply checker_cut; auto.
  intros i line errors.
  destruct (hexLine_spec re H i line errors) as (new & -> & _). now exists new.
Qed.

Lemma validateSVG_cut content (opts opts0 : ValidationOptions) :
  0 < MaxErrors opts -> MaxErrors opts0 <= 0 ->
  exists l0 l,
    validateSVG MaxErrors content opts0 = Ok l0
    /\ validateSVG MaxErrors content opts = Ok l
    /\ cutAt (MaxErrors opts) l l0.
Proof.
  intros HN H0. unfold validateSVG.
  destruct (MustCompile patSVGSelfClosing) as [re1 | p] eqn:H1;
    [| vm_compute in H1; discriminate].
  destruct (MustCompile patSVGUnquotedAttr) as [re2 | p] eqn:H2;
    [| vm_compute in H2; discriminate].
  cbn [bind]. apply checker_cut; auto.
  intros i line errors.
  destruct (svgLine_spec re1 re2 H1 H2 i line errors) as (new & -> & _).
  now exists new.
Qed.

End Budget.

Section BudgetBound.

Import Plain.

Variable xmlTokens : gostring -> list tokenResult.
Variables c1 c2 c3 c4 : gostring -> ValidationOptions -> IO (list ValidationError).
Variable content : gostring.
Variables opts opts0 : ValidationOptions.

Hypothesis HN : 0 < MaxErrors opts.
Hypothesis H0 : MaxErrors opts0 <= 0.

Hypothesis Hc1 : cuts c1 content opts opts0.
Hypothesis Hc2 : cuts c2 content opts opts0.
Hypothesis Hc3 : cuts c3 content opts opts0.
Hypothesis Hc4 : cuts c4 content opts opts0.

(** Without a budget the pipeline returns the four checkers' lists, one
    after the other. *)
Lemma unbounded_form (all0 : list ValidationError) :
  validateBasicXML xmlTokens content = [] ->
  outcome (validateXMLWith xmlTokens c1 c2 c3 c4 content opts0) = Ok all0 ->
  exists L1 L2 L3 L4,
    outcome (c1 content opts0) = Ok L1 /\ outcome (c2 content opts0) = Ok L2
    /\ outcome (c3 content opts0) = Ok L3 /\ outcome (c4 content opts0) = Ok L4
    /\ all0 = L1 ++ L2 ++ L3 ++ L4.
Proof.
  intros Hb.
  assert (Hoff : forall l : list ValidationError,
             (len l >=? MaxErrors opts0) && (MaxErrors opts0 >? 0) = false).
  { intros l. apply andb_false_iff. right. rewrite Z.gtb_ltb. apply Z.ltb_ge. lia. }
  unfold validateXMLWith. rewrite Hb. simpl app. rewrite Hoff.
  change (len (@nil ValidationError) =? 0) with true. cbv iota.
  unfold bindIO at 1. unfold Println at 1. cbv iota beta.
  unfold bindIO at 1. unfold Println at 1. cbv iota beta.
  unfold bindIO at 1.
  destruct (c1 content opts0) as [o1 [L1 | p1]]; [| unfold outcome; simpl; discriminate].
  rewrite Hoff.
  unfold bindIO at 1. unfold Println at 1. cbv iota beta.
  unfold bindIO at 1.
  destruct (c2 content opts0) as [o2 [L2 | p2]]; [| unfold outcome; simpl; discriminate].
  rewrite Hoff.
  unfold bindIO at 1. unfold Println at 1. cbv iota beta.
  unfold bindIO at 1.
  destruct (c3 content opts0) as [o3 [L3 | p3]]; [| unfold outcome; simpl; discriminate].
  rewrite Hoff.
  unfold bindIO at 1. unfold Println at 1. cbv iota beta.
  unfold bindIO at 1.
  destruct (c4 content opts0) as [o4 [L4 | p4]]; [| unfold outcome; simpl; discriminate].
  unfold limit.
  replace ((MaxErrors opts0 >? 0)
           && (len (((L1 ++ L2) ++ L3) ++ L4) >? MaxErrors opts0)) with false
    by (symmetry; apply andb_false_iff; left; rewrite Z.gtb_ltb; apply Z.ltb_ge; lia).
  unfold ret, outcome. simpl. intros [= <-].
  exists L1, L2, L3, L4. repeat split. now rewrite <- !app_assoc.
Qed.

(** With checkers that return and cut their lists at the budget, the
    pipeline returns the first [N] of the issues it returns without a
    budget. *)
Lemma budget_bound_with (all0 : list ValidationError) :
  outcome (validateXMLWith xmlTokens c1 c2 c3 c4 content opts0) = Ok all0 ->
  MaxErrors opts < len all0 ->
  outcome (validateXMLWith xmlTokens c1 c2 c3 c4 content opts)
  = Ok (firstn (Z.to_nat (MaxErrors opts)) all0).
Proof.
  intros Hall Hlen.
  assert (Hb : validateBasicXML xmlTokens content = []).
  { destruct (len (validateBasicXML xmlTokens content) =? 0) eqn:Hb.
    - zbool. now apply len_zero_nil.
    - exfalso. revert Hall. unfold validateXMLWith. simpl app.
      replace ((len (validateBasicXML xmlTokens content) >=? MaxErrors opts0)
               && (MaxErrors opts0 >? 0)) with false
        by (symmetry; apply andb_false_iff; right; rewrite Z.gtb_ltb; apply Z.ltb_ge; lia).
      rewrite Hb. unfold limit.
      replace ((MaxErrors opts0 >? 0)
               && (len (validateBasicXML xmlTokens content) >? MaxErrors opts0)) with false
        by (symmetry; apply andb_false_iff; left; rewrite Z.gtb_ltb; apply Z.ltb_ge; lia).
      unfold ret, outcome. simpl. intros [= <-].
      pose proof (validateBasicXML_at_most_one xmlTokens content). lia. }
  destruct (unbounded_form all0 Hb Hall)
    as (L1 & L2 & L3 & L4 & HL1 & HL2 & HL3 & HL4 & ->).
  destruct (Hc1 L1 HL1) as (l1 & Hl1 & m1 & -> & Hm1).
  destruct (Hc2 L2 HL2) as (l2 & Hl2 & m2 & -> & Hm2).
  destruct (Hc3 L3 HL3) as (l3 & Hl3 & m3 & -> & Hm3).
  destruct (Hc4 L4 HL4) as (l4 & Hl4 & m4 & -> & Hm4).
  clear Hall HL1 HL2 HL3 HL4.
  set (N := MaxErrors opts) in *.
  assert (Hcut : forall (a b : list ValidationError),
             (len a >=? N) && (N >? 0) = true ->
             outcome (run (sliceTo a N)) = Ok (firstn (Z.to_nat N) (a ++ b))).
  { intros a b Hc. zbool. unfold run, outcome. simpl.
    rewrite sliceTo_ok by lia. now rewrite firstn_prefix by lia. }
  assert (Hfull : forall (a l m : list ValidationError),
             (len (a ++ l) >=? N) && (N >? 0) = false ->
             (m = [] \/ N <= len l) -> m = []).
  { intros a l m Hc [-> | Hl]; [reflexivity |].
    apply andb_false_iff in Hc as [Hc | Hc]; zbool; [| lia].
    rewrite len_app in Hc. pose proof (len_nonneg a). lia. }
  unfold validateXMLWith. rewrite Hb. simpl app. fold N.
  replace ((len (@nil ValidationError) >=? N) && (N >? 0)) with false
    by (symmetry; apply andb_false_iff; left; rewrite Z.geb_leb; apply Z.leb_gt;
        rewrite len_nil; lia).
  change (len (@nil ValidationError) =? 0) with true. cbv iota.
  unfold bindIO at 1. unfold Println at 1. cbv iota beta.
  unfold bindIO at 1. unfold Println at 1. cbv iota beta.
  unfold bindIO at 1.
  destruct (c1 content opts) as [o1 [l1' | p1]]; unfold outcome in Hl1; simpl in Hl1;
    [| discriminate].
  injection Hl1 as ->. rewrite !outcome_prefix.
  destruct ((len l1 >=? N) && (N >? 0)) eqn:E1.
  { rewrite <- !app_assoc. now apply Hcut. }
  pose proof (Hfull [] l1 m1 E1 Hm1) as ->. rewrite app_nil_r in *.
  unfold bindIO at 1. unfold Println at 1. cbv iota beta.
  unfold bindIO at 1.
  destruct (c2 content opts) as [o2 [l2' | p2]]; unfold outcome in Hl2; simpl in Hl2;
    [| discriminate].
  injection Hl2 as ->. rewrite !outcome_prefix.
  destruct ((len (l1 ++ l2) >=? N) && (N >? 0)) eqn:E2.
  { replace (l1 ++ (l2 ++ m2) ++ (l3 ++ m3) ++ l4 ++ m4)
      with ((l1 ++ l2) ++ (m2 ++ (l3 ++ m3) ++ l4 ++ m4))
      by (now rewrite <- !app_assoc).
    now apply Hcut. }
  pose proof (Hfull l1 l2 m2 E2 Hm2) as ->. rewrite app_nil_r in *.
  unfold bindIO at 1. unfold Println at 1. cbv iota beta.
  unfold bindIO at 1.
  destruct (c3 content opts) as [o3 [l3' | p3]]; unfold outcome in Hl3; simpl in Hl3;
    [| discriminate].
  injection Hl3 as ->. rewrite !outcome_prefix.
  destruct ((len ((l1 ++ l2) ++ l3) >=? N) && (N >? 0)) eqn:E3.
  { replace (l1 ++ l2 ++ (l3 ++ m3) ++ l4 ++ m4)
      with (((l1 ++ l2) ++ l3) ++ (m3 ++ l4 ++ m4))
      by (now rewrite <- !app_assoc).
    now apply Hcut. }
  pose proof (Hfull (l1 ++ l2) l3 m3 E3 Hm3) as ->. rewrite app_nil_r in *.
  unfold bindIO at 1. unfold Println at 1. cbv iota beta.
  unfold bindIO at 1.
  destruct (c4 content opts) as [o4 [l4' | p4]]; unfold outcome in Hl4; simpl in Hl4;
    [| discriminate].
  injection Hl4 as ->. rewrite !outcome_prefix.
  unfold limit. fold N.
  destruct ((N >? 0) && (len ((((l1 ++ l2) ++ l3) ++ l4)) >? N)) eqn:E4.
  - zbool. unfold run, outcome. simpl. rewrite sliceTo_ok by lia.
    replace (l1 ++ l2 ++ l3 ++ l4 ++ m4) with ((((l1 ++ l2) ++ l3) ++ l4) ++ m4)
      by (now rewrite <- !app_assoc).
    now rewrite (firstn_prefix _ m4) by lia.
  - (* the list has at most [N] issues: nothing is left to cut *)
    apply andb_false_iff in E4 as [E4 | E4]; zbool; [lia |].
    unfold ret, outcome. simpl. f_equal.
    replace (l1 ++ l2 ++ l3 ++ l4 ++ m4) with ((((l1 ++ l2) ++ l3) ++ l4) ++ m4)
      by (now rewrite <- !app_assoc).
    destruct Hm4 as [-> | Hl].
    + rewrite app_nil_r in Hlen. rewrite <- !app_assoc in E4. lia.
    + assert (N <= len (((l1 ++ l2) ++ l3) ++ l4)).
      { rewrite len_app. pose proof (len_nonneg ((l1 ++ l2) ++ l3)). lia. }
      rewrite firstn_prefix by lia. symmetry. apply firstn_all2.
      unfold len in *. lia.
Qed.

End BudgetBound.

(** A checker that does not print cuts when its result does. *)
Lemma run_cuts
    (c : gostring -> Plain.ValidationOptions -> result (list ValidationError))
    content opts opts0 :
  (exists l0 l, c content opts0 = Ok l0 /\ c content opts = Ok l
                /\ cutAt (Plain.MaxErrors opts) l l0) ->
  cuts (fun content opts => run (c content opts)) content opts opts0.
Proof.
  intros (l0 & l & E0 & E & Hcut) l0'. unfold run, outcome. simpl.
  rewrite E0, E. intros [= <-]. now exists l.
Qed.

(** With a CDATA checker that returns, and cuts its list at the budget like
    the other three, [validateXML] under a budget [N > 0] returns the first
    [N] of the issues it returns without a budget, when those are more than
    [N]. *)
Theorem budget_bound (xmlTokens : gostring -> list tokenResult)
    (checkCDATA : gostring -> Plain.ValidationOptions -> IO (list ValidationError))
    (content : gostring) (opts opts0 : Plain.ValidationOptions)
    (all0 : list ValidationError) :
  let pipeline :=
    Plain.validateXMLWith xmlTokens checkCDATA
      (fun content opts => run (validateControlCharacters Plain.MaxErrors content opts))
      (fun content opts => run (validateHexColors Plain.MaxErrors content opts))
      (fun content opts => run (validateSVG Plain.MaxErrors content opts))
      content in
  0 < Plain.MaxErrors opts -> Plain.MaxErrors opts0 <= 0 ->
  cuts checkCDATA content opts opts0 ->
  outcome (pipeline opts0) = Ok all0 ->
  Plain.MaxErrors opts < len all0 ->
  outcome (pipeline opts) = Ok (firstn (Z.to_nat (Plain.MaxErrors opts)) all0).
Proof.
  intros pipeline HN H0 Hc. unfold pipeline.
  apply budget_bound_with; auto.
  - apply run_cuts. now apply validateControlCharacters_cut.
  - apply run_cuts. now apply validateHexColors_cut.
  - apply run_cuts. now apply validateSVG_cut.
Qed.

(** With the CDATA check left out, the content [<a>#12 #1</a>] has two
    issues without a budget and one, the first of them, under the budget 1. *)
Lemma budget_bound_example :
  let pipeline :=
    Plain.validateXMLWith tokensWellFormed (fun _ _ => ret [])
      (fun content opts => run (validateControlCharacters Plain.MaxErrors content opts))
      (fun content opts => run (validateHexColors Plain.MaxErrors content opts))
      (fun content opts => run (validateSVG Plain.MaxErrors content opts))
      (bs "<a>#12 #1</a>") in
  exists e1 e2,
    outcome (pipeline (Plain.mkOptions 0 false)) = Ok [e1; e2]
    /\ outcome (pipeline (Plain.mkOptions 1 false)) = Ok [e1]
    /\ Content e1 = bs "#12" /\ Content e2 = bs "#1".
Proof.
  eexists _, _. split; [vm_compute; reflexivity |].
  split; [vm_compute; reflexivity |]. now split.
Qed.

(** ** The two entry points *)

Section EntryPoints.

Variable xmlTokens : gostring -> list tokenResult.
Variables successColor infoColor : gostring -> gostring.

(** Each secondary checker returns the same under the options of either
    entry point. *)
Lemma checkers_same (content : gostring) (opts : Colored.ValidationOptions) :
  validateControlCharacters Colored.MaxErrors content opts
  = validateControlCharacters Plain.MaxErrors content (toPlain opts)
  /\ validateHexColors Colored.MaxErrors content opts
     = validateHexColors Plain.MaxErrors content (toPlain opts)
  /\ validateSVG Colored.MaxErrors content opts
     = validateSVG Plain.MaxErrors content (toPlain opts)
  /\ validateCDATASections Colored.MaxErrors content opts
     = validateCDATASections Plain.MaxErrors content (toPlain opts).
Proof.
  assert (HM : Colored.MaxErrors opts = Plain.MaxErrors (toPlain opts))
    by reflexivity.
  repeat split.
  - unfold validateControlCharacters.
    apply forLines_budget_only, HM.
  - unfold validateHexColors.
    destruct (MustCompile patInvalidHex); cbv [bind]; [| reflexivity].
    apply forLines_budget_only, HM.
  - unfold validateSVG.
    destruct (MustCompile patSVGSelfClosing); cbv [bind]; [| reflexivity].
    destruct (MustCompile patSVGUnquotedAttr); cbv [bind]; [| reflexivity].
    apply forLines_budget_only, HM.
Qed.

(** The orchestration is the same: with the same four functions in the
    place of the checkers, the two [validateXML] bodies come to the same
    outcome. *)
Lemma pipeline_same
    (c1 c2 c3 c4 : gostring -> Plain.ValidationOptions
                   -> IO (list ValidationError))
    (content : gostring) (opts : Colored.ValidationOptions) :
  outcome (Colored.validateXMLWith xmlTokens successColor infoColor
             (fun c o => c1 c (toPlain o)) (fun c o => c2 c (toPlain o))
             (fun c o => c3 c (toPlain o)) (fun c o => c4 c (toPlain o))
             content opts)
  = outcome (Plain.validateXMLWith xmlTokens c1 c2 c3 c4 content (toPlain opts)).
Proof.
  unfold Colored.validateXMLWith, Plain.validateXMLWith,
    Colored.limit, Plain.limit.
  change (Plain.MaxErrors (toPlain opts)) with (Colored.MaxErrors opts).
  simpl app.
  set (basic := validateBasicXML xmlTokens content).
  set (N := Colored.MaxErrors opts).
  destruct ((len basic >=? N) && (N >? 0)); [reflexivity |].
  destruct (len basic =? 0); [| reflexivity].
  unfold bindIO, Println. cbv iota beta.
  destruct (c1 content (toPlain opts)) as [o1 [l1 | p1]]; [| reflexivity].
  destruct ((len (basic ++ l1) >=? N) && (N >? 0)); [reflexivity |].
  destruct (c2 content (toPlain opts)) as [o2 [l2 | p2]]; [| reflexivity].
  destruct ((len ((basic ++ l1) ++ l2) >=? N) && (N >? 0)); [reflexivity |].
  destruct (c3 content (toPlain opts)) as [o3 [l3 | p3]]; [| reflexivity].
  destruct ((len (((basic ++ l1) ++ l2) ++ l3) >=? N) && (N >? 0));
    [reflexivity |].
  destruct (c4 content (toPlain opts)) as [o4 [l4 | p4]]; [| reflexivity].
  destruct ((N >? 0) && (len ((((basic ++ l1) ++ l2) ++ l3) ++ l4) >? N));
    reflexivity.
Qed.

(** C9. For every content and every options value, the [validateXML] of the
    coloured entry point and the [validateXML] of the plain entry point
    come to the same outcome (the same issue list, or the same panic), and
    so does each of the four secondary checkers.  What the two entry points
    print is not compared. *)
Theorem validateXML_same_in_both_entry_points
    (content : gostring) (opts : Colored.ValidationOptions) :
  outcome (Colored.validateXML xmlTokens successColor infoColor content opts)
  = outcome (Plain.validateXML xmlTokens content (toPlain opts))
  /\ validateCDATASections Colored.MaxErrors content opts
     = validateCDATASections Plain.MaxErrors content (toPlain opts)
  /\ validateControlCharacters Colored.MaxErrors content opts
     = validateControlCharacters Plain.MaxErrors content (toPlain opts)
  /\ validateHexColors Colored.MaxErrors content opts
     = validateHexColors Plain.MaxErrors content (toPlain opts)
  /\ validateSVG Colored.MaxErrors content opts
     = validateSVG Plain.MaxErrors content (toPlain opts).
Proof.
  destruct (checkers_same content opts) as (Hctl & Hhex & Hsvg & Hcdata).
  repeat split; try assumption.
  unfold Colored.validateXML, Plain.validateXML.
  rewrite <- (pipeline_same
                (fun c o => run (validateCDATASections Plain.MaxErrors c o))
                (fun c o => run (validateControlCharacters Plain.MaxErrors c o))
                (fun c o => run (validateHexColors Plain.MaxErrors c o))
                (fun c o => run (validateSVG Plain.MaxErrors c o))).
  unfold Colored.validateXMLWith, Colored.limit.
  cbv beta.
  rewrite <- Hctl, <- Hhex, <- Hsvg, <- Hcdata.
  reflexivity.
Qed.

End EntryPoints.

(** ** findErrorPosition, inside the content *)

Lemma splitAcc_nonempty sep s cur : splitAcc sep s cur <> [].
Proof.
  revert cur. induction s as [| b s IH]; intros cur; simpl.
  - discriminate.
  - destruct (byte_eqb b sep); [discriminate | apply IH].
Qed.

(** The first loop of [findErrorPosition] counts the pieces of the prefix
    and the length of its last piece. *)
Lemma countPosition_splitAcc s : forall line col cur,
  col = 1 + len cur ->
  countPosition s line col
  = (line + len (splitAcc newline s cur) - 1,
     1 + len (last (splitAcc newline s cur) [])).
Proof.
  induction s as [| b s IH]; intros line col cur Hcol.
  - cbn [countPosition splitAcc last]. rewrite len_cons, len_nil.
    unfold len in *. rewrite length_rev. f_equal; lia.
  - cbn [countPosition splitAcc].
    destruct (byte_eqb b newline).
    + rewrite (IH (line + 1) 1 []) by reflexivity.
      rewrite len_cons.
      pose proof (splitAcc_nonempty newline s []) as Hne.
      destruct (splitAcc newline s []) as [| p ps] eqn:E; [congruence |].
      f_equal. lia.
    + apply IH. rewrite len_cons. lia.
Qed.

(** Splitting a content at a point: the pieces of the part before it, the
    last of them continued by the part after it. *)
Lemma splitAcc_app sep a b : forall cur,
  splitAcc sep (a ++ b) cur
  = removelast (splitAcc sep a cur)
    ++ splitAcc sep b (rev (last (splitAcc sep a cur) [])).
Proof.
  induction a as [| x a IH]; intros cur.
  - simpl. now rewrite rev_involutive.
  - cbn [app splitAcc]. destruct (byte_eqb x sep).
    + pose proof (splitAcc_nonempty sep a []) as Hne.
      rewrite IH.
      destruct (splitAcc sep a []) as [| p ps] eqn:E; [congruence |].
      reflexivity.
    + apply IH.
Qed.

Lemma splitAcc_cur sep b : forall cur,
  exists hd tl, splitAcc sep b [] = hd :: tl
                /\ splitAcc sep b cur = (rev cur ++ hd) :: tl.
Proof.
  induction b as [| x b IH]; intros cur.
  - exists [], []. simpl. now rewrite app_nil_r.
  - cbn [splitAcc]. destruct (byte_eqb x sep).
    + exists [], (splitAcc sep b []). now rewrite app_nil_r.
    + destruct (IH [x]) as (hd & tl & E0 & E1).
      destruct (IH (x :: cur)) as (hd' & tl' & E0' & E2).
      rewrite E0 in E0'. injection E0' as <- <-.
      exists (x :: hd), tl. rewrite E1, E2. simpl.
      split; [reflexivity |]. now rewrite <- app_assoc.
Qed.

(** The pieces before the last, each with its newline, and the last piece
    make up the text. *)
Lemma splitAcc_length sep s : forall cur,
  len (List.concat (map (fun l => l ++ [sep]) (removelast (splitAcc sep s cur))))
  + len (last (splitAcc sep s cur) [])
  = len cur + len s.
Proof.
  induction s as [| x s IH]; intros cur.
  - simpl. rewrite len_nil. unfold len. rewrite length_rev. lia.
  - cbn [splitAcc]. destruct (byte_eqb x sep).
    + pose proof (splitAcc_nonempty sep s []) as Hne.
      specialize (IH []).
      destruct (splitAcc sep s []) as [| p ps] eqn:E; [congruence |].
      cbn [removelast map List.concat last] in *.
      rewrite !len_app, !len_cons, len_nil in *.
      unfold len at 1. rewrite length_rev. fold (len cur). lia.
    + rewrite IH. rewrite !len_cons. lia.
Qed.

Lemma removelast_length {A : Type} (l : list A) :
  l <> [] -> List.length (removelast l) = (List.length l - 1)%nat.
Proof.
  induction l as [| a l IH]; intros H; [congruence |].
  destruct l as [| b l]; [reflexivity |].
  cbn [removelast]. simpl List.length in *. rewrite IH by discriminate. lia.
Qed.

(** What [findErrorPosition] returns for an offset inside the content, in
    terms of the pieces of the prefix before the offset. *)
Lemma findErrorPosition_inside content offset :
  0 <= offset < len content ->
  findErrorPosition content offset
  = (len (Split (firstn (Z.to_nat offset) content) newline),
     1 + len (last (Split (firstn (Z.to_nat offset) content) newline) []),
     scanToLine (scanLines content) 1
       (len (Split (firstn (Z.to_nat offset) content) newline))).
Proof.
  intros H. unfold findErrorPosition.
  replace ((offset <? 0) || (offset >=? len content)) with false
    by (symmetry; apply orb_false_iff; split;
        [apply Z.ltb_ge | rewrite Z.geb_leb; apply Z.leb_gt]; lia).
  rewrite (countPosition_splitAcc _ 1 1 []) by reflexivity.
  unfold Split. f_equal. f_equal. lia.
  f_equal. lia.
Qed.

(** The scanner's text of line [line], when the line exists. *)
Lemma scanToLine_scanPieces pieces : forall cur line,
  cur <= line < cur + len pieces ->
  scanToLine (scanPieces pieces) cur line
  = if forallb fitsScanner (firstn (Z.to_nat (line - cur + 1)) pieces)
    then dropCR (nth (Z.to_nat (line - cur)) pieces [])
    else [].
Proof.
  induction pieces as [| piece rest IH]; intros cur line H.
  - rewrite len_nil in H. lia.
  - rewrite len_cons in H. pose proof (len_nonneg rest) as Hr.
    destruct (Z.eq_dec cur line) as [-> | Hne].
    + replace (line - line + 1) with 1 by lia.
      replace (line - line) with 0 by lia.
      change (Z.to_nat 1) with 1%nat. change (Z.to_nat 0) with 0%nat.
      cbn [firstn forallb nth]. rewrite andb_true_r.
      destruct rest as [| r rest'].
      * cbn [scanPieces]. destruct piece as [| b piece'].
        -- reflexivity.
        -- fold (fitsScanner (b :: piece')).
           destruct (fitsScanner (b :: piece')); [| reflexivity].
           cbn [scanToLine]. now rewrite Z.eqb_refl.
      * cbn [scanPieces]. fold (fitsScanner piece).
        destruct (fitsScanner piece); [| reflexivity].
        cbn [scanToLine]. now rewrite Z.eqb_refl.
    + destruct rest as [| r rest']; [rewrite len_nil in H; lia |].
      replace (Z.to_nat (line - cur + 1)) with (S (Z.to_nat (line - cur))) by lia.
      replace (Z.to_nat (line - cur)) with (S (Z.to_nat (line - (cur + 1)))) by lia.
      cbn [scanPieces firstn forallb nth]. fold (fitsScanner piece).
      destruct (fitsScanner piece); [| reflexivity].
      cbn [scanToLine andb].
      replace (cur =? line) with false by (symmetry; apply Z.eqb_neq; lia).
      rewrite IH by lia.
      replace (Z.to_nat (line - (cur + 1) + 1)) with (S (Z.to_nat (line - (cur + 1)))) by lia.
      reflexivity.
Qed.

Lemma firstn_removelast_app {A : Type} (l r : list A) :
  firstn (List.length l) (l ++ r) = l.
Proof. rewrite firstn_app, Nat.sub_diag, firstn_all. simpl. apply app_nil_r. Qed.

(** Where the prefix before an offset sits in the pieces of the content. *)
Lemma Split_at content n :
  (n <= List.length content)%nat ->
  let prefix := Split (firstn n content) newline in
  exists more tl,
    Split content newline = removelast prefix ++ (last prefix [] ++ more) :: tl.
Proof.
  intros Hn prefix.
  replace (Split content newline)
    with (Split (firstn n content ++ skipn n content) newline)
    by now rewrite firstn_skipn.
  subst prefix. unfold Split. rewrite splitAcc_app.
  destruct (splitAcc_cur newline (skipn n content)
              (rev (last (splitAcc newline (firstn n content) []) [])))
    as (hd & tl & _ & ->).
  rewrite rev_involutive. now exists hd, tl.
Qed.

(** X1. For an offset inside the content, the line and column that
    [findErrorPosition] returns are those of the byte at the offset: the
    line is one of the lines of the content, the column lies on it or on
    the newline that ends it, and the start of the line plus the column
    gives the offset back. *)
Theorem findErrorPosition_locates_offset (content : gostring) (offset : Z) :
  0 <= offset < len content ->
  let lines := Split content newline in
  let line := fst (fst (findErrorPosition content offset)) in
  let col := snd (fst (findErrorPosition content offset)) in
  1 <= line <= len lines
  /\ 1 <= col <= len (nth (Z.to_nat (line - 1)) lines []) + 1
  /\ lineStart lines (Z.to_nat (line - 1)) + (col - 1) = offset.
Proof.
  intros H lines line col. subst line col.
  rewrite findErrorPosition_inside by assumption. cbn [fst snd].
  assert (Hn : (Z.to_nat offset <= List.length content)%nat)
    by (unfold len in H; lia).
  destruct (Split_at content (Z.to_nat offset) Hn) as (more & tl & Hsplit).
  pose proof (splitAcc_length newline (firstn (Z.to_nat offset) content) []) as HL.
  fold (Split (firstn (Z.to_nat offset) content) newline) in HL.
  rewrite len_nil in HL.
  assert (Hf : len (firstn (Z.to_nat offset) content) = offset)
    by (unfold len; rewrite length_firstn; lia).
  rewrite Hf in HL. clear Hf.
  assert (Hne : Split (firstn (Z.to_nat offset) content) newline <> [])
    by apply splitAcc_nonempty.
  revert Hsplit HL Hne.
  generalize (Split (firstn (Z.to_nat offset) content) newline).
  intros prefix Hsplit HL Hne.
  assert (Hlen : List.length (removelast prefix) = Z.to_nat (len prefix - 1)).
  { rewrite removelast_length by assumption. unfold len. lia. }
  assert (Hpos : 1 <= len prefix).
  { destruct prefix; [congruence |]. rewrite len_cons.
    pose proof (len_nonneg prefix). lia. }
  subst lines. rewrite Hsplit.
  split; [| split].
  - split; [exact Hpos |]. rewrite len_app, len_cons.
    pose proof (len_nonneg tl).
    unfold len at 2. rewrite Hlen. unfold gostring in *. lia.
  - rewrite <- Hlen. rewrite app_nth2, Nat.sub_diag by lia. cbn [nth].
    rewrite len_app. pose proof (len_nonneg more).
    pose proof (len_nonneg (last prefix [])). lia.
  - unfold lineStart. rewrite <- Hlen, firstn_removelast_app. lia.
Qed.

Lemma findErrorPosition_locates_offset_witness :
  let content := bs "<a>" ++ [newline] ++ bs "<b" ++ [newline] ++ bs "</a>" in
  let lines := Split content newline in
  let line := fst (fst (findErrorPosition content 5)) in
  let col := snd (fst (findErrorPosition content 5)) in
  1 <= line <= len lines
  /\ 1 <= col <= len (nth (Z.to_nat (line - 1)) lines []) + 1
  /\ lineStart lines (Z.to_nat (line - 1)) + (col - 1) = 5.
Proof.
  apply (findErrorPosition_locates_offset
           (bs "<a>" ++ [newline] ++ bs "<b" ++ [newline] ++ bs "</a>") 5).
  vm_compute. split; [discriminate | reflexivity].
Defined.

(** X2. For an offset inside the content, the text that
    [findErrorPosition] returns is the line of the offset without its
    carriage return, provided that this line and the lines before it fit
    into the scanner's buffer; if one of them does not, the text is
    empty. *)
Theorem findErrorPosition_line_text (content : gostring) (offset : Z) :
  0 <= offset < len content ->
  let lines := Split content newline in
  let line := fst (fst (findErrorPosition content offset)) in
  snd (findErrorPosition content offset)
  = if forallb fitsScanner (firstn (Z.to_nat line) lines)
    then dropCR (nth (Z.to_nat (line - 1)) lines [])
    else [].
Proof.
  intros H lines line. subst line.
  rewrite findErrorPosition_inside by assumption. cbn [fst snd].
  assert (Hn : (Z.to_nat offset <= List.length content)%nat)
    by (unfold len in H; lia).
  destruct (Split_at content (Z.to_nat offset) Hn) as (more & tl & Hsplit).
  assert (Hne : Split (firstn (Z.to_nat offset) content) newline <> [])
    by apply splitAcc_nonempty.
  unfold scanLines. fold lines. fold lines in Hsplit.
  revert Hsplit Hne.
  generalize (Split (firstn (Z.to_nat offset) content) newline).
  intros prefix Hsplit Hne.
  assert (Hpos : 1 <= len prefix).
  { destruct prefix; [congruence |]. rewrite len_cons.
    pose proof (len_nonneg prefix). lia. }
  assert (Hle : len prefix <= len lines).
  { rewrite Hsplit, len_app, len_cons.
    pose proof (len_nonneg tl). unfold len at 2.
    rewrite removelast_length by assumption. unfold len. lia. }
  rewrite scanToLine_scanPieces by lia.
  replace (len prefix - 1 + 1) with (len prefix) by lia.
  reflexivity.
Qed.

Lemma findErrorPosition_line_text_witness :
  let content := bs "<a>" ++ [x0d; newline] ++ bs "<b" ++ [x0d; newline] ++ bs "</a>" in
  let lines := Split content newline in
  let line := fst (fst (findErrorPosition content 6)) in
  snd (findErrorPosition content 6)
  = if forallb fitsScanner (firstn (Z.to_nat line) lines)
    then dropCR (nth (Z.to_nat (line - 1)) lines [])
    else [].
Proof.
  apply (findErrorPosition_line_text
           (bs "<a>" ++ [x0d; newline] ++ bs "<b" ++ [x0d; newline] ++ bs "</a>") 6).
  vm_compute. split; [discriminate | reflexivity].
Defined.

(** ** validateBasicXML, error by error *)

Lemma basicLoop_skips content good rest errors :
  Forall tokenOk good ->
  basicLoop content (good ++ rest) errors = basicLoop content rest errors.
Proof.
  induction 1 as [| r good [t ->] _ IH]; [reflexivity |].
  cbn [app basicLoop]. exact IH.
Qed.

(** X3. [validateBasicXML] stops at the first error of the decoder that is
    not [io.EOF]: it returns exactly one issue, for that error, whatever
    the decoder would return afterwards.  The message is the error's text
    and nothing is highlighted.  A syntax error gets the position that
    [findErrorPosition] computes from the error's line number; any other
    error gets line 0, column 0 and no line text. *)
Theorem validateBasicXML_first_error
    (xmlTokens : gostring -> list tokenResult) (content : gostring)
    (good rest : list tokenResult) (tok : option Token) (err : xmlError) :
  xmlTokens content = good ++ (tok, Some err) :: rest ->
  Forall tokenOk good ->
  err <> EOF ->
  exists e,
    validateBasicXML xmlTokens content = [e]
    /\ Message e = Error_ err
    /\ Content e = []
    /\ (forall msg, err = OtherError msg ->
          ErrorType e = bs "XML Error"
          /\ LineNumber e = 0 /\ Column e = 0 /\ Line e = [])
    /\ (forall msg L, err = SyntaxError msg L ->
          ErrorType e = bs "Basic XML Syntax Error"
          /\ (LineNumber e, Column e, Line e) = findErrorPosition content L).
Proof.
  intros Htok Hgood Herr. unfold validateBasicXML.
  rewrite Htok, basicLoop_skips by assumption.
  destruct err as [| msg L | msg]; [congruence | |].
  - cbn [basicLoop].
    destruct (findErrorPosition content L) as [[line col] text] eqn:E.
    eexists. split; [reflexivity |]. cbn.
    split; [reflexivity |]. split; [reflexivity |].
    split; [discriminate |].
    intros msg' L' [= <- <-]. rewrite E. split; reflexivity.
  - cbn [basicLoop].
    eexists. split; [reflexivity |]. cbn.
    split; [reflexivity |]. split; [reflexivity |].
    split; [intros _ _; repeat split | discriminate].
Qed.

Lemma validateBasicXML_first_error_witness :
  let xmlTokens := fun _ : gostring =>
    [(Some (StartElement (bs "a")), None);
     (None, Some (OtherError (bs "unexpected end")));
     (None, Some (SyntaxError (bs "never reached") 1))] in
  let content := bs "<a>" in
  exists e,
    validateBasicXML xmlTokens content = [e]
    /\ Message e = Error_ (OtherError (bs "unexpected end"))
    /\ Content e = []
    /\ (forall msg, OtherError (bs "unexpected end") = OtherError msg ->
          ErrorType e = bs "XML Error"
          /\ LineNumber e = 0 /\ Column e = 0 /\ Line e = [])
    /\ (forall msg L, OtherError (bs "unexpected end") = SyntaxError msg L ->
          ErrorType e = bs "Basic XML Syntax Error"
          /\ (LineNumber e, Column e, Line e) = findErrorPosition content L).
Proof.
  intros xmlTokens content.
  apply (validateBasicXML_first_error xmlTokens content
           [(Some (StartElement (bs "a")), None)]
           [(None, Some (SyntaxError (bs "never reached") 1))]
           None (OtherError (bs "unexpected end"))).
  - reflexivity.
  - repeat constructor. now exists (StartElement (bs "a")).
  - discriminate.
Defined.

(** X4. The decoder's line number is passed to [findErrorPosition] as a
    byte offset.  So a syntax error that the decoder reports on line [L]
    of a content whose first line has at least [L] bytes is reported on
    line 1, at column [L + 1], while its message names line [L]. *)
Theorem syntax_error_line_used_as_offset
    (xmlTokens : gostring -> list tokenResult) (content : gostring)
    (good rest : list tokenResult) (tok : option Token)
    (msg : gostring) (L : Z) :
  xmlTokens content = good ++ (tok, Some (SyntaxError msg L)) :: rest ->
  Forall tokenOk good ->
  0 <= L < len content ->
  forallb (fun b => negb (byte_eqb b newline)) (firstn (Z.to_nat L) content)
  = true ->
  exists e,
    validateBasicXML xmlTokens content = [e]
    /\ LineNumber e = 1
    /\ Column e = L + 1
    /\ Message e = bs "XML syntax error on line " ++ Itoa L ++ bs ": " ++ msg.
Proof.
  intros Htok Hgood HL Hfirst. unfold validateBasicXML.
  rewrite Htok, basicLoop_skips by assumption.
  cbn [basicLoop].
  rewrite findErrorPosition_inside by assumption.
  rewrite Split_no_newline by assumption.
  eexists. split; [reflexivity |]. cbn [LineNumber Column Message last].
  split; [reflexivity |]. split; [| reflexivity].
  unfold len. rewrite length_firstn. unfold len in HL. lia.
Qed.

Lemma syntax_error_line_used_as_offset_witness :
  let xmlTokens := fun _ : gostring =>
    [(Some (StartElement (bs "channel")), None);
     (None, Some (SyntaxError (bs "unexpected EOF") 3))] in
  let content := bs "<channel>" ++ [newline] ++ bs "<item>" ++ [newline]
                 ++ bs "<title" in
  exists e,
    validateBasicXML xmlTokens content = [e]
    /\ LineNumber e = 1
    /\ Column e = 3 + 1
    /\ Message e = bs "XML syntax error on line " ++ Itoa 3 ++ bs ": "
                   ++ bs "unexpected EOF".
Proof.
  intros xmlTokens content.
  apply (syntax_error_line_used_as_offset xmlTokens content
           [(Some (StartElement (bs "channel")), None)] [] None
           (bs "unexpected EOF") 3).
  - reflexivity.
  - repeat constructor. now exists (StartElement (bs "channel")).
  - vm_compute. split; [discriminate | reflexivity].
  - reflexivity.
Defined.

Lemma basicLoop_nil_inv content : forall results,
  basicLoop content results [] = [] ->
  exists good rest,
    results = good ++ rest /\ Forall tokenOk good
    /\ (rest = [] \/ exists r rest', rest = r :: rest' /\ tokenEnd r).
Proof.
  induction results as [| [tok err] results IH]; intros H.
  - exists [], []. auto.
  - cbn [basicLoop] in H.
    destruct err as [[| msg L | msg] |].
    + exists [], ((tok, Some EOF) :: results). split; [reflexivity |].
      split; [constructor |]. right. eexists _, _. split; [reflexivity |].
      now left.
    + destruct (findErrorPosition content L) as [[line col] text].
      discriminate.
    + discriminate.
    + destruct tok as [t |].
      * destruct (IH H) as (good & rest & -> & Hgood & Hrest).
        exists ((Some t, None) :: good), rest. split; [reflexivity |].
        split; [| exact Hrest]. constructor; [now exists t | exact Hgood].
      * exists [], ((None, None) :: results). split; [reflexivity |].
        split; [constructor |]. right. eexists _, _. split; [reflexivity |].
        now right.
Qed.

(** X5. [validateBasicXML] reports nothing exactly when no error comes
    before the end of the decoding: the decoder returns tokens without
    errors until it returns [io.EOF], or a nil token without an error, or
    nothing more. *)
Theorem validateBasicXML_reports_nothing_iff
    (xmlTokens : gostring -> list tokenResult) (content : gostring) :
  validateBasicXML xmlTokens content = []
  <-> exists good rest,
        xmlTokens content = good ++ rest /\ Forall tokenOk good
        /\ (rest = [] \/ exists r rest', rest = r :: rest' /\ tokenEnd r).
Proof.
  unfold validateBasicXML. split.
  - apply basicLoop_nil_inv.
  - intros (good & rest & -> & Hgood & Hrest).
    rewrite basicLoop_skips by assumption.
    destruct Hrest as [-> | (r & rest' & -> & Hend)]; [reflexivity |].
    destruct r as [tok err]. destruct Hend as [Hend | Hend].
    + cbn [snd] in Hend. subst err. reflexivity.
    + injection Hend as -> ->. reflexivity.
Qed.

(** ** validateControlCharacters, line by line *)

Lemma firstControlByte_none line : forall j,
  firstControlByte line j = None <-> hasControl line = false.
Proof.
  induction line as [| b line IH]; intros j; [simpl; tauto |].
  cbn [firstControlByte hasControl existsb].
  destruct (isControl (byteZ b)).
  - split; discriminate.
  - rewrite orb_false_l. apply IH.
Qed.

(** What a line adds: one issue if it has a control character, none
    otherwise. *)
Lemma controlLine_adds i line errors :
  exists new,
    controlLine i line errors = Ok (errors ++ new)
    /\ map LineNumber new = (if hasControl line then [i + 1] else []).
Proof.
  unfold controlLine, rangeString.
  rewrite (controlScan_bytes i line errors (List.length line) line 0 (le_n _)).
  destruct (firstControlByte line 0) as [[k b] |] eqn:Hf.
  - eexists. split; [reflexivity |].
    destruct (hasControl line) eqn:Hc; [reflexivity |].
    apply (firstControlByte_none line 0) in Hc. rewrite Hc in Hf. discriminate.
  - exists []. rewrite app_nil_r. split; [reflexivity |].
    apply firstControlByte_none in Hf. now rewrite Hf.
Qed.

Section ControlBudget.

Variable ValidationOptions : Type.
Variable MaxErrors : ValidationOptions -> Z.

Lemma control_forLines_all (opts : ValidationOptions) :
  MaxErrors opts <= 0 ->
  forall lines i errors, exists new,
    forLines MaxErrors controlLine opts lines i errors = Ok (errors ++ new)
    /\ map LineNumber new = linesWith hasControl lines i.
Proof.
  intros H0. induction lines as [| line rest IH]; intros i errors.
  - exists []. now rewrite app_nil_r.
  - cbn [forLines linesWith].
    destruct (controlLine_adds i line errors) as (here & -> & Hhere).
    cbn [bind].
    replace (MaxErrors opts >? 0) with false
      by (symmetry; rewrite Z.gtb_ltb; apply Z.ltb_ge; lia).
    cbn [andb].
    destruct (IH (i + 1) (errors ++ here)) as (more & -> & Hmore).
    exists (here ++ more). rewrite app_assoc. split; [reflexivity |].
    rewrite map_app, Hhere, Hmore. now destruct (hasControl line).
Qed.

Lemma control_forLines_bound (opts : ValidationOptions) :
  0 < MaxErrors opts ->
  forall lines i errors r,
    len errors < MaxErrors opts ->
    forLines MaxErrors controlLine opts lines i errors = Ok r ->
    len r <= MaxErrors opts.
Proof.
  intros HN. induction lines as [| line rest IH]; intros i errors r Hlen H.
  - injection H as <-. lia.
  - cbn [forLines] in H.
    destruct (controlLine_adds i line errors) as (here & E & Hhere).
    rewrite E in H. cbn [bind] in H.
    assert (Hh : len here <= 1).
    { apply (f_equal (@List.length Z)) in Hhere. rewrite length_map in Hhere.
      unfold len. destruct (hasControl line); simpl in Hhere; lia. }
    destruct ((MaxErrors opts >? 0) && (len (errors ++ here) >=? MaxErrors opts)) eqn:Hc.
    + injection H as <-. rewrite len_app. lia.
    + apply (IH (i + 1) (errors ++ here)); [| exact H].
      apply andb_false_iff in Hc as [Hc | Hc]; zbool; lia.
Qed.

(** X6. Without a budget ([MaxErrors <= 0]), [validateControlCharacters]
    returns one issue for each line that contains a control character and
    none for any other line, in the order of the lines. *)
Theorem control_issue_for_each_line
    (content : gostring) (opts : ValidationOptions) :
  MaxErrors opts <= 0 ->
  exists errs,
    validateControlCharacters MaxErrors content opts = Ok errs
    /\ map LineNumber errs
       = linesWith hasControl (Split content newline) 0.
Proof.
  intros H0. unfold validateControlCharacters.
  destruct (control_forLines_all opts H0 (Split content newline) 0 [])
    as (new & H & Hnew).
  exists new. auto.
Qed.

End ControlBudget.

Lemma control_issue_for_each_line_witness :
  exists errs,
    validateControlCharacters Plain.MaxErrors
      (bs "a" ++ [x01; newline] ++ bs "b" ++ [newline; x02; x03])
      (Plain.mkOptions 0 false) = Ok errs
    /\ map LineNumber errs
       = linesWith hasControl
           (Split (bs "a" ++ [x01; newline] ++ bs "b" ++ [newline; x02; x03])
              newline) 0.
Proof.
  apply (control_issue_for_each_line _ Plain.MaxErrors
           (bs "a" ++ [x01; newline] ++ bs "b" ++ [newline; x02; x03])
           (Plain.mkOptions 0 false)).
  simpl. lia.
Defined.

Section ControlExact.

Variable ValidationOptions : Type.
Variable MaxErrors : ValidationOptions -> Z.

(** X7. Under a budget [N > 0], [validateControlCharacters] returns the
    first [N] of the issues it returns without a budget, and all of them
    if they are fewer: never more than [N]. *)
Theorem control_budget_is_exact
    (content : gostring) (opts opts0 : ValidationOptions) :
  0 < MaxErrors opts -> MaxErrors opts0 <= 0 ->
  exists all,
    validateControlCharacters MaxErrors content opts0 = Ok all
    /\ validateControlCharacters MaxErrors content opts
       = Ok (firstn (Z.to_nat (MaxErrors opts)) all).
Proof.
  intros HN H0.
  destruct (validateControlCharacters_cut _ MaxErrors content opts opts0 HN H0)
    as (l0 & l & E0 & E & more & -> & Hmore).
  exists (l ++ more). split; [exact E0 |]. rewrite E. f_equal.
  assert (Hle : len l <= MaxErrors opts).
  { unfold validateControlCharacters in E.
    apply (control_forLines_bound _ MaxErrors opts HN _ _ _ _) in E;
      [exact E | rewrite len_nil; lia]. }
  destruct Hmore as [-> | Hge].
  - rewrite app_nil_r. symmetry. apply firstn_all2. unfold len in Hle. lia.
  - rewrite firstn_prefix by lia. symmetry. apply firstn_all2.
    unfold len in Hle. lia.
Qed.

End ControlExact.

Lemma control_budget_is_exact_witness :
  exists all,
    validateControlCharacters Plain.MaxErrors
      (bs "a" ++ [x01; newline] ++ bs "b" ++ [newline; x02; x03])
      (Plain.mkOptions 0 false) = Ok all
    /\ validateControlCharacters Plain.MaxErrors
         (bs "a" ++ [x01; newline] ++ bs "b" ++ [newline; x02; x03])
         (Plain.mkOptions 1 false)
       = Ok (firstn (Z.to_nat (Plain.MaxErrors (Plain.mkOptions 1 false))) all).
Proof.
  apply (control_budget_is_exact _ Plain.MaxErrors
           (bs "a" ++ [x01; newline] ++ bs "b" ++ [newline; x02; x03])
           (Plain.mkOptions 1 false) (Plain.mkOptions 0 false)).
  - simpl. lia.
  - simpl. lia.
Defined.



(** ** validateHexColors, issue by issue *)

(** Two lists that are the same up to the bracketing of [++]. *)
Ltac assoc := cbn [app]; rewrite <- ?app_assoc; cbn [app]; reflexivity.

Lemma inRanges_hex b : inRanges (byteZ b) hexRanges = isHexDigit b.
Proof.
  unfold inRanges, hexRanges, isHexDigit. cbn [existsb].
  now rewrite orb_false_r, orb_assoc.
Qed.

Lemma inRanges_hex_ascii r : inRanges r hexRanges = true -> r < 0x80.
Proof.
  unfold inRanges, hexRanges. cbn [existsb]. rewrite orb_false_r.
  intros H. apply orb_true_iff in H as [H | H]; [| apply orb_true_iff in H as [H | H]];
    zbool; lia.
Qed.

(** The class [[0-9a-fA-F]] matches one byte, a hex digit. *)
Lemma Mt_hexClass pos c w rest c' :
  Mt (OpCharClass false hexRanges) pos c w rest c' ->
  c' = c /\ len w = 1 /\ forallb isHexDigit w = true.
Proof.
  intros (r & Hne & HD & Hm & ->). cbn [matchRune xorb] in Hm.
  pose proof (inRanges_hex_ascii r Hm) as Hr.
  destruct (rune_bytes _ _ _ Hne HD) as [(b & -> & <- & _) | (Hhi & _)]; [| lia].
  rewrite inRanges_hex in Hm.
  split; [reflexivity |]. split; [reflexivity |]. cbn [forallb].
  now rewrite Hm.
Qed.

Lemma Iter_hexClass n : forall pos c w rest c',
  Iter (Mt (OpCharClass false hexRanges)) n pos c w rest c' ->
  c' = c /\ len w = Z.of_nat n /\ forallb isHexDigit w = true.
Proof.
  induction n as [| n IH]; intros pos c w rest c' H.
  - inversion H; subst. auto.
  - inversion H as [| ? ? ? w1 w2 ? c1 ? H1 H2]; subst.
    apply Mt_hexClass in H1 as (-> & Hl1 & Hh1).
    apply IH in H2 as (-> & Hl2 & Hh2).
    split; [reflexivity |]. rewrite len_app, forallb_app, Hh1, Hh2.
    split; [lia | reflexivity].
Qed.

(** [([^0-9a-fA-F]|$)]: one character that is no hex digit, or the end of
    the text. *)
Lemma Mt_hexEnd pos c w rest c' :
  Mt (OpAlternate (OpCharClass true hexRanges) OpEndText) pos c w rest c' ->
  c' = c /\ ((w = [] /\ rest = []) \/ notHexChar w).
Proof.
  intros [(r & Hne & HD & Hm & ->) | (-> & -> & ->)]; [| auto].
  split; [reflexivity |]. right.
  cbn [matchRune] in Hm. apply negb_true_iff in Hm.
  pose proof (rune_bytes _ _ _ Hne HD) as Hb.
  split; [now exists r |].
  destruct Hb as [(b & -> & <- & _) | (Hhi & _ & Hall)].
  - rewrite inRanges_hex in Hm. now constructor.
  - eapply Forall_impl; [| exact Hall]. intros b Hb. cbn beta in Hb.
    unfold isHexDigit.
    repeat (apply orb_false_iff; split); apply andb_false_iff;
      right; apply Z.leb_gt; lia.
Qed.

Lemma hex_literal pos c w rest c' :
  Mt (OpLiteral 35) pos c w rest c' -> w = [x23] /\ c' = c.
Proof. intros H. now apply (Mt_literalText (OpLiteral 35) [x23]) in H. Qed.

(** What [hexMatch] makes of a match of the pattern. *)
Lemma hexMatch_issue re i text m errors :
  MustCompile patInvalidHex = Ok re ->
  MatchOf re text m ->
  exists e, hexMatch i text m errors = Ok (errors ++ [e])
            /\ invalidHexIssue i text e.
Proof.
  intros Hre (pre & w & rest & c & -> & HM & ->).
  vm_compute in Hre. injection Hre as <-.
  cbn [expr] in HM. fold hexRanges in HM.
  unfold hexMatch.
  destruct HM as [HM | [HM | HM]].
  - destruct HM as (w1 & w' & c1 & -> & H1 & HM).
    destruct HM as (w2 & w3 & c2 & -> & H2 & H3).
    apply hex_literal in H1 as [-> ->].
    destruct H2 as (n & Hmin & Hmax & H2).
    apply Iter_hexClass in H2 as (-> & Hn & Hds).
    destruct H3 as (c3 & H3 & ->).
    apply Mt_hexEnd in H3 as [-> Hend].
    unfold indices. cbn [numSubexp seq flat_map getCap Nat.eqb app].
    erewrite (index_nth _ 0) by reflexivity. cbn [bind].
    erewrite (index_nth _ 1) by reflexivity. cbn [bind].
    erewrite (index_nth _ 2) by reflexivity. cbn [bind].
    pose proof (len_nonneg pre). pose proof (len_nonneg w2).
    replace (negb (len pre + len [x23] + len w2 =? -1)) with true
      by (symmetry; apply negb_true_iff, Z.eqb_neq; rewrite len_cons, len_nil; lia).
    rewrite (slice_in (pre ++ ([x23] ++ w2 ++ w3) ++ rest) pre ([x23] ++ w2) (w3 ++ rest)).
    2:{ assoc. }
    2:{ reflexivity. }
    2:{ rewrite len_app. lia. }
    cbn [bind]. eexists. split; [reflexivity |].
    exists pre, w2, [], (w3 ++ rest).
    split; [assoc |]. split; [exact Hds |].
    split.
    { left. split; [lia |]. split; [reflexivity |].
      destruct Hend as [[-> ->] | Hend]; [now left |].
      right. now exists w3, rest. }
    cbn. rewrite app_nil_r. repeat split.
  - destruct HM as (w1 & w' & c1 & -> & H1 & HM).
    destruct HM as (w2 & w3 & c2 & -> & H2 & H3).
    apply hex_literal in H1 as [-> ->].
    destruct H2 as (n & Hmin & Hmax & H2).
    apply Iter_hexClass in H2 as (-> & Hn & Hds).
    destruct H3 as (c3 & H3 & ->).
    apply Mt_hexEnd in H3 as [-> Hend].
    unfold indices. cbn [numSubexp seq flat_map getCap Nat.eqb app].
    erewrite (index_nth _ 0) by reflexivity. cbn [bind].
    erewrite (index_nth _ 1) by reflexivity. cbn [bind].
    erewrite (index_nth _ 2) by reflexivity. cbn [bind].
    change (negb (-1 =? -1)) with false. cbv iota.
    rewrite (slice_in (pre ++ ([x23] ++ w2 ++ w3) ++ rest) pre ([x23] ++ w2 ++ w3) rest);
      [| reflexivity | reflexivity | reflexivity].
    cbn [bind]. eexists. split; [reflexivity |].
    exists pre, w2, w3, rest.
    split; [assoc |]. split; [exact Hds |].
    split.
    { right. left. split; [lia |].
      destruct Hend as [[-> ->] | Hend]; auto. }
    cbn. repeat split.
  - destruct HM as (w1 & w2 & c1 & -> & H1 & H2).
    apply hex_literal in H1 as [-> ->].
    destruct H2 as (n & Hmin & _ & H2).
    apply Iter_hexClass in H2 as (-> & Hn & Hds).
    unfold indices. cbn [numSubexp seq flat_map getCap Nat.eqb app].
    erewrite (index_nth _ 0) by reflexivity. cbn [bind].
    erewrite (index_nth _ 1) by reflexivity. cbn [bind].
    erewrite (index_nth _ 2) by reflexivity. cbn [bind].
    change (negb (-1 =? -1)) with false. cbv iota.
    rewrite (slice_in (pre ++ ([x23] ++ w2) ++ rest) pre ([x23] ++ w2) rest);
      [| reflexivity | reflexivity | reflexivity].
    cbn [bind]. eexists. split; [reflexivity |].
    exists pre, w2, [], rest.
    split; [assoc |]. split; [exact Hds |].
    split.
    { right. right. split; [lia | reflexivity]. }
    cbn. rewrite app_nil_r. repeat split.
Qed.

Lemma hexLine_issues re :
  MustCompile patInvalidHex = Ok re ->
  forall i text errors,
    exists new, hexLine re i text errors = Ok (errors ++ new)
                /\ Forall (invalidHexIssue i text) new.
Proof.
  intros Hre i text errors. unfold hexLine.
  apply (forMatches_spec (MatchOf re text)).
  - intros m errs Hm.
    destruct (hexMatch_issue re i text m errs Hre Hm) as (e & -> & He).
    exists [e]. split; [reflexivity |]. repeat constructor. exact He.
  - apply FindAll_sound.
Qed.

(** X9. Every issue of [validateHexColors] sits on a line of the content
    and highlights, at its column, a [#] followed by hex digits of which
    there are one, two, four, five or at least seven.  After one or two
    digits the line ends or a character that is no hex digit follows.
    After four or five digits the character that follows, if any, is no
    hex digit, and it is part of the highlighted text and of the message:
    only the pattern's first group is looked at to cut it off. *)
Theorem hex_issue_shape
    (ValidationOptions : Type) (MaxErrors : ValidationOptions -> Z)
    (content : gostring) (opts : ValidationOptions) :
  exists errs,
    validateHexColors MaxErrors content opts = Ok errs
    /\ forall e, In e errs ->
         exists (k : nat) line,
           nth_error (Split content newline) k = Some line
           /\ invalidHexIssue (Z.of_nat k) line e.
Proof.
  unfold validateHexColors.
  destruct (MustCompile patInvalidHex) as [re | p] eqn:H;
    [| vm_compute in H; discriminate].
  cbn [bind].
  destruct (forLines_spec _ MaxErrors invalidHexIssue (hexLine re) opts
              (hexLine_issues re H) (Split content newline) 0 [])
    as (errs & -> & Hall).
  exists errs. split; [reflexivity |].
  intros e He. rewrite Forall_forall in Hall.
  destruct (Hall e He) as (k & line & Hk & HQ).
  exists k, line. rewrite Z.add_0_l in HQ. split; assumption.
Qed.

(** The character after four hex digits is highlighted and reported with
    them; after two it is not. *)
Lemma hex_issue_examples :
  exists e1 e2,
    validateHexColors Plain.MaxErrors (bs "#1234; #12;") (Plain.mkOptions 0 false)
    = Ok [e1; e2]
    /\ Content e1 = bs "#1234;" /\ Content e2 = bs "#12".
Proof. eexists _, _. split; [vm_compute; reflexivity |]. now split. Qed.

(** ** regexp: a literal is found wherever it occurs *)

Lemma byteZ_byte_of_Z r : 0 <= r < 256 -> byteZ (byte_of_Z r) = r.
Proof.
  intros H. unfold byteZ, byte_of_Z.
  rewrite Z.mod_small by lia.
  destruct (Byte.of_N (Z.to_N r)) as [b |] eqn:E.
  - apply Byte.to_of_N in E. rewrite E. lia.
  - exfalso. pose proof (Byte.of_N_None_iff (Z.to_N r)) as [Hn _].
    specialize (Hn E). lia.
Qed.

Lemma literalText_ascii re : forall lit,
  literalText re = Some lit -> Forall (fun b => byteZ b < 0x80) lit.
Proof.
  induction re; intros lit H; try discriminate.
  - simpl in H. destruct ((0 <=? r) && (r <? 128)) eqn:Hr; [| discriminate].
    injection H as <-. zbool. constructor; [| constructor].
    rewrite byteZ_byte_of_Z; lia.
  - simpl in H.
    destruct (literalText re1) as [x |]; [| discriminate].
    destruct (literalText re2) as [y |]; [| discriminate].
    injection H as <-. apply Forall_app. auto.
Qed.

(** On a text that starts with the literal, the literal matches. *)
Lemma bt_literal {X : Type} re : forall lit,
  literalText re = Some lit ->
  forall rest pos c (k : cont X),
    bt re (lit ++ rest) pos c k = k rest (pos + len lit) c.
Proof.
  induction re; intros lit H rest pos c k; try discriminate.
  - simpl in H. destruct ((0 <=? r) && (r <? 128)) eqn:Hr; [| discriminate].
    injection H as <-. zbool.
    cbn [bt app step].
    rewrite DecodeRune_ascii by (rewrite byteZ_byte_of_Z; lia).
    rewrite byteZ_byte_of_Z by lia.
    cbn [matchRune]. rewrite Z.eqb_refl. reflexivity.
  - simpl in H.
    destruct (literalText re1) as [x |] eqn:H1; [| discriminate].
    destruct (literalText re2) as [y |] eqn:H2; [| discriminate].
    injection H as <-.
    cbn [bt]. rewrite <- app_assoc.
    rewrite (IHre1 x eq_refl). rewrite (IHre2 y eq_refl).
    rewrite len_app. f_equal. lia.
Qed.

Lemma search_skip re (k : nat) : forall s pos,
  (k <= List.length s)%nat ->
  search re s pos k = search re (skipn k s) (pos + Z.of_nat k) 0.
Proof.
  induction k as [| k IH]; intros s pos Hk.
  - simpl skipn. now rewrite Z.add_0_r.
  - destruct s as [| b s]; [simpl in Hk; lia |].
    cbn [search skipn]. rewrite IH by (simpl in Hk; lia). f_equal. lia.
Qed.

Lemma search_0 re s pos :
  search re s pos 0
  = match matchAt re s pos with
    | Some (e, c) => Some (pos, e, c)
    | None =>
      match s with
      | [] => None
      | _ :: rest =>
        search re rest (pos + 1) (Z.to_nat (snd (utf8.DecodeRune s) - 1))
      end
    end.
Proof. destruct s; reflexivity. Qed.

(** The unanchored search finds a literal that occurs in the text: no
    start position at an ASCII byte is skipped. *)
Lemma search_literal re lit :
  literalText (expr re) = Some lit -> lit <> [] ->
  forall n a rest pos, (List.length a <= n)%nat ->
    exists r, search re (a ++ lit ++ rest) pos 0 = Some r.
Proof.
  intros Hlit Hne.
  pose proof (literalText_ascii _ _ Hlit) as Hascii.
  destruct lit as [| l0 lit']; [congruence |].
  inversion Hascii as [| ? ? Hl0 _]; subst.
  induction n as [| n IH]; intros a rest pos Ha.
  - destruct a; [| simpl in Ha; lia].
    rewrite app_nil_l, search_0. unfold matchAt.
    rewrite (bt_literal (expr re) (l0 :: lit') Hlit). eexists. reflexivity.
  - destruct a as [| a0 a'].
    + apply (IH [] rest pos). simpl. lia.
    + rewrite search_0.
      change ((a0 :: a') ++ (l0 :: lit') ++ rest)
        with (a0 :: a' ++ (l0 :: lit') ++ rest).
      destruct (matchAt re (a0 :: a' ++ (l0 :: lit') ++ rest) pos) as [[e c] |];
        [eexists; reflexivity |].
      destruct (utf8.DecodeRune (a0 :: a' ++ (l0 :: lit') ++ rest)) as [r size] eqn:HD.
      cbn [snd].
      apply DecodeRune_spec in HD as [Hsz [(_ & -> & _) | (_ & _ & Hall)]].
      * change (Z.to_nat (1 - 1)) with 0%nat. apply IH. simpl in Ha. lia.
      * assert (Hin : (Z.to_nat (size - 1) <= List.length a')%nat).
        { destruct (Nat.le_gt_cases (Z.to_nat (size - 1)) (List.length a')) as [H | H];
            [exact H | exfalso].
          replace (Z.to_nat size) with (S (Z.to_nat (size - 1))) in Hall by lia.
          cbn [firstn] in Hall. inversion Hall as [| ? ? _ Hall']; subst.
          rewrite firstn_app in Hall'. apply Forall_app in Hall' as [_ Hall'].
          remember (Z.to_nat (size - 1) - List.length a')%nat as d eqn:Hd.
          destruct d as [| d]; [lia |].
          cbn [app firstn] in Hall'. inversion Hall' as [| ? ? Hbad _]; subst.
          cbn beta in Hbad. lia. }
        rewrite search_skip by (rewrite length_app; lia).
        rewrite skipn_app.
        replace (Z.to_nat (size - 1) - List.length a')%nat with 0%nat by lia.
        cbn [skipn]. apply IH. rewrite length_skipn. simpl in Ha. lia.
Qed.

(** [MatchString] of a literal pattern says whether the text contains the
    literal. *)
Lemma MatchString_literal re lit text :
  literalText (expr re) = Some lit -> lit <> [] ->
  MatchString re text = false ->
  forall a b, text <> a ++ lit ++ b.
Proof.
  intros Hlit Hne Hm a b ->.
  unfold MatchString, doExecute in Hm. cbn [Z.to_nat skipn] in Hm.
  destruct (search_literal re lit Hlit Hne (List.length a) a b 0 (le_n _)) as (r & Hr).
  rewrite Hr in Hm. discriminate.
Qed.

Lemma closing_literal tag :
  In tag voidTags ->
  exists re, MustCompile (bs "</" ++ tag ++ bs ">") = Ok re
             /\ literalText (expr re) = Some (bs "</" ++ tag ++ bs ">").
Proof.
  intros H. unfold voidTags in H. simpl in H.
  repeat (destruct H as [<- | H];
          [eexists; split; vm_compute; reflexivity |]).
  contradiction.
Qed.

(** ** validateSVG, issue by issue *)

Lemma svgSelfClosingMatch_issue i text m errors :
  selfClosingMatch text m ->
  exists new,
    svgSelfClosingMatch i text m errors = Ok (errors ++ new)
    /\ Forall (svgIssueOn i text) new.
Proof.
  intros (pre & tag & mid & last & rest & r & Htext & Htag & Hmid & Hr & Hr' & ->).
  unfold svgSelfClosingMatch.
  erewrite (index_nth _ 2) by reflexivity. cbn [bind].
  erewrite (index_nth _ 3) by reflexivity. cbn [bind].
  rewrite (slice_in text (pre ++ bs "<") tag (mid ++ last ++ bs ">" ++ rest)).
  2:{ rewrite Htext. now rewrite <- !app_assoc. }
  2:{ rewrite len_app. reflexivity. }
  2:{ rewrite len_app. reflexivity. }
  cbn [bind].
  destruct (closing_literal tag Htag) as (reClose & -> & Hlit). cbn [bind].
  erewrite (index_nth _ 1) by reflexivity. cbn [bind].
  rewrite (sliceFrom_in text (pre ++ bs "<" ++ tag ++ mid ++ last ++ bs ">") rest).
  2:{ rewrite Htext. now rewrite <- !app_assoc. }
  2:{ symmetry. apply len_app. }
  cbn [bind].
  destruct (MatchString reClose rest) eqn:Hclose; cbn [negb].
  - exists []. rewrite app_nil_r. split; [reflexivity | constructor].
  - erewrite (index_nth _ 0) by reflexivity. cbn [bind].
    rewrite (slice_in text pre (bs "<" ++ tag ++ mid ++ last ++ bs ">") rest); auto.
    cbn [bind]. eexists. split; [reflexivity |].
    constructor; [| constructor]. left. split; [reflexivity |].
    exists pre, tag, mid, last, rest, r.
    split; [exact Htext |]. split; [exact Htag |]. split; [exact Hmid |].
    split; [exact Hr |]. split; [exact Hr' |].
    split; [| repeat split].
    apply (MatchString_literal reClose _ rest Hlit); [discriminate | exact Hclose].
Qed.

Lemma quote_class pos c w rest c' :
  Mt (OpCharClass true [(34, 34); (39, 39)]) pos c w rest c' ->
  c' = c /\ exists r, runeBytes r w /\ r <> 0x22 /\ r <> 0x27.
Proof.
  intros (r & Hne & HD & Hm & ->). split; [reflexivity |].
  exists r. split; [now apply (rune_bytes _ rest) |].
  cbn [matchRune inRanges existsb xorb] in Hm. apply negb_true_iff in Hm.
  rewrite orb_false_r in Hm. apply orb_false_iff in Hm as [H1 H2].
  split; intros ->; [vm_compute in H1 | vm_compute in H2]; discriminate.
Qed.

Lemma value_class pos c w rest c' :
  Mt (OpCharClass true [(32, 32); (62, 62)]) pos c w rest c' ->
  c' = c /\ Forall (fun b => b <> x20 /\ b <> x3e) w.
Proof.
  intros HM.
  pose proof HM as HM'.
  apply (rune_op_avoids _ x20) in HM as (-> & _ & H1 & _);
    [| exact I | reflexivity | reflexivity].
  apply (rune_op_avoids _ x3e) in HM' as (_ & _ & H2 & _);
    [| exact I | reflexivity | reflexivity].
  split; [reflexivity |].
  rewrite Forall_forall in *. intros b Hb. split; auto.
Qed.

Lemma svgUnquotedAttrMatch_issue re i text m errors :
  MustCompile patSVGUnquotedAttr = Ok re ->
  MatchOf re text m ->
  exists e,
    svgUnquotedAttrMatch i text m errors = Ok (errors ++ [e])
    /\ svgIssueOn i text e.
Proof.
  intros Hre (pre & w & rest & c & -> & HM & ->).
  vm_compute in Hre. injection Hre as <-.
  cbn [expr] in HM.
  destruct HM as (w1 & w' & c1 & -> & H1 & HM).
  destruct HM as (w2 & w'' & c2 & -> & H2 & HM).
  destruct HM as (w3 & w''' & c3 & -> & H3 & HM).
  destruct HM as (w4 & w'''' & c4 & -> & H4 & HM).
  destruct HM as (w5 & w''''' & c5 & -> & H5 & HM).
  destruct HM as (w6 & w'''''' & c6 & -> & H6 & HM).
  destruct HM as (w7 & w8 & c7 & -> & H7 & H8).
  apply (Mt_literalText _ (bs "<")) in H1 as [-> ->]; [| reflexivity].
  apply (Mt_literalText _ (bs "s")) in H2 as [-> ->]; [| reflexivity].
  apply (Mt_literalText _ (bs "v")) in H3 as [-> ->]; [| reflexivity].
  apply (Mt_literalText _ (bs "g")) in H4 as [-> ->]; [| reflexivity].
  destruct H5 as (n5 & H5).
  apply (Iter_avoids _ (fun b => b <> x3e)) in H5 as [-> Hmid].
  2:{ intros p0 c0 w0 rest0 c0' HR.
      apply (rune_op_avoids _ x3e) in HR as (-> & _ & Hall & _); auto.
      vm_compute. reflexivity. }
  destruct H6 as (c6' & H6 & ->).
  apply (Mt_one_of _ attrNames) in H6 as [Hname ->]; [| reflexivity].
  apply (Mt_literalText _ (bs "=")) in H7 as [-> ->]; [| reflexivity].
  destruct H8 as (c8' & H8 & ->).
  destruct H8 as (first & others & c9 & -> & Hfirst & Hothers).
  apply quote_class in Hfirst as (-> & r & Hr & Hq1 & Hq2).
  destruct Hothers as (n8 & Hothers).
  apply (Iter_avoids _ (fun b => b <> x20 /\ b <> x3e)) in Hothers as [-> Hothers].
  2:{ intros p0 c0 w0 rest0 c0' HR. now apply value_class in HR. }
  unfold indices. cbn [numSubexp seq flat_map getCap Nat.eqb app].
  unfold svgUnquotedAttrMatch.
  erewrite (index_nth _ 2) by reflexivity. cbn [bind].
  erewrite (index_nth _ 3) by reflexivity. cbn [bind].
  rewrite (slice_in _ (pre ++ bs "<svg" ++ w5) w6 (bs "=" ++ (first ++ others) ++ rest)).
  2:{ assoc. }
  2:{ rewrite !len_app. change (len (bs "<svg")) with 4.
      change (len (bs "<")) with 1. change (len (bs "s")) with 1.
      change (len (bs "v")) with 1. change (len (bs "g")) with 1. lia. }
  2:{ rewrite !len_app. change (len (bs "<svg")) with 4.
      change (len (bs "<")) with 1. change (len (bs "s")) with 1.
      change (len (bs "v")) with 1. change (len (bs "g")) with 1. lia. }
  cbn [bind].
  erewrite (index_nth _ 4) by reflexivity. cbn [bind].
  erewrite (index_nth _ 5) by reflexivity. cbn [bind].
  rewrite (slice_in _ (pre ++ bs "<svg" ++ w5 ++ w6 ++ bs "=") (first ++ others) rest).
  2:{ assoc. }
  2:{ rewrite !len_app. change (len (bs "<svg")) with 4.
      change (len (bs "<")) with 1. change (len (bs "s")) with 1.
      change (len (bs "v")) with 1. change (len (bs "g")) with 1.
      change (len (bs "=")) with 1. lia. }
  2:{ rewrite !len_app. change (len (bs "<svg")) with 4.
      change (len (bs "<")) with 1. change (len (bs "s")) with 1.
      change (len (bs "v")) with 1. change (len (bs "g")) with 1.
      change (len (bs "=")) with 1. lia. }
  cbn [bind]. eexists. split; [reflexivity |].
  right. split; [reflexivity |].
  exists pre, w5, w6, first, others, rest, r.
  split; [assoc |]. split; [exact Hmid |]. split; [exact Hname |].
  split; [exact Hr |]. split; [exact Hq1 |]. split; [exact Hq2 |].
  split; [exact Hothers |].
  cbn [LineNumber Column Line Content Message].
  split; [reflexivity |]. split.
  { rewrite !len_app. change (len (bs "<svg")) with 4.
    change (len (bs "<")) with 1. change (len (bs "s")) with 1.
    change (len (bs "v")) with 1. change (len (bs "g")) with 1. lia. }
  split; [assoc |]. split; [assoc |]. assoc.
Qed.

Lemma svgLine_issues re1 re2 :
  MustCompile patSVGSelfClosing = Ok re1 ->
  MustCompile patSVGUnquotedAttr = Ok re2 ->
  forall i text errors,
    exists new, svgLine re1 re2 i text errors = Ok (errors ++ new)
                /\ Forall (svgIssueOn i text) new.
Proof.
  intros H1 H2 i text errors. unfold svgLine.
  destruct (forMatches_spec (selfClosingMatch text) (svgIssueOn i text)
              (svgSelfClosingMatch i text)) with
      (matches := FindAllStringSubmatchIndex re1 text) (errors := errors)
    as (new1 & -> & HQ1).
  { intros m errs Hm. now apply svgSelfClosingMatch_issue. }
  { eapply Forall_impl; [| apply FindAll_sound].
    intros m. now apply selfClosing_MatchOf. }
  cbn [bind].
  destruct (forMatches_spec (MatchOf re2 text) (svgIssueOn i text)
              (svgUnquotedAttrMatch i text)) with
      (matches := FindAllStringSubmatchIndex re2 text) (errors := errors ++ new1)
    as (new2 & -> & HQ2).
  { intros m errs Hm.
    destruct (svgUnquotedAttrMatch_issue re2 i text m errs H2 Hm) as (e & -> & He).
    exists [e]. split; [reflexivity |]. constructor; [exact He | constructor]. }
  { apply FindAll_sound. }
  exists (new1 ++ new2). rewrite app_assoc. split; [reflexivity |].
  apply Forall_app. auto.
Qed.

Lemma validateSVG_issues
    (ValidationOptions : Type) (MaxErrors : ValidationOptions -> Z)
    (content : gostring) (opts : ValidationOptions) :
  exists errs,
    validateSVG MaxErrors content opts = Ok errs
    /\ forall e, In e errs ->
         exists (k : nat) line,
           nth_error (Split content newline) k = Some line
           /\ svgIssueOn (Z.of_nat k) line e.
Proof.
  unfold validateSVG.
  destruct (MustCompile patSVGSelfClosing) as [re1 | p] eqn:H1;
    [| vm_compute in H1; discriminate].
  destruct (MustCompile patSVGUnquotedAttr) as [re2 | p] eqn:H2;
    [| vm_compute in H2; discriminate].
  cbn [bind].
  destruct (forLines_spec _ MaxErrors svgIssueOn (svgLine re1 re2) opts
              (svgLine_issues re1 re2 H1 H2) (Split content newline) 0 [])
    as (errs & -> & Hall).
  exists errs. split; [reflexivity |].
  intros e He. rewrite Forall_forall in Hall.
  destruct (Hall e He) as (k & line & Hk & HQ).
  exists k, line. rewrite Z.add_0_l in HQ. split; assumption.
Qed.

(** X10. Every unquoted-attribute issue of [validateSVG] sits on a line of
    the content that has [<svg], then bytes other than [>], then [width],
    [height] or [viewBox], then [=] and a value that does not start with a
    quote and goes on without a space or [>].  The issue highlights the
    name, [=] and the value, and its column is that of the name. *)
Theorem unquoted_attribute_issue_shape
    (ValidationOptions : Type) (MaxErrors : ValidationOptions -> Z)
    (content : gostring) (opts : ValidationOptions) :
  exists errs,
    validateSVG MaxErrors content opts = Ok errs
    /\ forall e, In e errs -> ErrorType e = unquotedAttrType ->
         exists (k : nat) line,
           nth_error (Split content newline) k = Some line
           /\ unquotedAttrIssue (Z.of_nat k) line e.
Proof.
  destruct (validateSVG_issues _ MaxErrors content opts) as (errs & E & Hall).
  exists errs. split; [exact E |].
  intros e He Hty. destruct (Hall e He) as (k & line & Hk & [[Hty' _] | [_ HQ]]).
  - rewrite Hty in Hty'. vm_compute in Hty'. discriminate.
  - exists k, line. split; assumption.
Qed.

(** X11. An element is reported as not self-closing only if its closing
    tag does not follow on the same line: for every self-closing issue of
    [validateSVG], the rest of the line after the highlighted text does
    not contain [</tag>] for the element's name.  The message names the
    element. *)
Theorem closed_element_is_not_flagged
    (ValidationOptions : Type) (MaxErrors : ValidationOptions -> Z)
    (content : gostring) (opts : ValidationOptions) :
  exists errs,
    validateSVG MaxErrors content opts = Ok errs
    /\ forall e, In e errs -> ErrorType e = selfClosingType ->
         exists (k : nat) line,
           nth_error (Split content newline) k = Some line
           /\ unclosedElementIssue (Z.of_nat k) line e.
Proof.
  destruct (validateSVG_issues _ MaxErrors content opts) as (errs & E & Hall).
  exists errs. split; [exact E |].
  intros e He Hty. destruct (Hall e He) as (k & line & Hk & [[_ HQ] | [Hty' _]]).
  - exists k, line. split; assumption.
  - rewrite Hty in Hty'. vm_compute in Hty'. discriminate.
Qed.

(** A [rect] with its closing tag on the line is not reported, one without
    it is; a quoted attribute is not reported, an unquoted one is. *)
Lemma svg_issue_examples :
  validateSVG Plain.MaxErrors (bs "<rect x=1></rect>") (Plain.mkOptions 0 false) = Ok []
  /\ (exists e, validateSVG Plain.MaxErrors (bs "<rect x=1>") (Plain.mkOptions 0 false) = Ok [e]
                /\ Content e = bs "<rect x=1>")
  /\ validateSVG Plain.MaxErrors (bs "<svg width='1'") (Plain.mkOptions 0 false) = Ok []
  /\ (exists e, validateSVG Plain.MaxErrors (bs "<svg width=1 x") (Plain.mkOptions 0 false) = Ok [e]
                /\ Content e = bs "width=1" /\ Column e = 6).
Proof.
  split; [vm_compute; reflexivity |].
  split; [eexists; split; [vm_compute; reflexivity | reflexivity] |].
  split; [vm_compute; reflexivity |].
  eexists. split; [vm_compute; reflexivity |]. now split.
Qed.

(** ** The process *)

Lemma bindP_unfold {A B : Type} (c : Proc A) (k : A -> Proc B) :
  bindP c k
  = match snd c with
    | inl a => (fst c ++ fst (k a), snd (k a))
    | inr s => (fst c, inr s)
    end.
Proof.
  destruct c as [out [a | s]]; cbn [bindP fst snd]; [| reflexivity].
  now destruct (k a).
Qed.

Lemma bindP_ret {A B : Type} (out : list gostring) (a : A) (k : A -> Proc B) :
  bindP (out, inl a) k = (out ++ fst (k a), snd (k a)).
Proof. now rewrite bindP_unfold. Qed.

Lemma bindP_stop {A B : Type} (out : list gostring) (s : stop) (k : A -> Proc B) :
  bindP (out, inr s) k = (out, inr s).
Proof. reflexivity. Qed.

Lemma concat_repeat_byte (b : byte) (n : nat) :
  List.concat (List.repeat [b] n) = List.repeat b n.
Proof. induction n as [| n IH]; [reflexivity |]. simpl. now rewrite IH. Qed.

Lemma Repeat_byte (b : byte) (count : Z) :
  0 <= count -> Repeat [b] count = retP (List.repeat b (Z.to_nat count)).
Proof.
  intros H. unfold Repeat.
  replace (count <? 0) with false by (symmetry; apply Z.ltb_ge; lia).
  now rewrite concat_repeat_byte.
Qed.

(** ** displayError *)

(** Where the guard [err.Column > 0] holds, [strings.Repeat] gets counts
    that are not negative, and the pointer is printed. *)
Lemma pointerLine_prints err :
  0 < Column err ->
  PlainMain.pointerLine err = ([pointerText err ++ [newline]], inl tt).
Proof.
  intros Hcol. unfold PlainMain.pointerLine, pointerText.
  change (bs " ") with [x20]. change (bs "~") with [x7e].
  rewrite Repeat_byte by lia. unfold retP at 1. rewrite bindP_ret.
  destruct (len (Content err) >? 1) eqn:Hc.
  - zbool. rewrite Repeat_byte by lia. unfold retP.
    repeat (rewrite bindP_ret; cbn [fst snd io Println app]).
    now rewrite <- !app_assoc.
  - zbool. unfold retP.
    repeat (rewrite bindP_ret; cbn [fst snd io Println app]).
    replace (Z.to_nat (len (Content err) - 1)) with 0%nat by lia.
    cbn [List.repeat]. now rewrite <- !app_assoc.
Qed.

Lemma numbered_above err : forall lines from,
  LineNumber err + 2 < from ->
  filter (inContext err) (numbered lines from) = [].
Proof.
  induction lines as [| line rest IH]; intros from H; [reflexivity |].
  cbn [numbered filter]. unfold inContext at 1. cbn [fst].
  replace (from <=? LineNumber err + 2) with false
    by (symmetry; apply Z.leb_gt; lia).
  rewrite andb_false_r. apply IH. lia.
Qed.

Lemma contextLoop_prints err : forall tokens lineNum,
  PlainMain.contextLoop err (Z.max 1 (LineNumber err - 2)) (LineNumber err + 2)
    tokens lineNum
  = (flat_map (shownLine err) (filter (inContext err) (numbered tokens lineNum)),
     inl tt).
Proof.
  induction tokens as [| line rest IH]; intros lineNum; [reflexivity |].
  cbn [PlainMain.contextLoop numbered filter].
  unfold inContext at 1. cbn [fst].
  rewrite Z.geb_leb.
  destruct ((Z.max 1 (LineNumber err - 2) <=? lineNum)
            && (lineNum <=? LineNumber err + 2)) eqn:Hin.
  - cbn [flat_map]. unfold shownLine at 1. cbn [fst snd].
    unfold Printf at 1. rewrite bindP_ret.
    assert (Hshown :
      (if (lineNum =? LineNumber err) && (Column err >? 0)
       then PlainMain.pointerLine err else retP tt)
      = ((if (lineNum =? LineNumber err) && (Column err >? 0)
          then [pointerText err ++ [newline]] else []), inl tt)).
    { destruct ((lineNum =? LineNumber err) && (Column err >? 0)) eqn:Hp;
        [| reflexivity].
      zbool. now apply pointerLine_prints. }
    rewrite Hshown. cbn [fst snd]. rewrite bindP_ret.
    destruct (lineNum + 1 >? LineNumber err + 2) eqn:Hend.
    + zbool. rewrite numbered_above by lia.
      cbn [retP fst snd flat_map]. now rewrite !app_nil_r.
    + rewrite IH. cbn [fst snd]. now rewrite <- app_assoc.
  - unfold retP at 1. rewrite bindP_ret. cbn [app].
    destruct (lineNum + 1 >? LineNumber err + 2) eqn:Hend.
    + zbool. now rewrite numbered_above by lia.
    + now rewrite IH.
Qed.

(** X13. [displayError] never stops the run: it always returns.  It writes
    the issue's number, position, type and message, and between two rules
    the lines of the content, as the scanner yields them, that are numbered
    from two before the error line (but not before line 1) to two after it,
    each with its number; the pointer follows the error line if the issue
    has a column above 0. *)
Theorem displayError_output
    (content : gostring) (err : ValidationError) (index : Z) :
  PlainMain.displayError content err index
  = ([ [newline] ++ bs "Issue #" ++ Itoa index ++ bs ":" ++ [newline];
       bs "Line " ++ Itoa (LineNumber err) ++ bs ", Column "
         ++ Itoa (Column err) ++ bs ": " ++ ErrorType err ++ [newline];
       bs "Message: " ++ Message err ++ [newline];
       [newline] ++ bs "Context:" ++ [newline];
       dashes ++ [newline] ]
     ++ flat_map (shownLine err)
          (filter (inContext err) (numbered (scanLines content) 1))
     ++ [dashes ++ [newline]],
     inl tt).
Proof.
  unfold PlainMain.displayError.
  replace (if LineNumber err - 2 <? 1 then 1 else LineNumber err - 2)
    with (Z.max 1 (LineNumber err - 2))
    by (destruct (LineNumber err - 2 <? 1) eqn:E; zbool; lia).
  rewrite contextLoop_prints.
  unfold Printf, io, Println. cbn [bindP]. cbn [app].
  rewrite <- ?app_assoc. reflexivity.
Qed.

(** *** The width of a number *)

Lemma digits_grows fuel : forall n acc,
  (List.length acc <= List.length (digits fuel 10 n acc))%nat.
Proof.
  induction fuel as [| fuel IH]; intros n acc; [simpl; lia |].
  cbn [digits]. destruct (n / 10 =? 0); [simpl; lia |].
  specialize (IH (n / 10) (digit (n mod 10) :: acc)). simpl in IH. lia.
Qed.

Lemma digits_width_le (k : nat) : forall fuel n acc,
  (1 <= k)%nat -> 0 <= n < 10 ^ Z.of_nat k -> (k <= fuel)%nat ->
  (List.length (digits fuel 10 n acc) <= List.length acc + k)%nat.
Proof.
  induction k as [| k IH]; intros fuel n acc Hk Hn Hf; [lia |].
  destruct fuel as [| fuel]; [lia |].
  cbn [digits]. destruct (n / 10 =? 0) eqn:E; [simpl; lia |]. zbool.
  assert (Hq : 0 <= n / 10 < 10 ^ Z.of_nat k).
  { rewrite Nat2Z.inj_succ, Z.pow_succ_r in Hn by lia.
    split; [apply Z.div_pos; lia |].
    apply Z.div_lt_upper_bound; lia. }
  destruct k as [| k'].
  - simpl in Hq. lia.
  - specialize (IH fuel (n / 10) (digit (n mod 10) :: acc)).
    simpl List.length in IH. specialize (IH ltac:(lia) Hq ltac:(lia)). lia.
Qed.

Lemma digits_width_ge (k : nat) : forall fuel n acc,
  10 ^ Z.of_nat k <= n -> (k < fuel)%nat ->
  (List.length acc + k + 1 <= List.length (digits fuel 10 n acc))%nat.
Proof.
  induction k as [| k IH]; intros fuel n acc Hn Hf.
  - destruct fuel as [| fuel]; [lia |].
    cbn [digits]. destruct (n / 10 =? 0); [simpl; lia |].
    pose proof (digits_grows fuel (n / 10) (digit (n mod 10) :: acc)) as H.
    simpl in H. lia.
  - destruct fuel as [| fuel]; [lia |].
    rewrite Nat2Z.inj_succ, Z.pow_succ_r in Hn by lia.
    assert (Hq : 10 ^ Z.of_nat k <= n / 10).
    { apply Z.div_le_lower_bound; lia. }
    assert (0 < 10 ^ Z.of_nat k) by (apply Z.pow_pos_nonneg; lia).
    cbn [digits]. destruct (n / 10 =? 0) eqn:E; [zbool; lia |].
    specialize (IH fuel (n / 10) (digit (n mod 10) :: acc) Hq ltac:(lia)).
    simpl List.length in IH. lia.
Qed.

(** [%4d] takes four characters up to 9999 and more from 10000 on. *)
Lemma fmt4d_width n :
  1 <= n ->
  (n <= 9999 -> len (fmt4d n) = 4) /\ (10000 <= n -> 4 < len (fmt4d n)).
Proof.
  intros Hn. unfold fmt4d, Itoa, formatInt.
  replace (n <? 0) with false by (symmetry; apply Z.ltb_ge; lia).
  assert (Hp : 10 ^ Z.of_nat 4 = 10000) by reflexivity.
  split; intros H.
  - assert (Hle : (List.length (digits 64 10 n []) <= 0 + 4)%nat).
    { apply (digits_width_le 4 64 n []); [lia | rewrite Hp; lia | lia]. }
    rewrite len_app. unfold len. rewrite repeat_length. lia.
  - assert (Hge : (0 + 4 + 1 <= List.length (digits 64 10 n []))%nat).
    { apply (digits_width_ge 4 64 n []); [rewrite Hp; lia | lia]. }
    rewrite len_app. unfold len. rewrite repeat_length. lia.
Qed.

(** X12. In the context that [displayError] prints, the caret of the
    pointer stands under the byte of the error line that the issue's
    column names, counting bytes from 1, as long as the line number has at
    most four digits.  From line 10000 on the printed line is shifted to
    the right by its longer number and the caret stands left of that
    byte. *)
Theorem caret_under_column
    (err : ValidationError) (lineNum : Z) (line : gostring) (b : byte) :
  0 < Column err -> 1 <= lineNum ->
  nth_error line (Z.to_nat (Column err - 1)) = Some b ->
  let printed := fmt4d lineNum ++ bs ": " ++ line in
  let caret := Z.to_nat (Column err + 5) in
  exists k : nat,
    nth_error printed k = Some b
    /\ nth_error (pointerText err) caret = Some x5e
    /\ firstn caret (pointerText err) = List.repeat x20 caret
    /\ (lineNum <= 9999 -> k = caret)
    /\ (10000 <= lineNum -> (caret < k)%nat).
Proof.
  intros Hcol Hn Hb printed caret.
  exists (List.length (fmt4d lineNum) + 2 + Z.to_nat (Column err - 1))%nat.
  destruct (fmt4d_width lineNum Hn) as [H4 H5].
  split; [| split; [| split; [| split]]].
  - subst printed. rewrite nth_error_app2 by lia.
    replace (List.length (fmt4d lineNum) + 2 + Z.to_nat (Column err - 1)
             - List.length (fmt4d lineNum))%nat
      with (2 + Z.to_nat (Column err - 1))%nat by lia.
    exact Hb.
  - unfold pointerText. subst caret.
    rewrite nth_error_app2 by (rewrite repeat_length; lia).
    now rewrite repeat_length, Nat.sub_diag.
  - unfold pointerText. subst caret.
    rewrite firstn_app, repeat_length, Nat.sub_diag.
    cbn [firstn]. rewrite app_nil_r. apply firstn_all2.
    rewrite repeat_length. lia.
  - intros H. specialize (H4 H). unfold len in H4. subst caret. lia.
  - intros H. specialize (H5 H). unfold len in H5. subst caret. lia.
Qed.

Lemma caret_under_column_witness :
  let err := {| LineNumber := 3; Column := 2; Line := bs "a#12";
                ErrorType := bs "Invalid hex color"; Message := [];
                Content := bs "#12" |} in
  let printed := fmt4d 3 ++ bs ": " ++ bs "a#12" in
  let caret := Z.to_nat (Column err + 5) in
  exists k : nat,
    nth_error printed k = Some x23
    /\ nth_error (pointerText err) caret = Some x5e
    /\ firstn caret (pointerText err) = List.repeat x20 caret
    /\ (3 <= 9999 -> k = caret)
    /\ (10000 <= 3 -> (caret < k)%nat).
Proof.
  intros err.
  apply (caret_under_column err 3 (bs "a#12") x23).
  - simpl. lia.
  - lia.
  - reflexivity.
Defined.

(** ** main *)

(** What [validateXML] comes to: with an issue of [validateBasicXML] it
    returns that issue and prints nothing; without one it prints two lines
    and panics in [validateCDATASections]. *)
Lemma validateXML_run xmlTokens content opts :
  Plain.validateXML xmlTokens content opts
  = if len (validateBasicXML xmlTokens content) =? 0
    then ([bs "Basic XML validation passed. Performing additional checks..." ++ [newline];
           bs "Checking CDATA sections..." ++ [newline]],
          Panic lookaheadPanic)
    else ([], Ok (validateBasicXML xmlTokens content)).
Proof.
  unfold Plain.validateXML, Plain.validateXMLWith, Plain.limit.
  pose proof (validateBasicXML_at_most_one xmlTokens content) as Hle.
  destruct (validateBasicXML xmlTokens content) as [| e l].
  - cbn [app]. rewrite len_nil.
    replace ((0 >=? Plain.MaxErrors opts) && (Plain.MaxErrors opts >? 0)) with false
      by (symmetry; destruct (0 >=? Plain.MaxErrors opts) eqn:E1;
          [| reflexivity]; rewrite Z.geb_leb in E1; apply Z.leb_le in E1;
          cbn [andb]; rewrite Z.gtb_ltb; apply Z.ltb_ge; lia).
    cbn [Z.eqb]. rewrite cdata_compile_panic. reflexivity.
  - assert (l = []) as ->.
    { destruct l; [reflexivity |]. rewrite !len_cons in Hle.
      pose proof (len_nonneg l). lia. }
    cbn [app]. change (len [e]) with 1. cbn [Z.eqb].
    destruct ((1 >=? Plain.MaxErrors opts) && (Plain.MaxErrors opts >? 0)) eqn:Hcut.
    + zbool. assert (Plain.MaxErrors opts = 1) as -> by lia. reflexivity.
    + destruct ((Plain.MaxErrors opts >? 0) && (1 >? Plain.MaxErrors opts)) eqn:Hlim;
        [| reflexivity].
      zbool. lia.
Qed.

Lemma displayError_returns content err index :
  snd (PlainMain.displayError content err index) = inl tt.
Proof.
  unfold PlainMain.displayError.
  replace (if LineNumber err - 2 <? 1 then 1 else LineNumber err - 2)
    with (Z.max 1 (LineNumber err - 2))
    by (destruct (LineNumber err - 2 <? 1) eqn:E; zbool; lia).
  rewrite contextLoop_prints.
  unfold Printf, io, Println. cbn [bindP]. reflexivity.
Qed.

Lemma skipn_cons_nth {A : Type} (l : list A) (i : nat) (a : A) :
  nth_error l i = Some a -> skipn i l = a :: skipn (S i) l.
Proof.
  revert i. induction l as [| x l IH]; intros [| i] H; try discriminate.
  - injection H as ->. reflexivity.
  - simpl in H. cbn [skipn]. rewrite (IH i H). reflexivity.
Qed.

(** The loop of [main] over the issues to show never indexes out of range
    and shows them in order, numbered from 1. *)
Lemma displayLoop_run content allErrors : forall todo i,
  0 <= i -> i + Z.of_nat todo <= len allErrors ->
  PlainMain.displayLoop content allErrors todo i
  = (flat_map (shownIssue content)
       (numbered (firstn todo (skipn (Z.to_nat i) allErrors)) (i + 1)),
     inl tt).
Proof.
  induction todo as [| todo IH]; intros i Hi Hlen; [reflexivity |].
  cbn [PlainMain.displayLoop].
  destruct (nth_error allErrors (Z.to_nat i)) as [e |] eqn:He.
  2:{ apply nth_error_None in He. unfold len in Hlen. lia. }
  rewrite (index_nth allErrors i e) by (auto; apply Z.ltb_ge; lia).
  cbn [run io]. rewrite bindP_ret. cbn [app].
  rewrite (skipn_cons_nth _ _ _ He). cbn [firstn numbered flat_map].
  rewrite bindP_unfold, displayError_returns.
  rewrite IH by lia. cbn [fst snd].
  replace (Z.to_nat (i + 1)) with (S (Z.to_nat i)) by lia.
  reflexivity.
Qed.

Lemma printCorrectionTips_returns :
  snd PlainMain.printCorrectionTips = inl tt.
Proof. reflexivity. Qed.

(** What [main] does with a list of issues that is not empty. *)
Lemma report_run content opts allErrors :
  allErrors <> [] ->
  PlainMain.report content opts allErrors
  = ([foundText (len allErrors) (Plain.MaxErrors opts); dashes ++ [newline]]
     ++ flat_map (shownIssue content)
          (numbered
             (firstn (Z.to_nat (Z.min (Plain.MaxErrors opts) (len allErrors)))
                allErrors) 1)
     ++ (if len allErrors >? Plain.MaxErrors opts
         then [noteText (len allErrors)] else [])
     ++ fst PlainMain.printCorrectionTips,
     inr (Exit 1)).
Proof.
  intros Hne.
  assert (Hpos : 0 < len allErrors).
  { destruct allErrors; [congruence |]. rewrite len_cons.
    pose proof (len_nonneg allErrors). lia. }
  assert (Hloop :
    PlainMain.displayLoop content allErrors
      (Z.to_nat (if Plain.MaxErrors opts >? len allErrors then len allErrors
                 else Plain.MaxErrors opts)) 0
    = (flat_map (shownIssue content)
         (numbered
            (firstn (Z.to_nat (Z.min (Plain.MaxErrors opts) (len allErrors)))
               allErrors) 1),
       inl tt)).
  { replace (if Plain.MaxErrors opts >? len allErrors then len allErrors
             else Plain.MaxErrors opts)
      with (Z.min (Plain.MaxErrors opts) (len allErrors))
      by (destruct (Plain.MaxErrors opts >? len allErrors) eqn:E; zbool; lia).
    rewrite displayLoop_run by lia. reflexivity. }
  assert (Hnote :
    (if len allErrors >? Plain.MaxErrors opts
     then Printf ([newline] ++ bs "Note: Found more errors than displayed ("
                  ++ Itoa (len allErrors) ++ bs " total). Run with --max-errors="
                  ++ Itoa (len allErrors) ++ bs " to see all." ++ [newline])
     else retP tt)
    = ((if len allErrors >? Plain.MaxErrors opts
        then [noteText (len allErrors)] else []), inl tt)).
  { destruct (len allErrors >? Plain.MaxErrors opts); reflexivity. }
  unfold PlainMain.report.
  replace (len allErrors =? 0) with false by (symmetry; apply Z.eqb_neq; lia).
  rewrite Hloop, Hnote.
  reflexivity.
Qed.


(** [main] with a file name, up to the result of [readFileContent]. *)
Lemma main_reads xmlTokens world filepath rest opts out content err :
  PlainMain.readFileContent world filepath = (out, inl (content, err)) ->
  PlainMain.main xmlTokens world (filepath :: rest) opts
  = let tail :=
      _ <-- match err with
            | Some err =>
              _ <-- Printf (crossMark ++ bs " Error reading file: " ++ err
                            ++ [newline]) ;;
              osExit 1
            | None => retP tt
            end ;;
      allErrors <-- io (Plain.validateXML xmlTokens content opts) ;;
      PlainMain.report content opts allErrors in
    ([bs "Validating XML: " ++ filepath ++ [newline];
      bs "Will report up to " ++ Itoa (Plain.MaxErrors opts)
        ++ bs " errors" ++ [newline]] ++ out ++ fst tail,
     snd tail).
Proof.
  intros Hread. unfold PlainMain.main.
  replace (len (filepath :: rest) <? 1) with false
    by (symmetry; apply Z.ltb_ge; rewrite len_cons;
        pose proof (len_nonneg rest); lia).
  change (index (filepath :: rest) 0) with (Ok filepath).
  cbn [run io retP Printf bindP]. rewrite Hread. cbn [bindP].
  match goal with
  | |- context [bindP ?c ?k] => destruct (bindP c k) as [o r]
  end.
  reflexivity.
Qed.


(** X15. With a list of issues that is not empty, [main] prints the count
    and the budget, then the first issues of the list, as many as the
    budget but not more than there are, numbered from 1 in the order of
    the list, then the note on further issues if the list is longer than
    the budget, then the correction tips, and exits with status 1.  With a
    budget of 0 or less it displays no issue at all and prints the note. *)
Theorem report_displays_first_issues
    (content : gostring) (opts : Plain.ValidationOptions)
    (allErrors : list ValidationError) :
  allErrors <> [] ->
  PlainMain.report content opts allErrors
  = ([foundText (len allErrors) (Plain.MaxErrors opts); dashes ++ [newline]]
     ++ flat_map (shownIssue content)
          (numbered
             (firstn (Z.to_nat (Z.min (Plain.MaxErrors opts) (len allErrors)))
                allErrors) 1)
     ++ (if len allErrors >? Plain.MaxErrors opts
         then [noteText (len allErrors)] else [])
     ++ fst PlainMain.printCorrectionTips,
     inr (Exit 1)).
Proof. apply report_run. Qed.

Lemma report_displays_first_issues_witness :
  let e := {| LineNumber := 1; Column := 4; Line := bs "<a>#12";
              ErrorType := bs "Invalid hex color"; Message := [];
              Content := bs "#12" |} in
  let content := bs "<a>#12" in
  let opts := Plain.mkOptions 0 false in
  PlainMain.report content opts [e]
  = ([foundText (len [e]) (Plain.MaxErrors opts); dashes ++ [newline]]
     ++ flat_map (shownIssue content)
          (numbered
             (firstn (Z.to_nat (Z.min (Plain.MaxErrors opts) (len [e]))) [e]) 1)
     ++ (if len [e] >? Plain.MaxErrors opts then [noteText (len [e])] else [])
     ++ fst PlainMain.printCorrectionTips,
     inr (Exit 1)).
Proof.
  intros e content opts.
  apply (report_displays_first_issues content opts [e]). discriminate.
Defined.

(** X16. When the XML decoder reports an error on a file that was read,
    [main] finds exactly one issue.  With a budget of at least 1 it
    displays that issue as number 1 and prints no note; with a budget of 0
    or less, which [validateXML] takes for no limit, it displays no issue
    and prints the note that 1 issue was found. *)
Theorem main_on_basic_error
    (xmlTokens : gostring -> list tokenResult) (world : World)
    (filepath : gostring) (rest : list gostring)
    (opts : Plain.ValidationOptions)
    (out : list gostring) (content : gostring) (e : ValidationError) :
  PlainMain.readFileContent world filepath = (out, inl (content, None)) ->
  validateBasicXML xmlTokens content = [e] ->
  PlainMain.main xmlTokens world (filepath :: rest) opts
  = ([bs "Validating XML: " ++ filepath ++ [newline];
      bs "Will report up to " ++ Itoa (Plain.MaxErrors opts)
        ++ bs " errors" ++ [newline]]
     ++ out
     ++ [foundText 1 (Plain.MaxErrors opts); dashes ++ [newline]]
     ++ (if 0 <? Plain.MaxErrors opts
         then fst (PlainMain.displayError content e 1)
         else [noteText 1])
     ++ fst PlainMain.printCorrectionTips,
     inr (Exit 1)).
Proof.
  intros Hread Hbasic.
  rewrite (main_reads _ _ _ _ _ _ _ _ Hread).
  rewrite validateXML_run, Hbasic. change (len [e] =? 0) with false. cbv iota.
  cbn [io retP bindP].
  rewrite report_run by discriminate.
  change (len [e]) with 1.
  destruct (0 <? Plain.MaxErrors opts) eqn:HN.
  - zbool.
    replace (1 >? Plain.MaxErrors opts) with false
      by (symmetry; rewrite Z.gtb_ltb; apply Z.ltb_ge; lia).
    replace (Z.to_nat (Z.min (Plain.MaxErrors opts) 1)) with 1%nat by lia.
    cbn [firstn numbered flat_map shownIssue fst snd app].
    rewrite ?app_nil_r, <- ?app_assoc. reflexivity.
  - zbool.
    replace (1 >? Plain.MaxErrors opts) with true
      by (symmetry; rewrite Z.gtb_ltb; apply Z.ltb_lt; lia).
    replace (Z.to_nat (Z.min (Plain.MaxErrors opts) 1)) with 0%nat by lia.
    cbn [firstn numbered flat_map app].
    rewrite <- ?app_assoc. reflexivity.
Qed.

Lemma main_on_basic_error_witness :
  let world := mkWorld (fun _ => inr (bs "no network"))
                       (fun _ => (bs "<a>", None)) in
  let opts := Plain.mkOptions 0 false in
  let e := {| LineNumber := 1; Column := 2; Line := bs "<a>";
              ErrorType := bs "Basic XML Syntax Error";
              Message := Error_ (SyntaxError (bs "unexpected EOF") 1);
              Content := [] |} in
  PlainMain.main tokensSyntaxError world [bs "a.xml"] opts
  = ([bs "Validating XML: " ++ bs "a.xml" ++ [newline];
      bs "Will report up to " ++ Itoa (Plain.MaxErrors opts)
        ++ bs " errors" ++ [newline]]
     ++ [bs "Reading local file..." ++ [newline]]
     ++ [foundText 1 (Plain.MaxErrors opts); dashes ++ [newline]]
     ++ (if 0 <? Plain.MaxErrors opts
         then fst (PlainMain.displayError (bs "<a>") e 1)
         else [noteText 1])
     ++ fst PlainMain.printCorrectionTips,
     inr (Exit 1)).
Proof.
  intros world opts e.
  apply (main_on_basic_error tokensSyntaxError world (bs "a.xml") [] opts
           [bs "Reading local file..." ++ [newline]] (bs "<a>") e).
  - reflexivity.
  - reflexivity.
Defined.

(** X17. On every file that is read and in which the XML decoder finds no
    error, [main] prints the two lines of its own, what [readFileContent]
    printed, the two progress lines of [validateXML], and then panics: no
    result is reported for a well-formed file. *)
Theorem main_panics_on_well_formed_file
    (xmlTokens : gostring -> list tokenResult) (world : World)
    (filepath : gostring) (rest : list gostring)
    (opts : Plain.ValidationOptions)
    (out : list gostring) (content : gostring) :
  PlainMain.readFileContent world filepath = (out, inl (content, None)) ->
  validateBasicXML xmlTokens content = [] ->
  PlainMain.main xmlTokens world (filepath :: rest) opts
  = ([bs "Validating XML: " ++ filepath ++ [newline];
      bs "Will report up to " ++ Itoa (Plain.MaxErrors opts)
        ++ bs " errors" ++ [newline]]
     ++ out
     ++ [bs "Basic XML validation passed. Performing additional checks..."
           ++ [newline];
         bs "Checking CDATA sections..." ++ [newline]],
     inr (Crashed lookaheadPanic)).
Proof.
  intros Hread Hbasic.
  rewrite (main_reads _ _ _ _ _ _ _ _ Hread).
  rewrite validateXML_run, Hbasic. reflexivity.
Qed.

Lemma main_panics_on_well_formed_file_witness :
  let world := mkWorld (fun _ => inr (bs "no network"))
                       (fun _ => (bs "<a>#12 #1</a>", None)) in
  let opts := Plain.mkOptions 5 false in
  PlainMain.main tokensWellFormed world [bs "a.xml"] opts
  = ([bs "Validating XML: " ++ bs "a.xml" ++ [newline];
      bs "Will report up to " ++ Itoa (Plain.MaxErrors opts)
        ++ bs " errors" ++ [newline]]
     ++ [bs "Reading local file..." ++ [newline]]
     ++ [bs "Basic XML validation passed. Performing additional checks..."
           ++ [newline];
         bs "Checking CDATA sections..." ++ [newline]],
     inr (Crashed lookaheadPanic)).
Proof.
  intros world opts.
  apply (main_panics_on_well_formed_file tokensWellFormed world (bs "a.xml") []
           opts [bs "Reading local file..." ++ [newline]] (bs "<a>#12 #1</a>")).
  - reflexivity.
  - reflexivity.
Defined.

(** X18. A name that starts with [http://] or [https://] is downloaded and
    never read from the file system.  If the server answers with a status
    other than 200, [main] prints the status as an error and exits with
    status 1 without looking at the body and without validating
    anything. *)
Theorem main_on_http_status
    (xmlTokens : gostring -> list tokenResult) (world : World)
    (filepath : gostring) (rest : list gostring)
    (opts : Plain.ValidationOptions) (resp : Response) :
  HasPrefix filepath (bs "http://") || HasPrefix filepath (bs "https://") = true ->
  httpGet world filepath = inl resp ->
  StatusCode resp <> 200 ->
  PlainMain.main xmlTokens world (filepath :: rest) opts
  = ([bs "Validating XML: " ++ filepath ++ [newline];
      bs "Will report up to " ++ Itoa (Plain.MaxErrors opts)
        ++ bs " errors" ++ [newline];
      bs "Downloading from URL..." ++ [newline];
      crossMark ++ bs " Error reading file: " ++ bs "HTTP error: "
        ++ Status resp ++ [newline]],
     inr (Exit 1)).
Proof.
  intros Hprefix Hget Hstatus.
  assert (Hread : PlainMain.readFileContent world filepath
                  = ([bs "Downloading from URL..." ++ [newline]],
                     inl ([], Some (bs "HTTP error: " ++ Status resp)))).
  { unfold PlainMain.readFileContent. rewrite Hprefix, Hget.
    replace (StatusCode resp =? 200) with false
      by (symmetry; now apply Z.eqb_neq).
    reflexivity. }
  rewrite (main_reads _ _ _ _ _ _ _ _ Hread). reflexivity.
Qed.

Lemma main_on_http_status_witness :
  let resp := mkResponse 404 (bs "404 Not Found") (bs "<a></a>", None) in
  let world := mkWorld (fun _ => inl resp) (fun _ => (bs "<a>", None)) in
  let opts := Plain.mkOptions 5 false in
  PlainMain.main tokensWellFormed world [bs "https://example.com/a.xml"] opts
  = ([bs "Validating XML: " ++ bs "https://example.com/a.xml" ++ [newline];
      bs "Will report up to " ++ Itoa (Plain.MaxErrors opts)
        ++ bs " errors" ++ [newline];
      bs "Downloading from URL..." ++ [newline];
      crossMark ++ bs " Error reading file: " ++ bs "HTTP error: "
        ++ Status resp ++ [newline]],
     inr (Exit 1)).
Proof.
  intros resp world opts.
  apply (main_on_http_status tokensWellFormed world
           (bs "https://example.com/a.xml") [] opts resp).
  - reflexivity.
  - reflexivity.
  - simpl. lia.
Defined.

(** X20. Of the patterns that the checkers compile, only the third
    pattern of [validateCDATASections], the one with the lookahead, is
    refused by [regexp.MustCompile].  The other five CDATA patterns, the
    hex colour pattern, the two SVG patterns and the closing-tag pattern
    that [validateSVG] builds for each of the nine element names all
    compile. *)
Theorem only_the_lookahead_pattern_fails :
  Forall (fun p => exists re, MustCompile p = Ok re)
    [patCDATAWithSpecialChar; patCDATAWithExclamation; patNestedCDATA;
     patMultiClosingCDATA; patEmptyCDATA; patInvalidHex; patSVGSelfClosing;
     patSVGUnquotedAttr]
  /\ Forall (fun tag => exists re, MustCompile (bs "</" ++ tag ++ bs ">") = Ok re)
       voidTags
  /\ MustCompile patUnclosedCDATA = Panic lookaheadPanic.
Proof.
  split; [| split].
  - repeat (constructor; [eexists; vm_compute; reflexivity |]). constructor.
  - repeat (constructor; [eexists; vm_compute; reflexivity |]). constructor.
  - reflexivity.
Qed.

(** ** The two entry points, with colours off *)

Lemma sameRun_refl {A : Type} (c : Proc A) : sameRun c c.
Proof. now split. Qed.

Lemma sameRun_bind {A B : Type} (c1 c2 : Proc A) (k1 k2 : A -> Proc B) :
  sameRun c1 c2 -> (forall a, sameRun (k1 a) (k2 a)) ->
  sameRun (bindP c1 k1) (bindP c2 k2).
Proof.
  intros [Hout Hend] Hk. unfold sameRun, stdout, ending in *.
  rewrite !bindP_unfold. rewrite Hend.
  destruct (snd c2) as [a | s]; cbn [fst snd].
  - destruct (Hk a) as [Hout' Hend'].
    rewrite !concat_app, Hout, Hout', Hend'. auto.
  - auto.
Qed.

Section ColoursOff.

Variable xmlTokens : gostring -> list tokenResult.
Variable world : World.
Variable sprint : bool -> Attribute -> gostring -> gostring.

(** With [color.NoColor] set, a colour function returns its text. *)
Hypothesis plain : forall a s, sprint true a s = s.

Ltac uncolour :=
  unfold ColoredMain.successColor, ColoredMain.errorColor,
    ColoredMain.highlightColor, ColoredMain.headerColor,
    ColoredMain.infoColor;
  rewrite ?plain.

Lemma readFileContent_same filepath :
  ColoredMain.readFileContent world sprint true filepath
  = PlainMain.readFileContent world filepath.
Proof.
  unfold ColoredMain.readFileContent, PlainMain.readFileContent.
  uncolour. reflexivity.
Qed.

Lemma pointerLine_same err :
  ColoredMain.pointerLine sprint true err = PlainMain.pointerLine err.
Proof.
  unfold ColoredMain.pointerLine, PlainMain.pointerLine. uncolour.
  destruct (Repeat (bs " ") (Column err + 5)) as [o [spaces | s]];
    [| reflexivity].
  cbn [bindP].
  destruct (len (Content err) >? 1); [| reflexivity].
  destruct (Repeat (bs "~") (len (Content err) - 1)) as [o' [tildes | s]];
    [| reflexivity].
  cbn [bindP retP]. now rewrite plain.
Qed.

Lemma contextLoop_same err cs ce : forall tokens lineNum,
  ColoredMain.contextLoop sprint true err cs ce tokens lineNum
  = PlainMain.contextLoop err cs ce tokens lineNum.
Proof.
  induction tokens as [| line rest IH]; intros lineNum; [reflexivity |].
  cbn [ColoredMain.contextLoop PlainMain.contextLoop].
  rewrite pointerLine_same. uncolour.
  destruct (lineNum + 1 >? ce).
  - destruct (lineNum =? LineNumber err); reflexivity.
  - rewrite IH. destruct (lineNum =? LineNumber err); reflexivity.
Qed.

Lemma displayError_same content err index :
  ColoredMain.displayError sprint true content err index
  = PlainMain.displayError content err index.
Proof.
  unfold ColoredMain.displayError, PlainMain.displayError.
  rewrite contextLoop_same. uncolour. reflexivity.
Qed.

Lemma displayLoop_same content allErrors : forall todo i,
  ColoredMain.displayLoop sprint true content allErrors todo i
  = PlainMain.displayLoop content allErrors todo i.
Proof.
  induction todo as [| todo IH]; intros i; [reflexivity |].
  cbn [ColoredMain.displayLoop PlainMain.displayLoop].
  destruct (io (run (index allErrors i))) as [o [e | s]]; [| reflexivity].
  cbn [bindP]. now rewrite displayError_same, IH.
Qed.

Lemma printCorrectionTips_same :
  sameRun (ColoredMain.printCorrectionTips sprint true)
          PlainMain.printCorrectionTips.
Proof.
  unfold ColoredMain.printCorrectionTips, ColoredMain.issueLine.
  uncolour. split; reflexivity.
Qed.

Lemma report_same content opts allErrors :
  sameRun (ColoredMain.report sprint true content opts allErrors)
          (PlainMain.report content (toPlain opts) allErrors).
Proof.
  unfold ColoredMain.report, PlainMain.report.
  change (Plain.MaxErrors (toPlain opts)) with (Colored.MaxErrors opts).
  rewrite displayLoop_same. uncolour.
  apply sameRun_bind; [apply sameRun_refl | intros _].
  apply sameRun_bind; [apply sameRun_refl | intros _].
  apply sameRun_bind; [apply sameRun_refl | intros _].
  apply sameRun_bind; [apply sameRun_refl | intros _].
  apply sameRun_bind.
  - destruct (len allErrors >? Colored.MaxErrors opts);
      [split; reflexivity | apply sameRun_refl].
  - intros _. apply sameRun_bind; [apply printCorrectionTips_same | intros _].
    apply sameRun_refl.
Qed.

Lemma Colored_validateXML_run content opts :
  Colored.validateXML xmlTokens (ColoredMain.successColor sprint true)
    (ColoredMain.infoColor sprint true) content opts
  = Plain.validateXML xmlTokens content (toPlain opts).
Proof.
  rewrite validateXML_run.
  unfold Colored.validateXML, Colored.validateXMLWith, Colored.limit.
  uncolour.
  pose proof (validateBasicXML_at_most_one xmlTokens content) as Hle.
  destruct (validateBasicXML xmlTokens content) as [| e l].
  - cbn [app]. rewrite len_nil.
    replace ((0 >=? Colored.MaxErrors opts) && (Colored.MaxErrors opts >? 0)) with false
      by (symmetry; destruct (0 >=? Colored.MaxErrors opts) eqn:E1;
          [| reflexivity]; rewrite Z.geb_leb in E1; apply Z.leb_le in E1;
          cbn [andb]; rewrite Z.gtb_ltb; apply Z.ltb_ge; lia).
    cbn [Z.eqb]. assert (Hpanic : validateCDATASections Colored.MaxErrors content opts
                     = Panic lookaheadPanic) by reflexivity.
    rewrite Hpanic. reflexivity.
  - assert (l = []) as ->.
    { destruct l; [reflexivity |]. rewrite !len_cons in Hle.
      pose proof (len_nonneg l). lia. }
    cbn [app]. change (len [e]) with 1. cbn [Z.eqb].
    destruct ((1 >=? Colored.MaxErrors opts) && (Colored.MaxErrors opts >? 0)) eqn:Hcut.
    + zbool. assert (Colored.MaxErrors opts = 1) as -> by lia. reflexivity.
    + destruct ((Colored.MaxErrors opts >? 0) && (1 >? Colored.MaxErrors opts)) eqn:Hlim;
        [| reflexivity].
      zbool. lia.
Qed.

Lemma mainBody_same filepath rest opts :
  sameRun (ColoredMain.mainBody xmlTokens world sprint true (filepath :: rest) opts)
          (PlainMain.main xmlTokens world (filepath :: rest) (toPlain opts)).
Proof.
  unfold ColoredMain.mainBody, PlainMain.main.
  change (Plain.MaxErrors (toPlain opts)) with (Colored.MaxErrors opts).
  replace (len (filepath :: rest) <? 1) with false
    by (symmetry; apply Z.ltb_ge; rewrite len_cons;
        pose proof (len_nonneg rest); lia).
  apply sameRun_bind; [apply sameRun_refl | intros _].
  apply sameRun_bind; [apply sameRun_refl | intros path].
  apply sameRun_bind; [apply sameRun_refl | intros _].
  apply sameRun_bind; [apply sameRun_refl | intros _].
  rewrite readFileContent_same.
  apply sameRun_bind; [apply sameRun_refl | intros [content err]].
  apply sameRun_bind; [apply sameRun_refl | intros _].
  rewrite Colored_validateXML_run.
  apply sameRun_bind; [apply sameRun_refl | intros allErrors].
  apply report_same.
Qed.

(** X19. With colours off, by the flag [--color=false] or because
    [color.NoColor] was already set, the coloured entry point behaves as
    the plain one on every run that has a file argument: it writes the
    same bytes to standard output and ends in the same way, the same exit
    status or the same panic. *)
Theorem coloured_main_without_colour
    (noColorAtStart : bool) (args : list gostring)
    (opts : Colored.ValidationOptions) :
  Colored.Color opts = false \/ noColorAtStart = true ->
  args <> [] ->
  sameRun (ColoredMain.main xmlTokens world sprint noColorAtStart args opts)
          (PlainMain.main xmlTokens world args (toPlain opts)).
Proof.
  intros Hoff Hargs. unfold ColoredMain.main.
  replace (if negb (Colored.Color opts) then true else noColorAtStart)
    with true
    by (destruct Hoff as [-> | ->]; [| destruct (negb _)]; reflexivity).
  destruct args as [| filepath rest]; [congruence |].
  apply mainBody_same.
Qed.

End ColoursOff.

Lemma coloured_main_without_colour_witness :
  sameRun
    (ColoredMain.main tokensSyntaxError
       (mkWorld (fun _ => inr (bs "no network")) (fun _ => (bs "<a>", None)))
       (fun off _ s => if off then s else bs "*" ++ s ++ bs "*")
       false [bs "a.xml"] (Colored.mkOptions 5 false false))
    (PlainMain.main tokensSyntaxError
       (mkWorld (fun _ => inr (bs "no network")) (fun _ => (bs "<a>", None)))
       [bs "a.xml"] (toPlain (Colored.mkOptions 5 false false))).
Proof.
  apply (coloured_main_without_colour tokensSyntaxError
           (mkWorld (fun _ => inr (bs "no network")) (fun _ => (bs "<a>", None)))
           (fun off _ s => if off then s else bs "*" ++ s ++ bs "*")).
  - reflexivity.
  - left. reflexivity.
  - discriminate.
Defined.
